(** * AstraGPT: the date-seeded key generator and the key prompt

    A shallow embedding of [KeyGenerator.generate_keys] and
    [CLIInterface.prompt_for_key] of [src/main.py], together with the part of
    Python's numeric semantics those two functions exercise: unbounded
    integers, binary64 floats, the coercions between them, [round], [**], [/]
    and the exceptions they raise.

    Three operations come from outside the repository and are parameters of
    the development: the C library's [pow] (called by CPython's float power),
    CPython's [repr] of a float, and [hashlib.sha256(..).hexdigest()].

    The rest of [src/main.py] follows: [AstraGPTClient], [clear_screen] and
    [main] with its chat loop, over a terminal that logs the calls made on
    it and a chat service that is a parameter as well. *)

From Stdlib Require Import ZArith List String Ascii Bool Lia.
From Stdlib Require Import DecimalString DecimalPos DecimalZ.
From Stdlib Require Import Floats.SpecFloat.
Import ListNotations.

Local Open Scope Z_scope.

(** ** IEEE 754 binary64, as Python's [float] *)

Module B64.

Definition prec : Z := 53.
Definition emax : Z := 1024.

Definition float : Type := spec_float.

Definition add : float -> float -> float := SFadd prec emax.
Definition sub : float -> float -> float := SFsub prec emax.
Definition mul : float -> float -> float := SFmul prec emax.
Definition div : float -> float -> float := SFdiv prec emax.

(** Nearest binary64 (ties to even) of an integer: C's conversion used by
    [PyLong_AsDouble].  An integer beyond the range rounds to an infinity. *)
Definition of_Z (z : Z) : float := binary_normalize prec emax z 0 false.

(** Nearest binary64 of the exact quotient [a / b] of two positive integers,
    with the sign given apart: the value of a decimal literal and of the
    true division of two integers. *)
Definition of_ratio (neg : bool) (a b : Z) : float :=
  let '(q, e, l) := SFdiv_core_binary prec emax a 0 b 0 in
  binary_round_aux prec emax neg q e l.

Definition zero : float := S754_zero false.
Definition one : float := Eval vm_compute in of_Z 1.

Definition is_nan (x : float) : bool :=
  match x with S754_nan => true | _ => false end.

Definition is_inf (x : float) : bool :=
  match x with S754_infinity _ => true | _ => false end.

Definition is_zero (x : float) : bool :=
  match x with S754_zero _ => true | _ => false end.

Definition is_finite (x : float) : bool :=
  match x with S754_zero _ | S754_finite _ _ _ => true | _ => false end.

(** Sign bit; [false] for NaN. *)
Definition signbit (x : float) : bool :=
  match x with
  | S754_zero s | S754_infinity s | S754_finite s _ _ => s
  | S754_nan => false
  end.

(** Comparison by value, exact for every mantissa and exponent; [None]
    when an operand is NaN. *)
Definition scaled (m : positive) (e e0 : Z) : Z := Z.shiftl (Zpos m) (e - e0).

Definition compare (x y : float) : option comparison :=
  match x, y with
  | S754_nan, _ | _, S754_nan => None
  | S754_infinity sx, S754_infinity sy =>
      Some (match sx, sy with
            | true, false => Lt | false, true => Gt | _, _ => Eq end)
  | S754_infinity s, _ => Some (if s then Lt else Gt)
  | _, S754_infinity s => Some (if s then Gt else Lt)
  | S754_zero _, S754_zero _ => Some Eq
  | S754_zero _, S754_finite s _ _ => Some (if s then Gt else Lt)
  | S754_finite s _ _, S754_zero _ => Some (if s then Lt else Gt)
  | S754_finite sx mx ex, S754_finite sy my ey =>
      let e0 := Z.min ex ey in
      Some (match sx, sy with
            | true, false => Lt
            | false, true => Gt
            | false, false => Z.compare (scaled mx ex e0) (scaled my ey e0)
            | true, true => Z.compare (scaled my ey e0) (scaled mx ex e0)
            end)
  end.

Definition eqb (x y : float) : bool :=
  match compare x y with Some Eq => true | _ => false end.

Definition ltb (x y : float) : bool :=
  match compare x y with Some Lt => true | _ => false end.

Definition leb (x y : float) : bool :=
  match compare x y with Some (Lt | Eq) => true | _ => false end.

(** [not (x < 0.0)], as C evaluates it: true of a NaN as well. *)
Definition nonneg (x : float) : Prop := ltb x zero = false.

(** The value [2^k]: mantissa 1, exponent [k].  Not the normal form of a
    binary64, but [compare] goes by value. *)
Definition pow2 (k : Z) : float := S754_finite false 1 k.

(** [|x| <= 2^k]; false of an infinity and of a NaN. *)
Definition within (k : Z) (x : float) : Prop := leb (SFabs x) (pow2 k) = true.

(** [2^j <= x]. *)
Definition reaches (j : Z) (x : float) : Prop := leb (pow2 j) x = true.

(** [x == floor(x)] for a finite [x]. *)
Definition is_integer (x : float) : bool :=
  match x with
  | S754_zero _ => true
  | S754_finite _ m e =>
      if 0 <=? e then true else Z.eqb (Z.land (Zpos m) (Z.ones (- e))) 0
  | _ => false
  end.

(** CPython's [DOUBLE_IS_ODD_INTEGER]: [fmod(fabs(x), 2.0) == 1.0]. *)
Definition is_odd_integer (x : float) : bool :=
  match x with
  | S754_finite _ m e =>
      if 0 <? e then false
      else is_integer x && Z.odd (Z.shiftr (Zpos m) (- e))
  | _ => false
  end.

(** The integer nearest to a finite [x], ties to the even one: what
    [float.__round__] with no digits computes ([round] of C, then the
    half-way correction to the even neighbour).  [None] on an infinity or
    a NaN. *)
Definition half_even (q r d : Z) : Z :=
  match Z.compare (2 * r) d with
  | Lt => q
  | Gt => q + 1
  | Eq => if Z.even q then q else q + 1
  end.

Definition round_half_even (x : float) : option Z :=
  match x with
  | S754_zero _ => Some 0
  | S754_finite s m e =>
      let a :=
        if 0 <=? e then Z.shiftl (Zpos m) e
        else
          let d := Z.shiftl 1 (- e) in
          half_even (Z.shiftr (Zpos m) (- e)) (Z.land (Zpos m) (Z.ones (- e))) d in
      Some (if s then - a else a)
  | _ => None
  end.

End B64.

(** ** The fragment of Python's object model used by the key generator *)

Module Py.

Import B64.

(** Exceptions the modelled code can raise. *)
Inductive exn : Type :=
| TypeError
| ValueError (msg : string)
| ZeroDivisionError
| OverflowError
| EOFError.

Inductive result (A : Type) : Type :=
| Ok (a : A)
| Raise (e : exn).

Arguments Ok {A} a.
Arguments Raise {A} e.

Definition bind {A B : Type} (r : result A) (k : A -> result B) : result B :=
  match r with
  | Ok a => k a
  | Raise e => Raise e
  end.

(** Neither a division by zero nor a complex number handed to [round]. *)
Definition benign {A : Type} (r : result A) : Prop :=
  match r with
  | Raise ZeroDivisionError | Raise TypeError => False
  | _ => True
  end.

Declare Scope py_scope.
Delimit Scope py_scope with py.
Notation "x <- c ;; k" := (bind c (fun x => k))
  (at level 61, c at next level, right associativity) : py_scope.
Notation "' pat <- c ;; k" := (bind c (fun x => let 'pat := x in k))
  (at level 61, pat pattern, c at next level, right associativity) : py_scope.
Local Open Scope py_scope.

(** Numbers.  A complex number only arises from a negative base raised to
    a fractional power; its components are not tracked, since every
    expression of [generate_keys] that can hold one is an argument of
    [round], which rejects it. *)
Inductive num : Type :=
| Int (z : Z)
| Float (f : float)
| Complex.

(** What C's [pow] reports besides its value. *)
Inductive errno : Type := ENONE | ERANGE | EDOM.

(** [str] of an [int]: canonical base 10, a leading minus sign when
    negative.  (CPython 3.11 refuses integers of more than 4300 digits;
    the seed of a calendar date has fewer than 140, and a raw key fewer
    than 310: [key0_raw] has been converted to a float without overflow
    before its string is taken, the others are rounded floats.) *)
Definition int_str (z : Z) : string :=
  DecimalString.NilZero.string_of_int (Z.to_int z).

(** [s.encode()]: the UTF-8 bytes of a string; the strings encoded here
    are ASCII, so the bytes are the characters. *)
Definition encode (s : string) : string := s.

(** [PyLong_AsDouble] and [CONVERT_TO_DOUBLE]. *)
Definition int_as_double (z : Z) : result float :=
  let f := of_Z z in
  if is_inf f then Raise OverflowError else Ok f.

(** Coercion of the real operand of a mixed operation; [None] marks a
    complex operand. *)
Definition as_double (n : num) : result (option float) :=
  match n with
  | Int z => f <- int_as_double z ;; Ok (Some f)
  | Float f => Ok (Some f)
  | Complex => Ok None
  end.

(** Binary operation on two numbers that are not both [int]: both are
    coerced, left operand first; with a complex operand the result is
    complex. *)
Definition coerced (op : float -> float -> result num) (a b : num)
  : result num :=
  x <- as_double a ;;
  y <- as_double b ;;
  match x, y with
  | Some fa, Some fb => op fa fb
  | _, _ => Ok Complex
  end.

Definition py_add (a b : num) : result num :=
  match a, b with
  | Int x, Int y => Ok (Int (x + y))
  | _, _ => coerced (fun fa fb => Ok (Float (add fa fb))) a b
  end.

Definition py_sub (a b : num) : result num :=
  match a, b with
  | Int x, Int y => Ok (Int (x - y))
  | _, _ => coerced (fun fa fb => Ok (Float (sub fa fb))) a b
  end.

Definition py_mul (a b : num) : result num :=
  match a, b with
  | Int x, Int y => Ok (Int (x * y))
  | _, _ => coerced (fun fa fb => Ok (Float (mul fa fb))) a b
  end.

(** [float_div]. *)
Definition float_div (fa fb : float) : result num :=
  if eqb fb zero then Raise ZeroDivisionError else Ok (Float (div fa fb)).

(** [long_true_divide]: the correctly rounded quotient. *)
Definition long_true_divide (a b : Z) : result num :=
  if b =? 0 then Raise ZeroDivisionError
  else
    let negate := xorb (a <? 0) (b <? 0) in
    let f := of_ratio negate (Z.abs a) (Z.abs b) in
    if is_inf f then Raise OverflowError else Ok (Float f).

Definition py_truediv (a b : num) : result num :=
  match a, b with
  | Int x, Int y => long_true_divide x y
  | _, _ => coerced float_div a b
  end.

(** [round(x)] with one argument. *)
Definition py_round (x : num) : result Z :=
  match x with
  | Int z => Ok z
  | Float f =>
      match round_half_even f with
      | Some z => Ok z
      | None =>
          if is_nan f
          then Raise (ValueError "cannot convert float NaN to integer")
          else Raise OverflowError
      end
  | Complex => Raise TypeError
  end.

Section Pow.

(** C's [pow], with the [errno] it leaves. *)
Variable libm_pow : float -> float -> float * errno.

(** What is assumed of C's [pow].  For the formulas: the power of a
    positive base is not negative. *)
Definition pow_nonneg : Prop :=
  forall x y, ltb zero x = true -> nonneg (fst (libm_pow x y)).

(** For the absence of errors, the size of a power, as the real power
    has it with one bit to spare.  A base from 1 to [2^a] to a positive
    power of at most [2^b] is at most [2^(a * 2^b + 1)], and [errno] is
    left alone: the bound is far below the overflow threshold. *)
Definition pow_of_large_base : Prop :=
  forall x y a b,
    0 <= a -> 0 <= b -> a * 2 ^ b <= 900 ->
    reaches 0 x -> within a x -> ltb zero y = true -> within b y ->
    snd (libm_pow x y) = ENONE /\ within (a * 2 ^ b + 1) (fst (libm_pow x y)).

(** A positive base of at most 1 to a positive finite power is at most 1,
    and [errno] is set only when the power underflows to zero. *)
Definition pow_of_small_base : Prop :=
  forall x y,
    ltb zero x = true -> within 0 x -> ltb zero y = true -> is_inf y = false ->
    within 0 (fst (libm_pow x y))
    /\ (snd (libm_pow x y) = ENONE
        \/ snd (libm_pow x y) = ERANGE /\ eqb (fst (libm_pow x y)) zero = true).

(** [_Py_ADJUST_ERANGE1]. *)
Definition adjust_erange1 (x : float) (e : errno) : errno :=
  match e with
  | ENONE => if is_inf x then ERANGE else ENONE
  | ERANGE => if eqb x zero then ENONE else ERANGE
  | EDOM => EDOM
  end.

(** [float_pow] of CPython's [floatobject.c], case by case. *)
Definition float_pow (iv iw : float) : result num :=
  if eqb iw zero then Ok (Float one)
  else if is_nan iv then Ok (Float iv)
  else if is_nan iw then Ok (Float (if eqb iv one then one else iw))
  else if is_inf iw then
    let av := SFabs iv in
    if eqb av one then Ok (Float one)
    else if Bool.eqb (ltb zero iw) (ltb one av) then Ok (Float (SFabs iw))
    else Ok (Float zero)
  else if is_inf iv then
    let iw_is_odd := is_odd_integer iw in
    if ltb zero iw
    then Ok (Float (if iw_is_odd then iv else SFabs iv))
    else Ok (Float (if iw_is_odd then S754_zero (signbit iv) else zero))
  else if eqb iv zero then
    if ltb iw zero then Raise ZeroDivisionError
    else Ok (Float (if is_odd_integer iw then iv else zero))
  else if ltb iv zero && negb (is_integer iw) then Ok Complex
  else
    let negate_result := ltb iv zero && is_odd_integer iw in
    let av := SFabs iv in
    if eqb av one
    then Ok (Float (if negate_result then SFopp one else one))
    else
      let '(ix, e) := libm_pow av iw in
      match adjust_erange1 ix e with
      | ENONE => Ok (Float (if negate_result then SFopp ix else ix))
      | ERANGE => Raise OverflowError
      | EDOM => Raise (ValueError "math domain error")
      end.

(** [**]: [long_pow] on two integers (a float when the exponent is
    negative), [float_pow] after coercion otherwise. *)
Definition py_pow (a b : num) : result num :=
  match a, b with
  | Int x, Int y =>
      if y <? 0 then coerced float_pow a b else Ok (Int (x ^ y))
  | _, _ => coerced float_pow a b
  end.

End Pow.

End Py.

(** ** [KeyGenerator] *)

Module KeyGenerator.

Import B64 Py.
Local Open Scope py_scope.
Local Open Scope string_scope.

(** [datetime.date]: the three fields [generate_keys] reads. *)
Record date : Type := Date { year : Z; month : Z; day : Z }.

(** A valid date: a year from 1 on, a month from 1 to 12, a day from 1
    to 31. *)
Definition valid_date (d : date) : Prop :=
  1 <= d.(year) /\ 1 <= d.(month) <= 12 /\ 1 <= d.(day) <= 31.

(** A calendar date: a valid date within the years of [datetime.date],
    [MINYEAR = 1] to [MAXYEAR = 9999].  Every [datetime.date] is one (its
    days stop at the length of the month). *)
Definition calendar_date (d : date) : Prop :=
  valid_date d /\ d.(year) <= 9999.

(** What the process can observe and change: the host clock, read by
    [datetime.date.today()] (reading number [n] returns [clock n], so that
    two readings may fall on either side of midnight), and the texts
    handed to [print] and [input], in order. *)
Record World : Type :=
  { clock : nat -> date; ticks : nat; stdout : list string }.

(** Computations that read or change the world and may raise. *)
Definition IO (A : Type) : Type := World -> result A * World.

Definition io_bind {A B : Type} (c : IO A) (k : A -> IO B) : IO B :=
  fun w =>
    match c w with
    | (Ok a, w') => k a w'
    | (Raise e, w') => (Raise e, w')
    end.

Definition lift {A : Type} (r : result A) : IO A := fun w => (r, w).

(** The world after one more reading of the clock. *)
Definition tick (w : World) : World :=
  {| clock := w.(clock); ticks := S w.(ticks); stdout := w.(stdout) |}.

(** [datetime.date.today()] *)
Definition date_today : IO date :=
  fun w => (Ok (w.(clock) w.(ticks)), tick w).

(** [print(text)] *)
Definition print (text : string) : IO unit :=
  fun w =>
    (Ok tt,
     {| clock := w.(clock); ticks := w.(ticks);
        stdout := w.(stdout) ++ [text] |}).

(** [Union[List[str], str]], the return type of [generate_keys]. *)
Inductive keys : Type :=
| KeyList (l : list string)
| KeyStr (s : string).

(** Float literals of the source: the binary64 nearest to the decimal. *)
Definition f2_5 : float := Eval vm_compute in of_ratio false 25 10.
Definition f0_5 : float := Eval vm_compute in of_ratio false 5 10.
Definition f0_6 : float := Eval vm_compute in of_ratio false 6 10.
Definition f0_8 : float := Eval vm_compute in of_ratio false 8 10.
Definition f3_14 : float := Eval vm_compute in of_ratio false 314 100.

Section Host.

(** The host: C's [pow], CPython's [repr] of a number that is not an
    [int], and [hashlib.sha256(b).hexdigest()]. *)
Variable libm_pow : float -> float -> float * errno.
Variable repr : num -> string.
Variable sha256_hexdigest : string -> string.

Notation "a ** b" := (py_pow libm_pow a b) (at level 30, right associativity).

Definition py_str (n : num) : string :=
  match n with
  | Int z => int_str z
  | _ => repr n
  end.

(** [hashlib.sha256(s.encode()).hexdigest()] *)
Definition sha256_hex (s : string) : string := sha256_hexdigest (encode s).

(** Line 38: [(month ** 2) * (year ** day) * (2 ** day)]. *)
Definition raw_seed (today : date) : result num :=
  let year := today.(year) in
  let month := today.(month) in
  let day := today.(day) in
  m2 <- Int month ** Int 2 ;;
  yd <- Int year ** Int day ;;
  p <- py_mul m2 yd ;;
  td <- Int 2 ** Int day ;;
  py_mul p td.

(** Lines 42-44. *)
Definition key0_raw (today : date) : result num :=
  let year := today.(year) in
  let month := today.(month) in
  let day := today.(day) in
  q1 <- py_truediv (Int day) (Float f2_5) ;;
  e1 <- py_round q1 ;;
  p1 <- Int month ** Int e1 ;;
  t2 <- py_mul (Int 7) p1 ;;
  s1 <- py_add (Int (2 * year)) t2 ;;
  q2 <- py_truediv (Int day) (Int 2) ;;
  r1 <- py_round q2 ;;
  v1 <- Int day ** Float f0_6 ;;
  v2 <- Float f0_5 ** v1 ;;
  a <- py_add (Int (day mod 3)) v2 ;;
  r2 <- py_round a ;;
  p2 <- Int day ** Int (r1 + r2) ;;
  py_add s1 p2.

(** Line 45. *)
Definition key1_raw (today : date) (key0_raw : num) : result Z :=
  let month := today.(month) in
  a <- py_add key0_raw (Int 1) ;;
  b <- py_sub a (Int month) ;;
  c <- b ** Float f0_8 ;;
  py_round c.

(** Line 46. *)
Definition key2_raw (today : date) (key0_raw : num) (key1_raw : Z)
  : result Z :=
  let year := today.(year) in
  let month := today.(month) in
  let day := today.(day) in
  p <- py_mul key0_raw (Int (month + year - day * 2)) ;;
  s <- Int key1_raw ** Float f0_5 ;;
  t <- py_add p s ;;
  w <- Int 2 ** Int month ;;
  x <- py_sub t w ;;
  py_round x.

(** Lines 47-49. *)
Definition key3_raw (today : date) (key0_raw : num) (key1_raw key2_raw : Z)
  : result Z :=
  let month := today.(month) in
  let day := today.(day) in
  b <- py_truediv (Int (key1_raw + key2_raw)) (Int 2) ;;
  c <- py_truediv (Int key1_raw) key0_raw ;;
  d <- c ** Int (day + (month mod 3) mod 2) ;;
  e <- py_add b d ;;
  f <- Int month ** Float f3_14 ;;
  g <- py_mul e f ;;
  py_round g.

(** Lines 42-49: the four intermediate keys, in order. *)
Definition key_material (today : date) : result (num * Z * Z * Z) :=
  k0 <- key0_raw today ;;
  k1 <- key1_raw today k0 ;;
  k2 <- key2_raw today k0 k1 ;;
  k3 <- key3_raw today k0 k1 k2 ;;
  Ok (k0, k1, k2, k3).

(** The body of [generate_keys] after [today] has been read. *)
Definition generate_keys_at (today : date) (mode : string) : result keys :=
  raw_seed <- raw_seed today ;;
  let _hashed_seed := sha256_hex (py_str raw_seed) in
  '(key0_raw, key1_raw, key2_raw, key3_raw) <- key_material today ;;
  let key0 := sha256_hex (py_str key0_raw) in
  let key1 := sha256_hex (int_str key1_raw) in
  let key2 := sha256_hex (int_str key2_raw) in
  let key3 := sha256_hex (int_str key3_raw) in
  let keys := [key0; key1; key2; key3] in
  if mode =? "normal" then Ok (KeyList keys)
  else if mode =? "shared" then
    let shared_key := sha256_hex (key0 ++ key1) in
    Ok (KeyStr shared_key)
  else Raise (ValueError "Unsupported key mode.").

(** [KeyGenerator.generate_keys(mode)], lines 31-65. *)
Definition generate_keys (mode : string) : IO keys :=
  io_bind date_today (fun today => lift (generate_keys_at today mode)).

(** [generate_keys] with lines 38-39 (the seed and its hash) deleted. *)
Definition generate_keys_without_seed_at (today : date) (mode : string)
  : result keys :=
  '(key0_raw, key1_raw, key2_raw, key3_raw) <- key_material today ;;
  let key0 := sha256_hex (py_str key0_raw) in
  let key1 := sha256_hex (int_str key1_raw) in
  let key2 := sha256_hex (int_str key2_raw) in
  let key3 := sha256_hex (int_str key3_raw) in
  let keys := [key0; key1; key2; key3] in
  if mode =? "normal" then Ok (KeyList keys)
  else if mode =? "shared" then
    let shared_key := sha256_hex (key0 ++ key1) in
    Ok (KeyStr shared_key)
  else Raise (ValueError "Unsupported key mode.").

Definition generate_keys_without_seed (mode : string) : IO keys :=
  io_bind date_today
          (fun today => lift (generate_keys_without_seed_at today mode)).

End Host.

End KeyGenerator.

(** ** [CLIInterface.prompt_for_key] *)

Module CLIInterface.

Import Py KeyGenerator.
Local Open Scope string_scope.

(** [colorama.Fore.RED] *)
Definition Fore_RED : string := String "027"%char "[31m".

(** [x in v]: membership in a list, containment in a string. *)
Definition py_in (x : string) (v : keys) : bool :=
  match v with
  | KeyList l => existsb (String.eqb x) l
  | KeyStr s => match index 0 x s with Some _ => true | None => false end
  end.

(** [x == v] for a string [x]. *)
Definition py_eq (x : string) (v : keys) : bool :=
  match v with
  | KeyStr s => String.eqb x s
  | KeyList _ => false
  end.

(** How one pass through the body of the [while True] loop ends. *)
Inductive pass : Type :=
| Return (model : string)
| Again.

Section Host.

Variable libm_pow : B64.float -> B64.float -> B64.float * errno.
Variable repr : num -> string.
Variable sha256_hexdigest : string -> string.

(** Lines 137-146: the loop body once [input] has returned [user_key]. *)
Definition check_key (user_key : string) : IO pass :=
  io_bind (generate_keys libm_pow repr sha256_hexdigest "normal")
          (fun normal_keys =>
  io_bind (generate_keys libm_pow repr sha256_hexdigest "shared")
          (fun shared_key =>
  if py_in user_key normal_keys then
    lift (Ok (Return "gpt-3.5-turbo"))
  else if py_eq user_key shared_key then
    io_bind (print "Shared key accepted. Switching to GPT-4o Mini.")
            (fun _ => lift (Ok (Return "gpt-4o-mini")))
  else
    io_bind (print (Fore_RED ++ "Incorrect Key!"))
            (fun _ => lift (Ok Again)))).

(** Lines 130-146.  [stdin] holds the lines still to be read; [input]
    takes the first one and raises [EOFError] when none is left.  The
    loop runs once per line read. *)
Fixpoint prompt_for_key (stdin : list string) (w : World)
  : result string * list string * World :=
  match stdin with
  | [] =>
      let '(_, w) := print "Key: " w in (Raise EOFError, [], w)
  | user_key :: stdin' =>
      let '(_, w) := print "Key: " w in
      match check_key user_key w with
      | (Ok (Return model), w') => (Ok model, stdin', w')
      | (Ok Again, w') => prompt_for_key stdin' w'
      | (Raise e, w') => (Raise e, stdin', w')
      end
  end.

End Host.

End CLIInterface.

(** ** The specification's reading

    The access tiers and the classification of section 4.2, and the
    formulas of section 4.1 (steps 2 to 5) with every operand at the type
    the specification gives it: the integer powers and sums on unbounded
    integers, the fractional powers, the quotients and what is added to or
    multiplied with them on binary64, [round] to the nearest integer with
    ties to even. *)

Module Spec.

Import B64 Py KeyGenerator.
Local Open Scope py_scope.

Inductive AccessTier : Type := Standard | Elevated | Rejected.

(** Section 4.2, steps 2 to 4. *)
Definition validate (candidate : string) (normal : list string)
           (shared : string) : AccessTier :=
  if in_dec string_dec candidate normal then Standard
  else if string_dec candidate shared then Elevated
  else Rejected.

(** What [prompt_for_key] does with each tier (the model identifiers are
    the caller's policy, section 6): it returns the model of a granted
    tier and asks again on a rejected key. *)
Definition granted (t : AccessTier) : CLIInterface.pass :=
  match t with
  | Standard => CLIInterface.Return "gpt-3.5-turbo"
  | Elevated => CLIInterface.Return "gpt-4o-mini"
  | Rejected => CLIInterface.Again
  end.

(** The CalendarDate of section 4.1: a calendar date whose year is a
    4-digit value. *)
Definition CalendarDate (d : date) : Prop :=
  calendar_date d /\ 1000 <= d.(year).

Section Formulas.

Variable libm_pow : float -> float -> float * errno.

(** An integer as a double. *)
Definition double (z : Z) : result float := int_as_double z.

(** [x ^ y] on doubles: a real number, or an error. *)
Definition fpow (x y : float) : result float :=
  match float_pow libm_pow x y with
  | Ok (Float r) => Ok r
  | Ok _ => Raise TypeError
  | Raise e => Raise e
  end.

(** [a / b] of two integers, as a double. *)
Definition quot (a b : Z) : result float :=
  if b =? 0 then Raise ZeroDivisionError
  else
    let f := of_ratio (xorb (a <? 0) (b <? 0)) (Z.abs a) (Z.abs b) in
    if is_inf f then Raise OverflowError else Ok f.

(** [round]: nearest integer, ties to even. *)
Definition rnd (x : float) : result Z :=
  match round_half_even x with
  | Some z => Ok z
  | None =>
      if is_nan x
      then Raise (ValueError "cannot convert float NaN to integer")
      else Raise OverflowError
  end.

(** Whether [round(day / 2.5)], the first exponent of step 2, is at
    least 1. *)
Definition e1_positive (day : Z) : bool :=
  match double day with
  | Ok df =>
      match rnd (div df f2_5) with
      | Ok e1 => 1 <=? e1
      | Raise _ => false
      end
  | Raise _ => false
  end.

(** Whether the two exponents of step 2 that involve no power,
    [round(day / 2.5)] and [round(day / 2)], are computed without error
    and lie in [0, 12] and in [0, 16]. *)
Definition day_steps_small (day : Z) : bool :=
  match rnd (div (of_Z day) f2_5), (h <- quot day 2 ;; rnd h) with
  | Ok e1, Ok r1 => (0 <=? e1) && (e1 <=? 12) && (0 <=? r1) && (r1 <=? 16)
  | _, _ => false
  end.

(** Step 2. *)
Definition key0_raw (d : date) : result Z :=
  let '(Date year month day) := d in
  df <- double day ;;
  e1 <- rnd (div df f2_5) ;;
  h <- quot day 2 ;;
  r1 <- rnd h ;;
  v1 <- fpow df f0_6 ;;
  v2 <- fpow f0_5 v1 ;;
  c <- double (day mod 3) ;;
  r2 <- rnd (add c v2) ;;
  Ok (2 * year + 7 * month ^ e1 + day ^ (r1 + r2)).

(** Step 3. *)
Definition key1_raw (d : date) (key0_raw : Z) : result Z :=
  let '(Date year month day) := d in
  b <- double (key0_raw + 1 - month) ;;
  c <- fpow b f0_8 ;;
  rnd c.

(** Step 4. *)
Definition key2_raw (d : date) (key0_raw key1_raw : Z) : result Z :=
  let '(Date year month day) := d in
  k <- double key1_raw ;;
  s <- fpow k f0_5 ;;
  p <- double (key0_raw * (month + year - 2 * day)) ;;
  w <- double (2 ^ month) ;;
  rnd (sub (add p s) w).

(** Step 5. *)
Definition key3_raw (d : date) (key0_raw key1_raw key2_raw : Z)
  : result Z :=
  let '(Date year month day) := d in
  b <- quot (key1_raw + key2_raw) 2 ;;
  c <- quot key1_raw key0_raw ;;
  n <- double (day + (month mod 3) mod 2) ;;
  p <- fpow c n ;;
  m <- double month ;;
  f <- fpow m f3_14 ;;
  rnd (mul (add b p) f).

(** Steps 2 to 5, in order. *)
Definition key_material (d : date) : result (Z * Z * Z * Z) :=
  k0 <- key0_raw d ;;
  k1 <- key1_raw d k0 ;;
  k2 <- key2_raw d k0 k1 ;;
  k3 <- key3_raw d k0 k1 k2 ;;
  Ok (k0, k1, k2, k3).

End Formulas.

End Spec.

(** ** A reference host

    Executable stand-ins for the three host operations, used to run the
    model on concrete dates: SHA-256 as FIPS 180-4 defines it, a [pow]
    computed in fixed point from base-2 logarithms, and a placeholder for
    the [repr] of floats (never reached when [key0_raw] is an [int]). *)

Module Sha256.

Definition wrap (x : Z) : Z := x mod 2 ^ 32.

Definition rotr (n x : Z) : Z :=
  wrap (Z.lor (Z.shiftr x n) (Z.shiftl x (32 - n))).

Definition ch (x y z : Z) : Z :=
  Z.lxor (Z.land x y) (Z.land (Z.lxor x (Z.ones 32)) z).

Definition maj (x y z : Z) : Z :=
  Z.lxor (Z.lxor (Z.land x y) (Z.land x z)) (Z.land y z).

Definition big_sigma0 (x : Z) : Z :=
  Z.lxor (Z.lxor (rotr 2 x) (rotr 13 x)) (rotr 22 x).
Definition big_sigma1 (x : Z) : Z :=
  Z.lxor (Z.lxor (rotr 6 x) (rotr 11 x)) (rotr 25 x).
Definition small_sigma0 (x : Z) : Z :=
  Z.lxor (Z.lxor (rotr 7 x) (rotr 18 x)) (Z.shiftr x 3).
Definition small_sigma1 (x : Z) : Z :=
  Z.lxor (Z.lxor (rotr 17 x) (rotr 19 x)) (Z.shiftr x 10).

(** The first 64 primes, by trial division. *)
Definition is_prime (n : Z) : bool :=
  forallb (fun d => negb (n mod d =? 0) || (n <=? d))
          (map Z.of_nat (seq 2 17)).

Definition primes : list Z :=
  filter is_prime (map Z.of_nat (seq 2 310)).

(** Integer cube root, one bit at a time. *)
Definition icbrt (n : Z) : Z :=
  fold_left
    (fun r b => let c := r + 2 ^ Z.of_nat b in if c * c * c <=? n then c else r)
    (rev (seq 0 40)) 0.

(** Round constants: the first 32 bits of the fractional parts of the cube
    roots of the primes; initial state: the same of the square roots of
    the first eight. *)
Definition round_constants : list Z :=
  Eval vm_compute in map (fun p => wrap (icbrt (p * 2 ^ 96))) primes.

Definition initial_state : list Z :=
  Eval vm_compute in map (fun p => wrap (Z.sqrt (p * 2 ^ 64))) (firstn 8 primes).

Definition byte_of (c : ascii) : Z := Z.of_N (N_of_ascii c).

Fixpoint bytes_of (s : string) : list Z :=
  match s with
  | EmptyString => []
  | String c s' => byte_of c :: bytes_of s'
  end.

(** Big-endian bytes of [x], [n] of them. *)
Fixpoint be_bytes (n : nat) (x : Z) : list Z :=
  match n with
  | O => []
  | S n' => (Z.shiftr x (8 * Z.of_nat n')) mod 256 :: be_bytes n' x
  end.

Definition pad (msg : list Z) : list Z :=
  let len := Z.of_nat (List.length msg) in
  let zeros := Z.to_nat ((55 - len) mod 64) in
  msg ++ 128 :: repeat 0 zeros ++ be_bytes 8 (8 * len).

Fixpoint be_words (fuel : nat) (bs : list Z) : list Z :=
  match fuel, bs with
  | S fuel', b0 :: b1 :: b2 :: b3 :: rest =>
      (b0 * 2 ^ 24 + b1 * 2 ^ 16 + b2 * 2 ^ 8 + b3) :: be_words fuel' rest
  | _, _ => []
  end.

(** Message schedule: from the window of the last sixteen words, the next
    [n] words. *)
Fixpoint schedule (n : nat) (window : list Z) : list Z :=
  match n with
  | O => []
  | S n' =>
      let w := fun i => nth i window 0 in
      let next := wrap (small_sigma1 (w 14%nat) + w 9%nat
                        + small_sigma0 (w 1%nat) + w 0%nat) in
      next :: schedule n' (tl window ++ [next])
  end.

Definition round (st : list Z) (kw : Z * Z) : list Z :=
  match st with
  | [a; b; c; d; e; f; g; h] =>
      let t1 := h + big_sigma1 e + ch e f g + fst kw + snd kw in
      let t2 := big_sigma0 a + maj a b c in
      [wrap (t1 + t2); a; b; c; wrap (d + t1); e; f; g]
  | _ => st
  end.

Definition compress (st : list Z) (block : list Z) : list Z :=
  let w := block ++ schedule 48 block in
  let st' := fold_left round (combine round_constants w) st in
  map (fun p => wrap (fst p + snd p)) (combine st st').

Fixpoint blocks (fuel : nat) (ws : list Z) : list (list Z) :=
  match fuel, ws with
  | S fuel', _ :: _ => firstn 16 ws :: blocks fuel' (skipn 16 ws)
  | _, _ => []
  end.

Definition digest_words (msg : list Z) : list Z :=
  let bs := pad msg in
  let ws := be_words (List.length bs) bs in
  fold_left compress (blocks (List.length ws) ws) initial_state.

Definition hex_digit (d : Z) : ascii :=
  ascii_of_N (Z.to_N (if d <? 10 then 48 + d else 87 + d)).

Fixpoint hex (n : nat) (x : Z) : string :=
  match n with
  | O => EmptyString
  | S n' => String (hex_digit ((Z.shiftr x (4 * Z.of_nat n')) mod 16)) (hex n' x)
  end.

(** [hashlib.sha256(b).hexdigest()]: 64 lowercase hexadecimal digits. *)
Definition hexdigest (b : string) : string :=
  fold_right (fun w s => append (hex 8 w) s) EmptyString
             (digest_words (bytes_of b)).

End Sha256.

Module RefLibm.

Import B64.

(** Fixed point with [P] fractional bits; [N] bits of logarithm. *)
Definition P : Z := 288.
Definition N : nat := 128.
Definition fx_one : Z := 2 ^ P.
Definition fx_mul (a b : Z) : Z := Z.shiftr (a * b) P.

(** The first [n] fractional bits of [log2 t], for [t] in [1, 2): square,
    and halve whenever the square reaches 2. *)
Fixpoint log2_bits (n : nat) (t acc : Z) : Z :=
  match n with
  | O => acc
  | S n' =>
      let t2 := fx_mul t t in
      if 2 * fx_one <=? t2
      then log2_bits n' (Z.shiftr t2 1) (2 * acc + 1)
      else log2_bits n' t2 (2 * acc)
  end.

(** The iterated square roots of 2: [2^(1/2)], [2^(1/4)], ... *)
Fixpoint roots_of_two (n : nat) (root : Z) : list Z :=
  match n with
  | O => []
  | S n' => let r := Z.sqrt (root * fx_one) in r :: roots_of_two n' r
  end.

Definition roots : list Z := Eval vm_compute in roots_of_two N (2 * fx_one).

(** [2 ^ (f / 2^N)] for [0 <= f < 2^N]: the product of the roots selected
    by the bits of [f], most significant first. *)
Fixpoint exp2_bits (rs : list Z) (i : Z) (f acc : Z) : Z :=
  match rs with
  | [] => acc
  | r :: rs' =>
      exp2_bits rs' (i - 1) f (if Z.testbit f (i - 1) then fx_mul acc r else acc)
  end.

(** [x ** y] for a finite positive [x] and a finite [y]. *)
Definition pow (x y : float) : float * Py.errno :=
  match x, y with
  | S754_finite false mx ex, S754_finite sy my ey =>
      let d := Zdigits2 (Zpos mx) in
      let t := Z.shiftl (Zpos mx) (P - (d - 1)) in
      let lg := (ex + d - 1) * 2 ^ Z.of_nat N + log2_bits N t 0 in
      let l := Z.shiftl (lg * (if sy then Zneg my else Zpos my)) ey in
      let i := Z.shiftr l (Z.of_nat N) in
      let f := Z.land l (Z.ones (Z.of_nat N)) in
      if 1100 <? i then (S754_infinity false, Py.ERANGE)
      else if i <? -1200 then (S754_zero false, Py.ERANGE)
      else
        let r := exp2_bits roots (Z.of_nat N) f fx_one in
        let v := binary_normalize prec emax r (i - P) false in
        (v, if is_inf v || is_zero v then Py.ERANGE else Py.ENONE)
  | _, S754_zero _ => (one, Py.ENONE)
  | _, _ => (S754_nan, Py.EDOM)
  end.

(** The logarithm [pow] takes of its base, in units of [2^-N]: [lg] in
    the body of [pow]. *)
Definition lg (mx : positive) (ex : Z) : Z :=
  let d := Zdigits2 (Zpos mx) in
  (ex + d - 1) * 2 ^ Z.of_nat N
  + log2_bits N (Z.shiftl (Zpos mx) (P - (d - 1))) 0.

(** Placeholder for the [repr] of a float or a complex number. *)
Definition repr (n : Py.num) : string := "<float>"%string.

End RefLibm.

(** ** A run on the reference host *)

Module Example.

Import Py KeyGenerator.

(** 15 March 2024, the date of the specification's golden vector. *)
Definition golden : date := Date 2024 3 15.

(** A world whose clock stays on [d]. *)
Definition world_on (d : date) (n : nat) (out : list string) : World :=
  {| clock := fun _ => d; ticks := n; stdout := out |}.

Definition generate_keys (mode : string) : IO keys :=
  KeyGenerator.generate_keys RefLibm.pow RefLibm.repr Sha256.hexdigest mode.

Definition check_key (user_key : string) : IO CLIInterface.pass :=
  CLIInterface.check_key RefLibm.pow RefLibm.repr Sha256.hexdigest user_key.

Definition prompt_for_key (stdin : list string) (w : World)
  : result string * list string * World :=
  CLIInterface.prompt_for_key RefLibm.pow RefLibm.repr Sha256.hexdigest stdin w.

(** The digests of the golden date. *)
Definition golden_normal : list string :=
  ["3b52d12d9259faa95ece571bdf30a111a4e8f67dc6609c566ec6e99401ca6842";
   "cbc2b671e4faab2d2119683d44b70ea7cc87c07ec5638c4050bcb751119bba59";
   "1ae19e648019d73451d4a7c2856288acc8611dcbee427939364cfc7fa80dd5a3";
   "9ca5bfb9a49d7916ba6f45f370efb7c096bba846eed4aab9adc8abaeb0c551bf"]%string.

Definition golden_shared : string :=
  "f3078265d1c4da577ae74d67a7a92f63a3297215e9f3151e8d0b1110a7edaab3"%string.

End Example.

(** ** The chat phase: terminal, service and client

    What follows the key prompt in [main].  The terminal is a log of the
    calls made on it, each with its arguments; the chat-completion
    service of the [openai] package is a parameter. *)

Module Console.

Local Open Scope string_scope.

(** [colorama.Fore] *)
Definition Fore_BLUE : string := String "027"%char "[34m".
Definition Fore_YELLOW : string := String "027"%char "[33m".
Definition Fore_WHITE : string := String "027"%char "[37m".

Definition newline : string := String "010"%char EmptyString.

(** One call on the terminal or the operating system. *)
Inductive event : Type :=
| Printed (text end_ : string)
| Asked (prompt : string)
| Slept (seconds : Z)
| Ran (command : string).

(** The exceptions of the chat phase: the end of the input, an index out
    of range, an error of the service (held by its [str]). *)
Inductive failure : Type :=
| EOF
| IndexError
| ServiceError (msg : string).

(** [str(e)] *)
Definition failure_str (f : failure) : string :=
  match f with
  | EOF => "EOF when reading a line"
  | IndexError => "list index out of range"
  | ServiceError msg => msg
  end.

Inductive fallible (A : Type) : Type :=
| Done (a : A)
| Failed (f : failure).

Arguments Done {A} a.
Arguments Failed {A} f.

End Console.

(** The part of the [openai] package that [chat] uses. *)
Module OpenAI.

(** One entry of the transcript, [{"role": .., "content": ..}]. *)
Record message : Type := Message { role : string; content : string }.

(** The arguments of [chat.completions.create], with the key and the
    address the client was built with. *)
Record Request : Type :=
  { model : string;
    messages : list message;
    temperature : B64.float;
    stream : bool;
    api_key : string;
    base_url : string }.

(** A chunk of a streamed answer, as [chunk.choices]: each choice by its
    [delta.content], which may be [None]. *)
Definition chunk : Type := list (option string).

(** What [create] does: it raises, or returns a stream that yields some
    chunks and then ends or raises. *)
Inductive reply : Type :=
| Refused (msg : string)
| Streamed (chunks : list chunk) (broken : option string).

End OpenAI.

Module Terminal.

Import Console.

(** The lines still to be read, the calls made so far, and the requests
    sent to the service so far. *)
Record Session : Type :=
  { stdin : list string; out : list event; sent : list OpenAI.Request }.

Definition log (e : event) (t : Session) : Session :=
  {| stdin := t.(stdin); out := t.(out) ++ [e]; sent := t.(sent) |}.

(** [print(text, end=end_)] *)
Definition print (text end_ : string) (t : Session) : Session :=
  log (Printed text end_) t.

(** [input(prompt)]: the prompt is shown, then a line is read;
    [EOFError] when none is left. *)
Definition input (prompt : string) (t : Session) : fallible string * Session :=
  match t.(stdin) with
  | [] => (Failed EOF, log (Asked prompt) t)
  | line :: rest =>
      (Done line,
       {| stdin := rest; out := t.(out) ++ [Asked prompt]; sent := t.(sent) |})
  end.

(** [time.sleep(seconds)] *)
Definition sleep (seconds : Z) (t : Session) : Session := log (Slept seconds) t.

(** [os.system(command)]; its exit status is not looked at. *)
Definition system (command : string) (t : Session) : Session :=
  log (Ran command) t.

End Terminal.

(** ** [AstraGPTClient] *)

Module AstraGPTClient.

Import Console Terminal.
Local Open Scope string_scope.

(** The fields of the object; [client], the handle of the service, is
    its [api_key] and [base_url]. *)
Record Client : Type :=
  { api_key : string;
    base_url : string;
    model : string;
    prompt : string;
    history : list OpenAI.message }.

(** Lines 77-80. *)
Definition system_prompt : string :=
  "You are an AI named 'Astra GPT'. Your author is InfernalAtom683. "
  ++ "You speak English, Chinese, Korean and Arabic.".

(** Lines 73-83; [model] defaults to ["gpt-3.5-turbo"]. *)
Definition init (api_key base_url : string) (model : option string) : Client :=
  {| api_key := api_key;
     base_url := base_url;
     model := match model with Some m => m | None => "gpt-3.5-turbo" end;
     prompt := system_prompt;
     history := [OpenAI.Message "system" system_prompt] |}.

(** [self.history.append(m)] *)
Definition append (m : OpenAI.message) (c : Client) : Client :=
  {| api_key := c.(api_key); base_url := c.(base_url); model := c.(model);
     prompt := c.(prompt); history := c.(history) ++ [m] |}.

Section Service.

(** The service: what the call number [n] answers to a request. *)
Variable service : nat -> OpenAI.Request -> OpenAI.reply.

(** [self.client.chat.completions.create(..)] *)
Definition create (r : OpenAI.Request) (t : Session)
  : OpenAI.reply * Session :=
  (service (List.length t.(sent)) r,
   {| stdin := t.(stdin); out := t.(out); sent := t.(sent) ++ [r] |}).

(** Lines 103-107: the loop over the stream. *)
Fixpoint collect (chunks : list OpenAI.chunk) (broken : option string)
         (collected_chunks : list string) (t : Session)
  : fallible (list string) * Session :=
  match chunks with
  | [] =>
      match broken with
      | None => (Done collected_chunks, t)
      | Some msg => (Failed (ServiceError msg), t)
      end
  | choices :: rest =>
      match choices with
      | [] => (Failed IndexError, t)
      | chunk_data :: _ =>
          let display_chunk :=
            match chunk_data with Some s => s | None => "" end in
          collect rest broken (collected_chunks ++ [display_chunk])
                  (print display_chunk "" t)
      end
  end.

(** Lines 92-98: the request made of the transcript as it stands.  An
    override that is [None] or empty leaves the model of the client. *)
Definition request_for (c : Client) (model_override : option string)
  : OpenAI.Request :=
  let selected_model :=
    match model_override with
    | Some m => if m =? "" then c.(model) else m
    | None => c.(model)
    end in
  {| OpenAI.model := selected_model;
     OpenAI.messages := c.(history);
     OpenAI.temperature := B64.one;
     OpenAI.stream := true;
     OpenAI.api_key := c.(api_key);
     OpenAI.base_url := c.(base_url) |}.

(** Lines 85-112. *)
Definition chat (c : Client) (user_input : string)
           (model_override : option string) (t : Session)
  : fallible unit * Client * Session :=
  let c := append (OpenAI.Message "user" user_input) c in
  match create (request_for c model_override) t with
  | (OpenAI.Refused msg, t) => (Failed (ServiceError msg), c, t)
  | (OpenAI.Streamed chunks broken, t) =>
      let t := print (Fore_BLUE ++ "AstraGPT > ") "" t in
      match collect chunks broken [] t with
      | (Failed f, t) => (Failed f, c, t)
      | (Done collected_chunks, t) =>
          let t := print "" newline t in
          let full_reply := String.concat "" collected_chunks in
          (Done tt, append (OpenAI.Message "assistant" full_reply) c, t)
      end
  end.

End Service.

End AstraGPTClient.

(** ** [str.strip] and [str.lower] on ASCII text

    The two string methods [main] calls belong to the host; these are
    what they compute on a string of ASCII characters, and only there:
    on other text [str.strip] also removes the Unicode whitespace beyond
    ASCII (U+0085, U+00A0, U+3000 and the like) and [str.lower] folds the
    letters beyond [A-Z], which [strip] and [lower] below leave alone.
    [is_ascii] marks the strings on which they stand for the methods. *)

Module AsciiStr.

Local Open Scope string_scope.

(** Whitespace among the ASCII characters, as [str.strip] sees it: the
    codes 9 to 13 and 28 to 32. *)
Definition is_space (c : ascii) : bool :=
  let n := nat_of_ascii c in
  ((9 <=? n)%nat && (n <=? 13)%nat) || ((28 <=? n)%nat && (n <=? 32)%nat).

Fixpoint lstrip (s : string) : string :=
  match s with
  | EmptyString => EmptyString
  | String c s' => if is_space c then lstrip s' else s
  end.

Fixpoint rstrip (s : string) : string :=
  match s with
  | EmptyString => EmptyString
  | String c s' =>
      match rstrip s' with
      | EmptyString => if is_space c then EmptyString else String c EmptyString
      | r => String c r
      end
  end.

(** [s.strip()] *)
Definition strip (s : string) : string := rstrip (lstrip s).

Definition lower_char (c : ascii) : ascii :=
  let n := nat_of_ascii c in
  if (65 <=? n)%nat && (n <=? 90)%nat then ascii_of_nat (n + 32) else c.

(** [s.lower()] *)
Fixpoint lower (s : string) : string :=
  match s with
  | EmptyString => EmptyString
  | String c s' => String (lower_char c) (lower s')
  end.

(** Every character is an ASCII one. *)
Fixpoint is_ascii (s : string) : bool :=
  match s with
  | EmptyString => true
  | String c s' => (nat_of_ascii c <? 128)%nat && is_ascii s'
  end.

Fixpoint all_space (s : string) : bool :=
  match s with
  | EmptyString => true
  | String c s' => is_space c && all_space s'
  end.

End AsciiStr.

(** ** [main] and the chat loop *)

Module App.

Import Py KeyGenerator Console Terminal AstraGPTClient.
Local Open Scope string_scope.

(** How a turn of the loop ends: [continue] (or the end of the body), or
    [break]. *)
Inductive control : Type := Continue | Break.

(** How [main] ends: it returns, an exception leaves it, or it is still in
    its loop when the turns allowed are used up. *)
Inductive exit : Type :=
| Returned
| Raised (e : exn)
| Failing (f : failure)
| Running.

(** Line 154. *)
Definition placeholder_keys : list string :=
  ["sk-xxxxxxxxxxxxxxxxxxxxxxxxxxxxxxxxxxxxxxxxxxxxxxxxxxxx"].

Section Host.

(** The host: besides the three operations of [generate_keys], the
    string methods [str.strip] and [str.lower], the chat service,
    [os.name], and the number [random.choice] draws. *)
Variable libm_pow : B64.float -> B64.float -> B64.float * errno.
Variable repr : num -> string.
Variable sha256_hexdigest : string -> string.
Variable strip : string -> string.
Variable lower : string -> string.
Variable service : nat -> OpenAI.Request -> OpenAI.reply.
Variable os_name : string.
Variable rand : nat.

(** [random.choice(seq)] *)
Definition choice (seq : list string) : fallible string :=
  match seq with
  | [] => Failed IndexError
  | _ => Done (nth (rand mod List.length seq) seq "")
  end.

(** [CLIInterface.clear_screen()], lines 121-127. *)
Definition clear_screen (t : Session) : Session :=
  let command :=
    if existsb (String.eqb os_name) ["nt"; "dos"] then "cls" else "clear" in
  system command t.

(** Lines 167-174: the body of the [try]. *)
Definition attempt (c : Client) (t : Session)
  : fallible control * Client * Session :=
  match input (Fore_YELLOW ++ "You > " ++ Fore_WHITE) t with
  | (Failed f, t) => (Failed f, c, t)
  | (Done line, t) =>
      let user_input := strip line in
      if lower user_input =? "/quit" then
        (Done Break, c, print "bye!" newline t)
      else if user_input =? "" then (Done Continue, c, t)
      else
        match chat service c user_input None t with
        | (Done _, c, t) => (Done Continue, c, t)
        | (Failed f, c, t) => (Failed f, c, t)
        end
  end.

(** Lines 166-177: one turn of the loop, with its handler. *)
Definition turn (c : Client) (t : Session) : control * Client * Session :=
  match attempt c t with
  | (Done k, c, t) => (k, c, t)
  | (Failed f, c, t) =>
      let error_message := failure_str f in
      (Continue, c,
       print (CLIInterface.Fore_RED ++ "Server Error (Code: 0x00000000): "
              ++ error_message) newline t)
  end.

(** Lines 165-177: [while True], for at most [fuel] turns.  [Break] says
    that the loop was left, [Continue] that it is still running. *)
Fixpoint loop (fuel : nat) (c : Client) (t : Session)
  : control * Client * Session :=
  match fuel with
  | O => (Continue, c, t)
  | S fuel' =>
      match turn c t with
      | (Break, c, t) => (Break, c, t)
      | (Continue, c, t) => loop fuel' c t
      end
  end.

(** [main], lines 149-177, its loop run for at most [fuel] turns: how it
    ends, the world of the key prompt, the client if one was built, and
    the session of the chat phase. *)
Definition main (fuel : nat) (stdin : list string) (w : World)
  : exit * World * option Client * Session :=
  match choice placeholder_keys with
  | Failed f =>
      (Failing f, w, None, {| stdin := stdin; out := []; sent := [] |})
  | Done selected_api_key =>
      let base_url := "https://free.v36.cm/v1/" in
      match CLIInterface.prompt_for_key
              libm_pow repr sha256_hexdigest stdin w with
      | (Raise e, rest, w) =>
          (Raised e, w, None, {| stdin := rest; out := []; sent := [] |})
      | (Ok model_type, rest, w) =>
          let chat_client := init selected_api_key base_url (Some model_type) in
          let t := {| stdin := rest; out := []; sent := [] |} in
          let t := print "Connecting to server..." newline t in
          let t := sleep 2 t in
          let t := clear_screen t in
          match loop fuel chat_client t with
          | (Break, c, t) => (Returned, w, Some c, t)
          | (Continue, c, t) => (Running, w, Some c, t)
          end
      end
  end.

End Host.

End App.

(** ** Vocabulary of the properties of the chat phase *)

Module Lines.

Local Open Scope string_scope.

Section Str.

Variable strip : string -> string.
Variable lower : string -> string.

(** The two tests of lines 168 and 171 on a line read. *)
Definition quits (line : string) : bool := lower (strip line) =? "/quit".
Definition blank (line : string) : bool := strip line =? "".

(** The lines in front of the first one that quits. *)
Fixpoint before_quit (lines : list string) : list string :=
  match lines with
  | [] => []
  | line :: rest => if quits line then [] else line :: before_quit rest
  end.

(** What the user says before quitting: the lines that are not blank,
    stripped. *)
Definition spoken (lines : list string) : list string :=
  map strip (filter (fun line => negb (blank line)) (before_quit lines)).

End Str.

(** The prompt of line 167 and the line the handler of line 177 prints. *)
Definition you_prompt : Console.event :=
  Console.Asked (Console.Fore_YELLOW ++ "You > " ++ Console.Fore_WHITE).

Definition error_line (f : Console.failure) : Console.event :=
  Console.Printed
    (CLIInterface.Fore_RED ++ "Server Error (Code: 0x00000000): "
     ++ Console.failure_str f)
    Console.newline.

(** An event of the terminal proper: a text printed or a line asked. *)
Definition on_terminal (e : Console.event) : bool :=
  match e with
  | Console.Printed _ _ | Console.Asked _ => true
  | Console.Slept _ | Console.Ran _ => false
  end.

End Lines.

Module Transcript.

Import OpenAI.
Local Open Scope string_scope.

(** Questions and answers: every message is the user's or the
    assistant's, and an answer comes right after a question.  [asked]
    tells whether the message in front was a question. *)
Fixpoint dialogue (asked : bool) (l : list message) : bool :=
  match l with
  | [] => true
  | m :: l' =>
      if m.(role) =? "user" then dialogue true l'
      else if m.(role) =? "assistant" then asked && dialogue false l'
      else false
  end.

(** A transcript: the system prompt, then a dialogue. *)
Definition well_formed (system_prompt : string) (h : list message) : bool :=
  match h with
  | [] => false
  | m :: l =>
      (m.(role) =? "system") && (m.(content) =? system_prompt)
      && dialogue false l
  end.

(** [l2] is [l1] with more messages after it. *)
Definition extends (l1 l2 : list message) : Prop :=
  exists more, more <> [] /\ l2 = (l1 ++ more)%list.

Definition user_contents (h : list message) : list string :=
  map content (filter (fun m => m.(role) =? "user") h).

End Transcript.

Module Keeping.

Import Console Terminal AstraGPTClient.
Local Open Scope string_scope.

(** What a session keeps, from a client [c0] whose transcript is well
    formed and a session [t0]: the settings of the client; a well-formed
    transcript that only grows; requests that carry these settings and
    the transcript of their moment, a question last, each longer than
    the ones before; and nothing but terminal events. *)
Definition session_invariant (c0 : Client) (t0 : Session)
           (c : Client) (t : Session) : Prop :=
  (c.(model) = c0.(model) /\ c.(api_key) = c0.(api_key)
   /\ c.(base_url) = c0.(base_url) /\ c.(prompt) = c0.(prompt))
  /\ Transcript.well_formed c.(prompt) c.(history) = true
  /\ (exists more, c.(history) = (c0.(history) ++ more)%list)
  /\ (exists shown,
        t.(out) = (t0.(out) ++ shown)%list
        /\ Forall (fun e => Lines.on_terminal e = true) shown)
  /\ exists news,
       t.(sent) = (t0.(sent) ++ news)%list
       /\ Forall (fun r =>
                    (r.(OpenAI.model) = c0.(model)
                     /\ r.(OpenAI.api_key) = c0.(api_key)
                     /\ r.(OpenAI.base_url) = c0.(base_url)
                     /\ r.(OpenAI.temperature) = B64.one
                     /\ r.(OpenAI.stream) = true)
                    /\ Transcript.well_formed c0.(prompt) r.(OpenAI.messages)
                       = true
                    /\ (exists h u,
                          r.(OpenAI.messages)
                          = (h ++ [OpenAI.Message "user" u])%list
                          /\ u <> "")
                    /\ exists more,
                         c.(history) = (r.(OpenAI.messages) ++ more)%list)
                 news
       /\ ForallOrdPairs
            (fun r1 r2 =>
               Transcript.extends r1.(OpenAI.messages) r2.(OpenAI.messages))
            news.

End Keeping.

(** ** A chat on a reference service *)

Module ChatExample.

Import Console Terminal AstraGPTClient.
Local Open Scope string_scope.

(** A service that answers the first request in three chunks, refuses
    the second, sends a chunk without choices in its third answer, and
    breaks its fourth stream. *)
Definition service (n : nat) (r : OpenAI.Request) : OpenAI.reply :=
  match n with
  | 0%nat => OpenAI.Streamed [[Some "Hel"]; [None]; [Some "lo"; Some "x"]] None
  | 1%nat => OpenAI.Refused "Connection error."
  | 2%nat => OpenAI.Streamed [[Some "par"]; []; [Some "tial"]] None
  | 3%nat => OpenAI.Streamed [[Some "cut"]] (Some "stream closed")
  | _ => OpenAI.Streamed [[Some "ok"]] None
  end.

Definition client : Client :=
  init "sk-test" "https://example.invalid/v1/" (Some "gpt-4o-mini").

Definition session (lines : list string) : Session :=
  {| stdin := lines; out := []; sent := [] |}.

Definition chat : Client -> string -> option string -> Session
                  -> fallible unit * Client * Session :=
  AstraGPTClient.chat service.

Definition loop : nat -> Client -> Session -> App.control * Client * Session :=
  App.loop AsciiStr.strip AsciiStr.lower service.

Definition main (fuel : nat) (stdin : list string) (w : KeyGenerator.World)
  : App.exit * KeyGenerator.World * option Client * Session :=
  App.main RefLibm.pow RefLibm.repr Sha256.hexdigest
           AsciiStr.strip AsciiStr.lower service "posix" 0 fuel stdin w.

(** 16 March 2024, the day after the golden date. *)
Definition next_day : KeyGenerator.date := KeyGenerator.Date 2024 3 16.

Definition next_shared : string :=
  "f2c2196884280701c52132cdfabc40094a22da4beef87e2b6513dc335a97ab37".

(** The client and the session after a first question that was
    answered. *)
Definition answered : Client :=
  snd (fst (chat client "hi" None (session []))).

Definition answered_session : Session :=
  snd (chat client "hi" None (session [])).

(** A clock that passes midnight between its readings [n] and [n + 1]. *)
Definition midnight_after (n : nat) : KeyGenerator.World :=
  {| KeyGenerator.clock :=
       fun k => if (k <=? n)%nat then Example.golden else next_day;
     KeyGenerator.ticks := n;
     KeyGenerator.stdout := [] |}.

End ChatExample.

(** * Properties *)

(** ** Signs of binary64 results *)

Module B64Facts.

Import B64.

Lemma nonneg_round_aux q e l : nonneg (binary_round_aux prec emax false q e l).
Proof.
  unfold nonneg, binary_round_aux.
  destruct (shr_fexp prec emax q e l) as [m1 e1].
  destruct (shr_fexp prec emax _ e1 loc_Exact) as [m2 e2].
  destruct (shr_m m2); try reflexivity.
  destruct (e2 <=? emax - prec); reflexivity.
Qed.

Lemma nonneg_normalize z e : 0 <= z -> nonneg (binary_normalize prec emax z e false).
Proof.
  intros Hz. unfold binary_normalize.
  destruct z as [|p|p]; try reflexivity; [|lia].
  unfold binary_round. destruct (shl_align _ _ _). apply nonneg_round_aux.
Qed.

Lemma nonneg_of_Z z : 0 <= z -> nonneg (of_Z z).
Proof. apply nonneg_normalize. Qed.

Lemma nonneg_of_ratio a b : nonneg (of_ratio false a b).
Proof.
  unfold of_ratio. destruct (SFdiv_core_binary _ _ _ _ _ _) as [[q e] l].
  apply nonneg_round_aux.
Qed.

Lemma nonneg_cases x :
  nonneg x ->
  x = S754_nan \/ (exists s, x = S754_zero s) \/ x = S754_infinity false
  \/ exists m e, x = S754_finite false m e.
Proof.
  unfold nonneg. destruct x as [s|s| |s m e]; auto.
  - right. left. eauto.
  - destruct s; [discriminate|auto].
  - destruct s; [discriminate|]. right. right. right. eauto.
Qed.

Lemma nonneg_add x y : nonneg x -> nonneg y -> nonneg (add x y).
Proof.
  intros Hx Hy.
  destruct (nonneg_cases x Hx) as [->|[[s ->]|[->|(m & e & ->)]]];
    destruct (nonneg_cases y Hy) as [->|[[s' ->]|[->|(m' & e' & ->)]]];
    try reflexivity; try (destruct s; reflexivity);
    try (destruct s'; reflexivity).
  - destruct s, s'; reflexivity.
  - unfold add, SFadd.
    destruct (shl_align m e _) as [a ea], (shl_align m' e' _) as [b eb].
    cbn [fst cond_Zopp]. apply nonneg_normalize. lia.
Qed.

Lemma nonneg_div_pos x m e : nonneg x -> nonneg (div x (S754_finite false m e)).
Proof.
  intros Hx.
  destruct (nonneg_cases x Hx) as [->|[[s ->]|[->|(m0 & e0 & ->)]]];
    try reflexivity; try (destruct s; reflexivity).
  unfold div, SFdiv. destruct (SFdiv_core_binary _ _ _ _ _ _) as [[q e1] l].
  apply nonneg_round_aux.
Qed.

Lemma half_even_nonneg q r d : 0 <= q -> 0 <= half_even q r d.
Proof.
  intros. unfold half_even. destruct (2 * r ?= d); try lia.
  destruct (Z.even q); lia.
Qed.

Lemma round_nonneg x z : nonneg x -> round_half_even x = Some z -> 0 <= z.
Proof.
  intros Hx.
  destruct (nonneg_cases x Hx) as [->|[[s ->]|[->|(m & e & ->)]]]; simpl;
    try discriminate.
  - intros [= <-]. lia.
  - intros [= <-]. destruct (0 <=? e).
    + apply Z.shiftl_nonneg. lia.
    + apply half_even_nonneg. apply Z.shiftr_nonneg. lia.
Qed.

Lemma odd_is_integer y : is_odd_integer y = true -> is_integer y = true.
Proof.
  destruct y as [| | |s m e]; try discriminate. unfold is_odd_integer.
  destruct (0 <? e); [discriminate|]. now intros [H _]%andb_prop.
Qed.

(** Ties go to the even neighbour. *)
Example round_ties :
  map (fun n => round_half_even (of_ratio false n 2)) [1; 3; 5; 7]
  = [Some 0; Some 2; Some 2; Some 4].
Proof. reflexivity. Qed.

End B64Facts.

(** ** Magnitudes of binary64 results

    Rounding to binary64 keeps a value below [2^k] at most [2^k], and a
    value of at least [2^j] at least [2^j]; hence bounds on the results of
    the operations, with a bit to spare at each step. *)

Module MagnitudeFacts.

Import B64 B64Facts.

Lemma shiftl_pos_mul a n : 0 <= n -> Z.shiftl a n = a * 2 ^ n.
Proof. intros. now rewrite Z.shiftl_mul_pow2. Qed.

Lemma pow2_pos n : 0 <= n -> 0 < 2 ^ n.
Proof. intros. apply Z.pow_pos_nonneg; lia. Qed.

Lemma pow2_neg n : n < 0 -> 2 ^ n = 0.
Proof. intros. now apply Z.pow_neg_r. Qed.

Lemma pow2_nonneg n : 0 <= 2 ^ n.
Proof. apply Z.pow_nonneg. lia. Qed.

Lemma pow2_split a b : 0 <= a -> 0 <= b -> 2 ^ (a + b) = 2 ^ a * 2 ^ b.
Proof. intros. now rewrite Z.pow_add_r. Qed.

Lemma pow2_le a b : a <= b -> 2 ^ a <= 2 ^ b.
Proof.
  intros H. destruct (Z.lt_ge_cases a 0) as [Ha|Ha].
  - rewrite (pow2_neg a Ha). apply pow2_nonneg.
  - apply Z.pow_le_mono_r; lia.
Qed.

(** [m * 2^e <= 2^k], for a positive mantissa. *)
Lemma leb_pow2_iff m e k :
  leb (S754_finite false m e) (pow2 k) = true <-> Zpos m <= 2 ^ (k - e).
Proof.
  unfold leb, pow2, compare, scaled.
  destruct (Z.le_gt_cases e k) as [H|H].
  - rewrite Z.min_l by lia. replace (e - e) with 0 by lia.
    rewrite Z.shiftl_0_r, shiftl_pos_mul by lia. rewrite Z.mul_1_l.
    destruct (Z.compare_spec (Zpos m) (2 ^ (k - e))); split; intros; try easy; lia.
  - rewrite Z.min_r by lia. replace (k - k) with 0 by lia.
    rewrite Z.shiftl_0_r, shiftl_pos_mul by lia.
    rewrite (pow2_neg (k - e)) by lia.
    pose proof (pow2_pos (e - k) ltac:(lia)).
    assert (2 <= 2 ^ (e - k)).
    { replace (e - k) with (1 + (e - k - 1)) by lia.
      rewrite pow2_split by lia. pose proof (pow2_pos (e - k - 1) ltac:(lia)). lia. }
    destruct (Z.compare_spec (Zpos m * 2 ^ (e - k)) 1); split; intros; try easy; nia.
Qed.

Lemma pow2_leb_iff j m e :
  leb (pow2 j) (S754_finite false m e) = true <-> 2 ^ (j - e) <= Zpos m.
Proof.
  unfold leb, pow2, compare, scaled.
  destruct (Z.le_gt_cases e j) as [H|H].
  - rewrite Z.min_r by lia. replace (e - e) with 0 by lia.
    rewrite Z.shiftl_0_r, shiftl_pos_mul by lia. rewrite Z.mul_1_l.
    destruct (Z.compare_spec (2 ^ (j - e)) (Zpos m)); split; intros; try easy; lia.
  - rewrite Z.min_l by lia. replace (j - j) with 0 by lia.
    rewrite Z.shiftl_0_r, shiftl_pos_mul by lia.
    rewrite (pow2_neg (j - e)) by lia.
    pose proof (pow2_pos (e - j) ltac:(lia)).
    destruct (Z.compare_spec 1 (Zpos m * 2 ^ (e - j))); split; intros; try easy; nia.
Qed.

Lemma digits_bounds p :
  2 ^ (Zpos (digits2_pos p) - 1) <= Zpos p < 2 ^ Zpos (digits2_pos p).
Proof.
  induction p as [p IH|p IH|]; cbn [digits2_pos].
  - rewrite Pos2Z.inj_succ.
    replace (Z.succ (Zpos (digits2_pos p)) - 1)
      with (1 + (Zpos (digits2_pos p) - 1)) by lia.
    replace (Z.succ (Zpos (digits2_pos p))) with (1 + Zpos (digits2_pos p)) by lia.
    rewrite !pow2_split by lia. change (2 ^ 1) with 2. lia.
  - rewrite Pos2Z.inj_succ.
    replace (Z.succ (Zpos (digits2_pos p)) - 1)
      with (1 + (Zpos (digits2_pos p) - 1)) by lia.
    replace (Z.succ (Zpos (digits2_pos p))) with (1 + Zpos (digits2_pos p)) by lia.
    rewrite !pow2_split by lia. change (2 ^ 1) with 2. lia.
  - cbn. lia.
Qed.

Lemma Zdigits2_nonneg m : 0 <= Zdigits2 m.
Proof. destruct m; cbn; lia. Qed.

Lemma Zdigits2_le m k : 0 <= m < 2 ^ k -> Zdigits2 m <= k.
Proof.
  intros [H0 H]. destruct m as [|p|p]; [| |lia].
  - cbn. destruct (Z.lt_ge_cases k 0); [|lia]. rewrite pow2_neg in H; lia.
  - cbn [Zdigits2]. pose proof (digits_bounds p) as [Hl _].
    destruct (Z.le_gt_cases (Zpos (digits2_pos p)) k); [assumption|].
    assert (2 ^ k <= 2 ^ (Zpos (digits2_pos p) - 1)) by (apply pow2_le; lia).
    lia.
Qed.

Lemma Zdigits2_lower m : 1 <= m -> 2 ^ (Zdigits2 m - 1) <= m.
Proof.
  intros H. destruct m as [|p|p]; try lia. apply digits_bounds.
Qed.

Lemma shr_1_m mrs : 0 <= shr_m mrs -> shr_m (shr_1 mrs) = shr_m mrs / 2.
Proof.
  destruct mrs as [m r s]. cbn [shr_m]. intros H.
  destruct m as [|[p|p|]|p]; cbn [shr_1 shr_m]; try lia.
  - reflexivity.
  - rewrite Pos2Z.inj_xI. apply Z.div_unique with 1; lia.
  - rewrite Pos2Z.inj_xO. apply Z.div_unique with 0; lia.
  - reflexivity.
Qed.

Lemma iter_pos_shr p : forall mrs,
  0 <= shr_m mrs -> shr_m (iter_pos shr_1 p mrs) = shr_m mrs / 2 ^ Zpos p.
Proof.
  assert (Hnn : forall mrs, 0 <= shr_m mrs -> 0 <= shr_m (shr_1 mrs)).
  { intros mrs H. rewrite shr_1_m by assumption. apply Z.div_pos; lia. }
  induction p as [p IH|p IH|]; intros mrs H; cbn [iter_pos].
  - assert (H1 := Hnn _ H).
    assert (H2 : 0 <= shr_m (iter_pos shr_1 p (shr_1 mrs))).
    { rewrite IH by assumption. apply Z.div_pos; [assumption|]. apply pow2_pos. lia. }
    rewrite IH, IH, shr_1_m by assumption.
    rewrite !Z.div_div by (try lia; apply pow2_pos; lia).
    f_equal. replace (Zpos p~1) with (1 + Zpos p + Zpos p) by lia.
    rewrite !pow2_split by lia. change (2 ^ 1) with 2. ring.
  - assert (H2 : 0 <= shr_m (iter_pos shr_1 p mrs)).
    { rewrite IH by assumption. apply Z.div_pos; [assumption|]. apply pow2_pos. lia. }
    rewrite IH, IH by assumption.
    rewrite !Z.div_div by (try lia; apply pow2_pos; lia).
    f_equal. replace (Zpos p~0) with (Zpos p + Zpos p) by lia.
    rewrite !pow2_split by lia. ring.
  - rewrite shr_1_m by assumption. reflexivity.
Qed.

Lemma shr_record_of_loc_m m l : shr_m (shr_record_of_loc m l) = m.
Proof. destruct l as [|[| |]]; reflexivity. Qed.

(** What [shr_fexp] does to the mantissa and the exponent. *)
Lemma shr_fexp_spec m e l :
  0 <= m ->
  let n := Z.max 0 (fexp prec emax (Zdigits2 m + e) - e) in
  exists mrs, shr_fexp prec emax m e l = (mrs, e + n) /\ shr_m mrs = m / 2 ^ n.
Proof.
  intros Hm n. unfold shr_fexp, shr. subst n.
  destruct (fexp prec emax (Zdigits2 m + e) - e) as [|p|p] eqn:E.
  - eexists. split; [rewrite Z.add_0_r; reflexivity|].
    rewrite shr_record_of_loc_m. cbn. now rewrite Z.div_1_r.
  - eexists. split; [rewrite Z.max_r by lia; reflexivity|].
    rewrite iter_pos_shr by (rewrite shr_record_of_loc_m; assumption).
    rewrite shr_record_of_loc_m. now rewrite Z.max_r by lia.
  - eexists. split; [rewrite Z.max_l by lia; rewrite Z.add_0_r; reflexivity|].
    rewrite shr_record_of_loc_m, Z.max_l by lia. cbn. now rewrite Z.div_1_r.
Qed.

Lemma round_nearest_even_bounds m l :
  m <= round_nearest_even m l <= m + 1.
Proof.
  destruct l as [|[| |]]; cbn [round_nearest_even]; try lia.
  destruct (Z.even m); lia.
Qed.

Lemma fexp_eq x : fexp prec emax x = Z.max (x - 53) (-1074).
Proof. reflexivity. Qed.

(** One [shr_fexp] keeps [(m + 1) * 2^e <= 2^k]. *)
Lemma shr_fexp_upper m e l k :
  0 <= m -> m + 1 <= 2 ^ (k - e) -> -1074 <= k ->
  exists mrs e', shr_fexp prec emax m e l = (mrs, e') /\
    0 <= shr_m mrs /\ shr_m mrs + 1 <= 2 ^ (k - e') /\ e' <= k.
Proof.
  intros Hm Hk Hmin.
  destruct (shr_fexp_spec m e l Hm) as (mrs & E & Hv).
  set (n := Z.max 0 _) in *.
  assert (Hek : e <= k).
  { destruct (Z.le_gt_cases e k); [assumption|]. rewrite pow2_neg in Hk; lia. }
  assert (Hd : Zdigits2 m <= k - e) by (apply Zdigits2_le; lia).
  assert (Hn : 0 <= n) by (unfold n; lia).
  assert (He' : e + n <= k).
  { unfold n. rewrite fexp_eq. lia. }
  exists mrs, (e + n). split; [assumption|]. rewrite Hv.
  pose proof (pow2_pos n Hn) as Hp.
  split; [apply Z.div_pos; lia|]. split; [|assumption].
  replace (k - e) with (k - (e + n) + n) in Hk by lia.
  rewrite pow2_split in Hk by lia.
  assert (m / 2 ^ n < 2 ^ (k - (e + n))).
  { apply Z.div_lt_upper_bound; [assumption|]. lia. }
  lia.
Qed.

(** A shift to the right never lets the value grow. *)
Lemma shr_fexp_le m e l k :
  0 <= m -> m <= 2 ^ (k - e) ->
  exists mrs e', shr_fexp prec emax m e l = (mrs, e') /\
    0 <= shr_m mrs /\ shr_m mrs <= 2 ^ (k - e').
Proof.
  intros Hm Hk.
  destruct (shr_fexp_spec m e l Hm) as (mrs & E & Hv).
  set (n := Z.max 0 _) in *.
  assert (Hn : 0 <= n) by (unfold n; lia).
  exists mrs, (e + n). split; [assumption|]. rewrite Hv.
  pose proof (pow2_pos n Hn) as Hp.
  split; [apply Z.div_pos; lia|].
  destruct (Z.lt_ge_cases (k - (e + n)) 0) as [Hneg|Hpos].
  - rewrite (pow2_neg _ Hneg).
    assert (2 ^ (k - e) < 2 ^ n).
    { destruct (Z.lt_ge_cases (k - e) 0) as [H1|H1].
      - rewrite pow2_neg by assumption. assumption.
      - apply Z.pow_lt_mono_r; lia. }
    rewrite Z.div_small; lia.
  - replace (k - e) with (k - (e + n) + n) in Hk by lia.
    rewrite pow2_split in Hk by lia.
    apply Z.div_le_upper_bound; [assumption|]. lia.
Qed.

Lemma within_zero k s : within k (S754_zero s).
Proof. reflexivity. Qed.

Lemma within_finite k s m e : within k (S754_finite s m e) <-> Zpos m <= 2 ^ (k - e).
Proof. unfold within. cbn [SFabs]. apply leb_pow2_iff. Qed.

(** Rounding keeps a value below [2^k] at most [2^k]. *)
Lemma round_aux_within s m e l k :
  0 <= m -> m + 1 <= 2 ^ (k - e) -> -1074 <= k <= 971 ->
  within k (binary_round_aux prec emax s m e l).
Proof.
  intros Hm Hk Hr. unfold binary_round_aux.
  destruct (shr_fexp_upper m e l k Hm Hk ltac:(lia))
    as (mrs1 & e1 & -> & H0 & H1 & He1).
  pose proof (round_nearest_even_bounds (shr_m mrs1) (loc_of_shr_record mrs1)) as Hb.
  destruct (shr_fexp_le (round_nearest_even (shr_m mrs1) (loc_of_shr_record mrs1))
              e1 loc_Exact k ltac:(lia) ltac:(lia))
    as (mrs2 & e2 & -> & H2 & H3).
  destruct (shr_m mrs2) as [|p|p] eqn:E; [apply within_zero| |lia].
  assert (e2 <= k).
  { destruct (Z.le_gt_cases e2 k); [assumption|]. rewrite pow2_neg in H3; lia. }
  replace (e2 <=? emax - prec) with true
    by (symmetry; apply Z.leb_le; unfold emax, prec; lia).
  now apply within_finite.
Qed.

(** One [shr_fexp] keeps [2^j <= m * 2^e]. *)
Lemma shr_fexp_lower m e l j :
  1 <= m -> 2 ^ (j - e) <= m -> -1074 <= j ->
  exists mrs e', shr_fexp prec emax m e l = (mrs, e') /\
    1 <= shr_m mrs /\ 2 ^ (j - e') <= shr_m mrs.
Proof.
  intros Hm Hj Hmin.
  destruct (shr_fexp_spec m e l ltac:(lia)) as (mrs & E & Hv).
  set (n := Z.max 0 _) in *.
  assert (Hn : 0 <= n) by (unfold n; lia).
  exists mrs, (e + n). split; [assumption|]. rewrite Hv.
  pose proof (pow2_pos n Hn) as Hp.
  destruct (Z.eq_dec n 0) as [->|Hn0].
  { rewrite Z.add_0_r. change (2 ^ 0) with 1. rewrite Z.div_1_r. lia. }
  assert (En : e + n = Z.max (Zdigits2 m + e - 53) (-1074)).
  { unfold n. rewrite fexp_eq. unfold n in Hn0. rewrite fexp_eq in Hn0. lia. }
  destruct (Z.le_gt_cases (e + n) j) as [Hle|Hgt].
  - assert (2 ^ (j - (e + n)) <= m / 2 ^ n).
    { apply Z.div_le_lower_bound; [assumption|].
      rewrite Z.mul_comm, <- pow2_split by lia.
      now replace (j - (e + n) + n) with (j - e) by lia. }
    pose proof (pow2_pos (j - (e + n)) ltac:(lia)). lia.
  - rewrite (pow2_neg (j - (e + n))) by lia.
    assert (E53 : e + n = Zdigits2 m + e - 53) by lia.
    pose proof (Zdigits2_lower m Hm) as Hlow.
    assert (2 ^ 52 <= m / 2 ^ n).
    { apply Z.div_le_lower_bound; [assumption|].
      rewrite Z.mul_comm, <- pow2_split by lia.
      now replace (52 + n) with (Zdigits2 m - 1) by lia. }
    pose proof (pow2_pos 52 ltac:(lia)). lia.
Qed.

Lemma reaches_finite j m e : reaches j (S754_finite false m e) <-> 2 ^ (j - e) <= Zpos m.
Proof. apply pow2_leb_iff. Qed.

(** Rounding keeps a value of at least [2^j] at least [2^j]. *)
Lemma round_aux_reaches m e l j :
  1 <= m -> 2 ^ (j - e) <= m -> -1074 <= j ->
  reaches j (binary_round_aux prec emax false m e l).
Proof.
  intros Hm Hj Hr. unfold binary_round_aux.
  destruct (shr_fexp_lower m e l j Hm Hj Hr) as (mrs1 & e1 & -> & H0 & H1).
  pose proof (round_nearest_even_bounds (shr_m mrs1) (loc_of_shr_record mrs1)) as Hb.
  destruct (shr_fexp_lower (round_nearest_even (shr_m mrs1) (loc_of_shr_record mrs1))
              e1 loc_Exact j ltac:(lia) ltac:(lia) Hr)
    as (mrs2 & e2 & -> & H2 & H3).
  destruct (shr_m mrs2) as [|p|p] eqn:E; [lia| |lia].
  destruct (e2 <=? emax - prec); [|reflexivity].
  now apply reaches_finite.
Qed.

Lemma shl_align_spec mx ex ex' :
  exists mz ez, shl_align mx ex ex' = (mz, ez) /\ ez <= ex
                /\ Zpos mz = Zpos mx * 2 ^ (ex - ez).
Proof.
  unfold shl_align. destruct (ex' - ex) as [|d|d] eqn:E.
  - exists mx, ex. split; [reflexivity|]. split; [lia|].
    replace (ex - ex) with 0 by lia. change (2 ^ 0) with 1. lia.
  - exists mx, ex. split; [reflexivity|]. split; [lia|].
    replace (ex - ex) with 0 by lia. change (2 ^ 0) with 1. lia.
  - exists (Pos.iter xO mx d), ex'. split; [reflexivity|]. split; [lia|].
    change (Pos.iter xO mx d) with (shift_pos d mx).
    rewrite shift_pos_correct. replace (ex - ex') with (Zpos d) by lia.
    change (Z.pow_pos 2 d) with (2 ^ Zpos d). ring.
Qed.

Lemma round_within s mx ex k :
  Zpos mx + 1 <= 2 ^ (k - ex) -> -1074 <= k <= 971 ->
  within k (binary_round prec emax s mx ex).
Proof.
  intros Hk Hr. unfold binary_round.
  destruct (shl_align_spec mx ex (fexp prec emax (Zpos (digits2_pos mx) + ex)))
    as (mz & ez & -> & Hez & Hmz).
  apply round_aux_within; [lia| |assumption].
  assert (0 <= k - ex).
  { destruct (Z.lt_ge_cases (k - ex) 0); [|assumption]. rewrite pow2_neg in Hk; lia. }
  replace (k - ez) with (k - ex + (ex - ez)) by lia.
  rewrite pow2_split, Hmz by lia.
  pose proof (pow2_pos (ex - ez) ltac:(lia)). nia.
Qed.

Lemma normalize_within z e k :
  Z.abs z + 1 <= 2 ^ (k - e) -> -1074 <= k <= 971 ->
  within k (binary_normalize prec emax z e false).
Proof.
  intros Hk Hr. unfold binary_normalize.
  destruct z as [|p|p]; [apply within_zero| |]; apply round_within; auto.
Qed.

Lemma round_reaches mx ex j :
  2 ^ (j - ex) <= Zpos mx -> -1074 <= j ->
  reaches j (binary_round prec emax false mx ex).
Proof.
  intros Hj Hr. unfold binary_round.
  destruct (shl_align_spec mx ex (fexp prec emax (Zpos (digits2_pos mx) + ex)))
    as (mz & ez & -> & Hez & Hmz).
  apply round_aux_reaches; [lia| |assumption].
  rewrite Hmz. pose proof (pow2_pos (ex - ez) ltac:(lia)) as Hp.
  destruct (Z.lt_ge_cases (j - ez) 0) as [Hn|Hn].
  { rewrite pow2_neg by assumption. lia. }
  destruct (Z.lt_ge_cases (j - ex) 0) as [Hx|Hx].
  - assert (2 ^ (j - ez) <= 2 ^ (ex - ez)) by (apply pow2_le; lia). nia.
  - replace (j - ez) with (j - ex + (ex - ez)) by lia.
    rewrite pow2_split by lia. nia.
Qed.

Lemma normalize_reaches z e j :
  1 <= z -> 2 ^ (j - e) <= z -> -1074 <= j ->
  reaches j (binary_normalize prec emax z e false).
Proof.
  intros Hz Hj Hr. destruct z as [|p|p]; try lia. now apply round_reaches.
Qed.

Lemma within_cases k x :
  within k x ->
  (exists s, x = S754_zero s)
  \/ exists s m e, x = S754_finite s m e /\ Zpos m <= 2 ^ (k - e) /\ e <= k.
Proof.
  destruct x as [s|s| |s m e]; try discriminate.
  - left. eauto.
  - intros H%within_finite. right. exists s, m, e. split; [reflexivity|].
    split; [assumption|].
    destruct (Z.le_gt_cases e k); [assumption|]. rewrite pow2_neg in H; lia.
Qed.

Lemma within_mono k k' x : k <= k' -> within k x -> within k' x.
Proof.
  intros Hk [[s ->]|(s & m & e & -> & H & He)]%within_cases;
    [apply within_zero|].
  apply within_finite. assert (2 ^ (k - e) <= 2 ^ (k' - e)) by (apply pow2_le; lia).
  lia.
Qed.

Lemma within_not_inf k x : within k x -> is_inf x = false.
Proof. now destruct x. Qed.

Lemma within_not_nan k x : within k x -> is_nan x = false.
Proof. now destruct x. Qed.

Lemma within_abs k x : within k x -> within k (SFabs x).
Proof. now destruct x. Qed.

Lemma within_opp k x : within k x -> within k (SFopp x).
Proof. now destruct x. Qed.

Lemma of_Z_within z k : Z.abs z < 2 ^ k -> 0 <= k <= 971 -> within k (of_Z z).
Proof.
  intros Hz Hk. apply normalize_within; [|lia]. rewrite Z.sub_0_r. lia.
Qed.

Lemma of_Z_reaches z j : 2 ^ j <= z -> 0 <= j -> reaches j (of_Z z).
Proof.
  intros Hz Hj. pose proof (pow2_pos j Hj).
  apply normalize_reaches; [lia| |lia]. now rewrite Z.sub_0_r.
Qed.

(** Aligned mantissas of an addition. *)
Lemma shl_align_fst mx ex ez :
  ez <= ex -> Zpos (fst (shl_align mx ex ez)) = Zpos mx * 2 ^ (ex - ez)
              /\ snd (shl_align mx ex ez) = ez.
Proof.
  intros H. unfold shl_align. destruct (ez - ex) as [|d|d] eqn:E; cbn [fst snd].
  - replace (ex - ez) with 0 by lia. change (2 ^ 0) with 1. lia.
  - lia.
  - change (Pos.iter xO mx d) with (shift_pos d mx).
    rewrite shift_pos_correct. replace (ex - ez) with (Zpos d) by lia.
    change (Z.pow_pos 2 d) with (2 ^ Zpos d). split; [ring|reflexivity].
Qed.

Lemma aligned_bound m e ez k :
  ez <= e -> e <= k -> Zpos m <= 2 ^ (k - e) ->
  Zpos (fst (shl_align m e ez)) <= 2 ^ (k - ez).
Proof.
  intros H1 H2 H. destruct (shl_align_fst m e ez H1) as [-> _].
  replace (k - ez) with (k - e + (e - ez)) by lia.
  rewrite pow2_split by lia. pose proof (pow2_pos (e - ez) ltac:(lia)). nia.
Qed.

Lemma sum_within a b ez k :
  Z.abs a <= 2 ^ (k - ez) -> Z.abs b <= 2 ^ (k - ez) -> ez <= k ->
  -1074 <= k -> k + 2 <= 971 ->
  within (k + 2) (binary_normalize prec emax (a + b) ez false).
Proof.
  intros Ha Hb He Hk1 Hk2. apply normalize_within; [|lia].
  replace (k + 2 - ez) with (2 + (k - ez)) by lia.
  rewrite pow2_split by lia. change (2 ^ 2) with 4.
  pose proof (pow2_pos (k - ez) ltac:(lia)). lia.
Qed.

Lemma cond_Zopp_abs s z : Z.abs (cond_Zopp s z) = Z.abs z.
Proof. destruct s; cbn; lia. Qed.

Lemma add_within k x y :
  within k x -> within k y -> -1074 <= k -> k + 2 <= 971 ->
  within (k + 2) (add x y).
Proof.
  intros Hx Hy Hk1 Hk2.
  assert (Hx' := within_mono k (k + 2) x ltac:(lia) Hx).
  assert (Hy' := within_mono k (k + 2) y ltac:(lia) Hy).
  destruct (within_cases _ _ Hx) as [[s ->]|(s & m & e & -> & Hm & He)];
    destruct (within_cases _ _ Hy) as [[s' ->]|(s' & m' & e' & -> & Hm' & He')].
  - destruct s, s'; reflexivity.
  - exact Hy'.
  - exact Hx'.
  - unfold add, SFadd. apply sum_within; try lia.
    + rewrite cond_Zopp_abs, Z.abs_eq by lia. apply aligned_bound; lia.
    + rewrite cond_Zopp_abs, Z.abs_eq by lia. apply aligned_bound; lia.
Qed.

Lemma sub_within k x y :
  within k x -> within k y -> -1074 <= k -> k + 2 <= 971 ->
  within (k + 2) (sub x y).
Proof.
  intros Hx Hy Hk1 Hk2.
  assert (Hx' := within_mono k (k + 2) x ltac:(lia) Hx).
  assert (Hy' := within_mono k (k + 2) y ltac:(lia) Hy).
  destruct (within_cases _ _ Hx) as [[s ->]|(s & m & e & -> & Hm & He)];
    destruct (within_cases _ _ Hy) as [[s' ->]|(s' & m' & e' & -> & Hm' & He')].
  - destruct s, s'; reflexivity.
  - exact Hy'.
  - exact Hx'.
  - unfold sub, SFsub.
    replace (cond_Zopp s (Zpos (fst (shl_align m e (Z.min e e'))))
             - cond_Zopp s' (Zpos (fst (shl_align m' e' (Z.min e e')))))
      with (cond_Zopp s (Zpos (fst (shl_align m e (Z.min e e'))))
            + cond_Zopp (negb s') (Zpos (fst (shl_align m' e' (Z.min e e')))))
      by (destruct s'; cbn; lia).
    apply sum_within; try lia.
    + rewrite cond_Zopp_abs, Z.abs_eq by lia. apply aligned_bound; lia.
    + rewrite cond_Zopp_abs, Z.abs_eq by lia. apply aligned_bound; lia.
Qed.

Lemma mul_within a b x y :
  within a x -> within b y -> -1074 <= a + b + 1 <= 971 ->
  within (a + b + 1) (mul x y).
Proof.
  intros Hx Hy Hk.
  destruct (within_cases _ _ Hx) as [[s ->]|(s & m & e & -> & Hm & He)];
    destruct (within_cases _ _ Hy) as [[s' ->]|(s' & m' & e' & -> & Hm' & He')];
    try reflexivity.
  unfold mul, SFmul. apply round_aux_within; [lia| |lia].
  replace (a + b + 1 - (e + e')) with (1 + ((a - e) + (b - e'))) by lia.
  rewrite !pow2_split by lia. change (2 ^ 1) with 2.
  rewrite Pos2Z.inj_mul.
  pose proof (pow2_pos (a - e) ltac:(lia)). pose proof (pow2_pos (b - e') ltac:(lia)).
  nia.
Qed.

Lemma of_ratio_within neg n d k :
  0 <= n -> 0 < d -> n <= 2 ^ k * d -> 0 <= k -> k + 1 <= 971 ->
  within (k + 1) (of_ratio neg n d).
Proof.
  intros Hn Hd Hq Hk Hk1. unfold of_ratio, SFdiv_core_binary.
  rewrite !Z.add_0_r, Z.sub_0_r.
  set (e' := Z.min _ 0).
  assert (He' : e' <= 0) by (unfold e'; lia).
  set (m' := match 0 - e' with Z0 => n | Zpos _ => Z.shiftl n (0 - e') | Zneg _ => 0 end).
  assert (Hm' : m' = n * 2 ^ (- e')).
  { unfold m'. destruct (0 - e') as [|p|p] eqn:E; [| |lia].
    - replace (- e') with 0 by lia. change (2 ^ 0) with 1. lia.
    - rewrite shiftl_pos_mul by lia. f_equal. f_equal. lia. }
  pose proof (pow2_pos (- e') ltac:(lia)) as Hp.
  pose proof (pow2_pos k Hk) as Hpk.
  pose proof (Z_div_mod m' d ltac:(lia)) as Hdm.
  destruct (Z.div_eucl m' d) as [q r]. destruct Hdm as [Hdm Hr].
  assert (Hq0 : 0 <= q) by nia.
  apply round_aux_within; [assumption| |lia].
  replace (k + 1 - e') with (1 + (k + - e')) by lia.
  rewrite !pow2_split by lia. change (2 ^ 1) with 2.
  assert (q <= 2 ^ k * 2 ^ (- e')); [|nia].
  assert (d * q <= d * (2 ^ k * 2 ^ (- e'))); [|nia]. nia.
Qed.

Lemma half_even_le q r d : half_even q r d <= q + 1.
Proof.
  unfold half_even. destruct (2 * r ?= d); try lia. destruct (Z.even q); lia.
Qed.

Lemma round_half_even_within k x :
  within k x -> 0 <= k ->
  exists z, round_half_even x = Some z /\ Z.abs z <= 2 ^ (k + 1).
Proof.
  intros Hx Hk. pose proof (pow2_pos k Hk) as Hp.
  assert (E : 2 ^ (k + 1) = 2 * 2 ^ k).
  { rewrite Z.add_comm, pow2_split by lia. reflexivity. }
  destruct (within_cases _ _ Hx) as [[s ->]|(s & m & e & -> & Hm & He)].
  - exists 0. split; [reflexivity|]. cbn. lia.
  - cbn [round_half_even]. eexists. split; [reflexivity|].
    assert (forall a, 0 <= a <= 2 ^ k + 1 -> Z.abs (if s then - a else a) <= 2 ^ (k + 1))
      as Hs by (intros; destruct s; lia).
    apply Hs. destruct (Z.leb_spec 0 e).
    + rewrite shiftl_pos_mul by assumption.
      pose proof (pow2_pos e ltac:(lia)).
      assert (2 ^ k = 2 ^ (k - e) * 2 ^ e) as Ek.
      { rewrite <- pow2_split by lia. f_equal. lia. }
      nia.
    + rewrite Z.shiftr_div_pow2 by lia.
      pose proof (pow2_pos (- e) ltac:(lia)) as Hpe.
      assert (0 <= Zpos m / 2 ^ (- e)) by (apply Z.div_pos; lia).
      assert (Zpos m / 2 ^ (- e) <= 2 ^ k).
      { apply Z.div_le_upper_bound; [assumption|].
        rewrite <- pow2_split by lia. now replace (- e + k) with (k - e) by lia. }
      split.
      * apply half_even_nonneg. assumption.
      * pose proof (half_even_le (Zpos m / 2 ^ (- e))
                      (Z.land (Zpos m) (Z.ones (- e))) (Z.shiftl 1 (- e))). lia.
Qed.

End MagnitudeFacts.

(** ** Python's power and mixed arithmetic *)

Module PyFacts.

Import B64 Py B64Facts.
Local Open Scope py_scope.

Lemma bind_assoc {A B C : Type} (r : result A) (f : A -> result B)
      (g : B -> result C) :
  (y <- (x <- r ;; f x) ;; g y) = (x <- r ;; y <- f x ;; g y).
Proof. now destruct r. Qed.

Lemma benign_bind {A B : Type} (r : result A) (k : A -> result B) :
  benign r -> (forall a, r = Ok a -> benign (k a)) -> benign (bind r k).
Proof. destruct r as [a|e]; cbn; auto. Qed.

(** One operation of a chain of [bind]s at a time. *)
Ltac benign_step := apply benign_bind; [|intros ? ?].

Lemma int_as_double_nonneg z f : 0 <= z -> int_as_double z = Ok f -> nonneg f.
Proof.
  unfold int_as_double. intros Hz. destruct (is_inf (of_Z z)); [discriminate|].
  intros [= <-]. now apply nonneg_of_Z.
Qed.

Lemma int_as_double_benign z : benign (int_as_double z).
Proof. unfold int_as_double. now destruct (is_inf _). Qed.

Lemma int_str_examples :
  map int_str [0; 7; -12; 2562899776]
  = ["0"; "7"; "-12"; "2562899776"]%string.
Proof. reflexivity. Qed.

(** [str] of an integer reads back as that integer. *)
Lemma int_str_reads_back z :
  option_map Z.of_int (NilZero.int_of_string (int_str z)) = Some z.
Proof.
  unfold int_str. rewrite NilZero.isi.
  - cbn [option_map]. now rewrite DecimalZ.of_to.
  - destruct z; try discriminate. cbn. intros [= H].
    now apply DecimalPos.Unsigned.to_uint_nonnil in H.
  - destruct z; try discriminate. cbn. intros [= H].
    now apply DecimalPos.Unsigned.to_uint_nonnil in H.
Qed.

(** [str] of an integer is the canonical decimal string: it prints a
    numeral of that value in normal form, which has no leading zero and is
    signed only when negative. *)
Lemma int_str_canonical z :
  exists d : Decimal.int,
    int_str z = NilZero.string_of_int d
    /\ Decimal.norm d = d
    /\ Z.of_int d = z.
Proof.
  exists (Z.to_int z). split; [reflexivity|]. split.
  - rewrite <- DecimalZ.to_of. now rewrite DecimalZ.of_to.
  - apply DecimalZ.of_to.
Qed.

Section Pow.

Variable libm_pow : float -> float -> float * errno.

Lemma float_pow_not_int x y z : float_pow libm_pow x y <> Ok (Int z).
Proof.
  unfold float_pow.
  repeat match goal with
         | |- context [if ?b then _ else _] => destruct b
         | |- context [let '(_, _) := ?p in _] => destruct p
         | |- context [match adjust_erange1 ?a ?b with _ => _ end] =>
             destruct (adjust_erange1 a b)
         end; discriminate.
Qed.

(** Mixed operations, resolved at the types of their operands. *)
Lemma pow_int_float a f :
  py_pow libm_pow (Int a) (Float f)
  = (x <- int_as_double a ;; float_pow libm_pow x f).
Proof. unfold py_pow, coerced, as_double. now destruct (int_as_double a). Qed.

Lemma pow_float_float a f :
  py_pow libm_pow (Float a) (Float f) = float_pow libm_pow a f.
Proof. reflexivity. Qed.

Lemma pow_float_int a n :
  py_pow libm_pow (Float a) (Int n)
  = (x <- int_as_double n ;; float_pow libm_pow a x).
Proof.
  unfold py_pow, coerced, as_double. cbn [bind].
  now destruct (int_as_double n).
Qed.

Lemma pow_int_int a n :
  0 <= n -> py_pow libm_pow (Int a) (Int n) = Ok (Int (a ^ n)).
Proof. intros. unfold py_pow. destruct (Z.ltb_spec n 0); [lia|reflexivity]. Qed.

Hypothesis Hpow : pow_nonneg libm_pow.

(** With a non-negative base the power is a non-negative float or an
    error, and the only [ZeroDivisionError] is zero to a negative
    power. *)
Lemma float_pow_nonneg x y :
  nonneg x ->
  match float_pow libm_pow x y with
  | Ok (Float r) => nonneg r
  | Ok _ => False
  | Raise ZeroDivisionError => eqb x zero = true /\ ltb y zero = true
  | Raise TypeError => False
  | Raise _ => True
  end.
Proof.
  intros Hx. unfold float_pow.
  destruct (eqb y zero); [reflexivity|].
  destruct (is_nan x) eqn:Hnan; [exact Hx|].
  destruct (is_nan y) eqn:Hnany.
  { destruct y; try discriminate. destruct (eqb x one); reflexivity. }
  destruct (is_inf y) eqn:Hinfy.
  { destruct (eqb (SFabs x) one); [reflexivity|].
    destruct (Bool.eqb _ _); [|reflexivity].
    destruct y; try discriminate. reflexivity. }
  destruct (is_inf x) eqn:Hinfx.
  { destruct (ltb zero y); destruct (is_odd_integer y);
      try reflexivity; try exact Hx.
    destruct x; try discriminate; reflexivity. }
  destruct (eqb x zero) eqn:Hz.
  { destruct (ltb y zero); [split; reflexivity|].
    destruct (is_odd_integer y); [exact Hx|reflexivity]. }
  unfold nonneg in Hx. rewrite Hx. cbn [andb].
  destruct (nonneg_cases x Hx) as [->|[[s ->]|[->|(m & e & ->)]]];
    try discriminate.
  cbn [SFabs].
  destruct (eqb _ one); [reflexivity|].
  pose proof (Hpow (S754_finite false m e) y eq_refl) as Hr.
  destruct (libm_pow _ y) as [ix er]. cbn [fst] in Hr.
  destruct (adjust_erange1 ix er); auto.
Qed.

End Pow.

Lemma add_int_int a b : py_add (Int a) (Int b) = Ok (Int (a + b)).
Proof. reflexivity. Qed.

Lemma add_float_float a b : py_add (Float a) (Float b) = Ok (Float (add a b)).
Proof. reflexivity. Qed.

Lemma mul_float_float a b : py_mul (Float a) (Float b) = Ok (Float (mul a b)).
Proof. reflexivity. Qed.

Lemma add_int_float a f :
  py_add (Int a) (Float f) = (x <- int_as_double a ;; Ok (Float (add x f))).
Proof. unfold py_add, coerced, as_double. now destruct (int_as_double a). Qed.

Lemma sub_float_int f a :
  py_sub (Float f) (Int a) = (x <- int_as_double a ;; Ok (Float (sub f x))).
Proof.
  unfold py_sub, coerced, as_double. cbn [bind]. now destruct (int_as_double a).
Qed.

Lemma truediv_int_float a f :
  py_truediv (Int a) (Float f) = (x <- int_as_double a ;; float_div x f).
Proof. unfold py_truediv, coerced, as_double. now destruct (int_as_double a). Qed.

End PyFacts.

(** ** The key formulas *)

Module FormulaFacts.

Import B64 Py KeyGenerator B64Facts PyFacts.
Local Open Scope py_scope.

Lemma truediv_int_int a b :
  py_truediv (Int a) (Int b) = (r <- Spec.quot a b ;; Ok (Float r)).
Proof.
  unfold py_truediv, long_true_divide, Spec.quot.
  destruct (b =? 0); [reflexivity|]. now destruct (is_inf _).
Qed.

Lemma py_round_float x : py_round (Float x) = Spec.rnd x.
Proof. reflexivity. Qed.

Lemma rnd_nonneg x z : nonneg x -> Spec.rnd x = Ok z -> 0 <= z.
Proof.
  unfold Spec.rnd. intros Hx. destruct (round_half_even x) eqn:E.
  - intros [= <-]. eauto using round_nonneg.
  - destruct (is_nan x); discriminate.
Qed.

Lemma rnd_benign x : benign (Spec.rnd x).
Proof.
  unfold Spec.rnd. destruct (round_half_even x); [exact I|].
  now destruct (is_nan x).
Qed.

Lemma quot_nonneg a b r : 0 <= a -> 0 < b -> Spec.quot a b = Ok r -> nonneg r.
Proof.
  unfold Spec.quot. intros Ha Hb. destruct (b =? 0); [discriminate|].
  destruct (Z.ltb_spec a 0); [lia|]. destruct (Z.ltb_spec b 0); [lia|].
  cbn [xorb]. destruct (is_inf _); [discriminate|].
  intros [= <-]. apply nonneg_of_ratio.
Qed.

Lemma quot_benign a b : b <> 0 -> benign (Spec.quot a b).
Proof.
  intros Hb. unfold Spec.quot. destruct (Z.eqb_spec b 0); [contradiction|].
  now destruct (is_inf _).
Qed.

Lemma e1_positive_from_2 day : 2 <= day <= 31 -> Spec.e1_positive day = true.
Proof.
  intros H.
  assert (E : forallb Spec.e1_positive (map Z.of_nat (seq 2 30)) = true)
    by (vm_compute; reflexivity).
  rewrite forallb_forall in E. apply E.
  apply in_map_iff. exists (Z.to_nat day). split; [lia|].
  apply in_seq. lia.
Qed.

Section Typed.

Variable libm_pow : float -> float -> float * errno.
Hypothesis Hpow : pow_nonneg libm_pow.

Lemma fpow_nonneg x y r : nonneg x -> Spec.fpow libm_pow x y = Ok r -> nonneg r.
Proof.
  intros Hx. unfold Spec.fpow.
  pose proof (float_pow_nonneg _ Hpow x y Hx) as H.
  destruct (float_pow libm_pow x y) as [[z|f|]|e];
    try discriminate; try contradiction.
  intros [= <-]. exact H.
Qed.

Lemma fpow_benign x y :
  nonneg x -> ltb y zero = false -> benign (Spec.fpow libm_pow x y).
Proof.
  intros Hx Hy. unfold Spec.fpow.
  pose proof (float_pow_nonneg _ Hpow x y Hx) as H.
  destruct (float_pow libm_pow x y) as [[z|f|]|[]]; cbn; auto.
  destruct H as [_ H]. congruence.
Qed.

(** A power of a non-negative base, seen from the typed side. *)
Lemma float_pow_fpow x y :
  nonneg x ->
  float_pow libm_pow x y = (r <- Spec.fpow libm_pow x y ;; Ok (Float r)).
Proof.
  intros Hx. unfold Spec.fpow.
  pose proof (float_pow_nonneg _ Hpow x y Hx) as H.
  destruct (float_pow libm_pow x y) as [[z|f|]|e];
    try contradiction; reflexivity.
Qed.

(** Rounding a power, whatever the base. *)
Lemma round_float_pow x y :
  (c <- float_pow libm_pow x y ;; py_round c)
  = (c <- Spec.fpow libm_pow x y ;; Spec.rnd c).
Proof.
  unfold Spec.fpow. pose proof (float_pow_not_int libm_pow x y) as H.
  destruct (float_pow libm_pow x y) as [[z|f|]|e]; try reflexivity.
  now elim (H z).
Qed.

(** A fractional power is never negative: a negative base gives a
    complex number, which [fpow] refuses. *)
Lemma fpow_frac_nonneg x y r :
  is_integer y = false -> Spec.fpow libm_pow x y = Ok r -> nonneg r.
Proof.
  intros Hy. destruct (ltb x zero) eqn:Hx; [|now apply fpow_nonneg].
  assert (Hodd : is_odd_integer y = false).
  { destruct (is_odd_integer y) eqn:E; [|reflexivity].
    apply odd_is_integer in E. congruence. }
  unfold Spec.fpow, float_pow. rewrite Hx, Hy, Hodd. cbn [andb negb].
  destruct (eqb y zero); [now intros [= <-]|].
  destruct (is_nan x) eqn:Hnan; [destruct x; discriminate|].
  destruct (is_nan y) eqn:Hnany.
  { destruct y; try discriminate. destruct (eqb x one); now intros [= <-]. }
  destruct (is_inf y) eqn:Hinfy.
  { destruct (eqb (SFabs x) one); [now intros [= <-]|].
    destruct (Bool.eqb _ _); [|now intros [= <-]].
    destruct y; try discriminate. now intros [= <-]. }
  destruct (is_inf x) eqn:Hinfx.
  { destruct x; try discriminate. destruct (ltb zero y); now intros [= <-]. }
  destruct (eqb x zero) eqn:Hz.
  { destruct x as [| | |[] ? ?]; discriminate. }
  discriminate.
Qed.

Lemma key0_typed d :
  0 <= day d ->
  KeyGenerator.key0_raw libm_pow d
  = (k0 <- Spec.key0_raw libm_pow d ;; Ok (Int k0)).
Proof.
  destruct d as [y m dd]. cbn [day]. intros Hd.
  unfold KeyGenerator.key0_raw, Spec.key0_raw, Spec.double.
  cbn [KeyGenerator.year KeyGenerator.month KeyGenerator.day].
  rewrite truediv_int_float, truediv_int_int, pow_int_float, !bind_assoc.
  destruct (int_as_double dd) as [df|e] eqn:Edf; [|reflexivity].
  assert (Hdf : nonneg df) by eauto using int_as_double_nonneg.
  cbn [bind]. unfold float_div. change (eqb f2_5 zero) with false. cbv iota.
  cbn [bind]. rewrite py_round_float.
  destruct (Spec.rnd (div df f2_5)) as [e1|e] eqn:E1; [|reflexivity].
  assert (He1 : 0 <= e1)
    by (eapply rnd_nonneg; [|exact E1]; apply nonneg_div_pos; exact Hdf).
  cbn [bind]. rewrite pow_int_int by exact He1.
  cbn [bind py_mul]. rewrite add_int_int. cbn [bind]. rewrite !bind_assoc.
  destruct (Spec.quot dd 2) as [h|e] eqn:Eh; [|reflexivity].
  cbn [bind]. rewrite py_round_float.
  destruct (Spec.rnd h) as [r1|e] eqn:E2; [|reflexivity].
  assert (Hr1 : 0 <= r1).
  { eapply rnd_nonneg; [|exact E2]. eapply quot_nonneg; [exact Hd| |exact Eh]. lia. }
  cbn [bind]. rewrite float_pow_fpow by exact Hdf. rewrite !bind_assoc.
  destruct (Spec.fpow libm_pow df f0_6) as [v1|e] eqn:Ev1; [|reflexivity].
  cbn [bind]. rewrite pow_float_float.
  rewrite float_pow_fpow by reflexivity. rewrite !bind_assoc.
  destruct (Spec.fpow libm_pow f0_5 v1) as [v2|e] eqn:Ev2; [|reflexivity].
  assert (Hv2 : nonneg v2) by (eapply fpow_nonneg; [|exact Ev2]; reflexivity).
  cbn [bind]. rewrite add_int_float, !bind_assoc.
  destruct (int_as_double (dd mod 3)) as [c|e] eqn:Ec; [|reflexivity].
  assert (Hc : nonneg c).
  { eapply int_as_double_nonneg; [|exact Ec]. apply Z.mod_pos_bound. lia. }
  cbn [bind]. rewrite py_round_float.
  destruct (Spec.rnd (add c v2)) as [r2|e] eqn:E3; [|reflexivity].
  assert (Hr2 : 0 <= r2) by (eapply rnd_nonneg; [|exact E3]; now apply nonneg_add).
  cbn [bind]. rewrite pow_int_int by lia. cbn [bind]. now rewrite add_int_int.
Qed.

Lemma key1_typed d k0 :
  KeyGenerator.key1_raw libm_pow d (Int k0) = Spec.key1_raw libm_pow d k0.
Proof.
  destruct d as [y m dd].
  unfold KeyGenerator.key1_raw, Spec.key1_raw, Spec.double.
  cbn [py_add py_sub bind KeyGenerator.month].
  rewrite pow_int_float, bind_assoc.
  destruct (int_as_double (k0 + 1 - m)) as [b|e]; [|reflexivity].
  cbn [bind]. apply round_float_pow.
Qed.

Lemma key2_typed d k0 k1 :
  0 <= month d -> 0 <= k1 ->
  KeyGenerator.key2_raw libm_pow d (Int k0) k1
  = Spec.key2_raw libm_pow d k0 k1.
Proof.
  destruct d as [y m dd]. cbn [month]. intros Hm Hk1.
  unfold KeyGenerator.key2_raw, Spec.key2_raw, Spec.double.
  cbn [KeyGenerator.year KeyGenerator.month KeyGenerator.day py_mul bind].
  rewrite pow_int_float, !bind_assoc.
  destruct (int_as_double k1) as [k|e] eqn:Ek; [|reflexivity].
  assert (Hk : nonneg k) by eauto using int_as_double_nonneg.
  cbn [bind]. rewrite float_pow_fpow by exact Hk. rewrite !bind_assoc.
  destruct (Spec.fpow libm_pow k f0_5) as [s|e]; [|reflexivity].
  cbn [bind]. rewrite add_int_float, !bind_assoc.
  replace (m + y - dd * 2) with (m + y - 2 * dd) by lia.
  destruct (int_as_double (k0 * (m + y - 2 * dd))) as [p|e]; [|reflexivity].
  cbn [bind]. rewrite pow_int_int by exact Hm. cbn [bind].
  rewrite sub_float_int, !bind_assoc.
  destruct (int_as_double (2 ^ m)) as [w|e]; [|reflexivity].
  reflexivity.
Qed.

Lemma key3_typed d k0 k1 k2 :
  0 <= month d -> 0 < k0 -> 0 <= k1 ->
  KeyGenerator.key3_raw libm_pow d (Int k0) k1 k2
  = Spec.key3_raw libm_pow d k0 k1 k2.
Proof.
  destruct d as [y m dd]. cbn [month]. intros Hm Hk0 Hk1.
  unfold KeyGenerator.key3_raw, Spec.key3_raw, Spec.double.
  cbn [KeyGenerator.year KeyGenerator.month KeyGenerator.day].
  rewrite !truediv_int_int, !bind_assoc.
  destruct (Spec.quot (k1 + k2) 2) as [b|e]; [|reflexivity].
  cbn [bind]. rewrite !bind_assoc.
  destruct (Spec.quot k1 k0) as [c|e] eqn:Ec; [|reflexivity].
  assert (Hc : nonneg c) by eauto using quot_nonneg.
  cbn [bind]. rewrite pow_float_int, !bind_assoc.
  destruct (int_as_double (dd + (m mod 3) mod 2)) as [n|e]; [|reflexivity].
  cbn [bind]. rewrite float_pow_fpow by exact Hc. rewrite !bind_assoc.
  destruct (Spec.fpow libm_pow c n) as [p|e]; [|reflexivity].
  cbn [bind]. rewrite add_float_float. cbn [bind].
  rewrite pow_int_float, !bind_assoc.
  destruct (int_as_double m) as [mf|e] eqn:Em; [|reflexivity].
  assert (Hmf : nonneg mf) by eauto using int_as_double_nonneg.
  cbn [bind]. rewrite float_pow_fpow by exact Hmf. rewrite !bind_assoc.
  destruct (Spec.fpow libm_pow mf f3_14) as [f|e]; [|reflexivity].
  cbn [bind]. now rewrite mul_float_float.
Qed.

Lemma key0_shape d k0 :
  valid_date d -> Spec.key0_raw libm_pow d = Ok k0 ->
  exists e1 e2,
    0 <= e1 /\ 0 <= e2 /\ (2 <= day d -> 1 <= e1) /\
    (day d = 1 -> e1 = 0) /\
    k0 = 2 * year d + 7 * month d ^ e1 + day d ^ e2.
Proof.
  destruct d as [y m dd]. unfold valid_date. cbn [year month day].
  intros (Hy & Hm & Hd). unfold Spec.key0_raw, Spec.double.
  destruct (int_as_double dd) as [df|e] eqn:Edf; [|discriminate].
  assert (Hdf : nonneg df) by (eapply int_as_double_nonneg; [|exact Edf]; lia).
  cbn [bind].
  destruct (Spec.rnd (div df f2_5)) as [e1|e] eqn:E1; [|discriminate].
  assert (He1 : 0 <= e1)
    by (eapply rnd_nonneg; [|exact E1]; apply nonneg_div_pos; exact Hdf).
  cbn [bind].
  destruct (Spec.quot dd 2) as [h|e] eqn:Eh; [|discriminate]. cbn [bind].
  destruct (Spec.rnd h) as [r1|e] eqn:E2; [|discriminate].
  assert (Hr1 : 0 <= r1).
  { eapply rnd_nonneg; [|exact E2]. eapply quot_nonneg; [| |exact Eh]; lia. }
  cbn [bind].
  destruct (Spec.fpow libm_pow df f0_6) as [v1|e] eqn:Ev1; [|discriminate].
  cbn [bind].
  destruct (Spec.fpow libm_pow f0_5 v1) as [v2|e] eqn:Ev2; [|discriminate].
  assert (Hv2 : nonneg v2) by (eapply fpow_nonneg; [|exact Ev2]; reflexivity).
  cbn [bind].
  destruct (int_as_double (dd mod 3)) as [c|e] eqn:Ec; [|discriminate].
  assert (Hc : nonneg c).
  { eapply int_as_double_nonneg; [|exact Ec]. apply Z.mod_pos_bound. lia. }
  cbn [bind].
  destruct (Spec.rnd (add c v2)) as [r2|e] eqn:E3; [|discriminate].
  assert (Hr2 : 0 <= r2) by (eapply rnd_nonneg; [|exact E3]; now apply nonneg_add).
  cbn [bind]. intros [= <-]. exists e1, (r1 + r2).
  repeat split; try lia.
  - intros H2.
    assert (E : Spec.e1_positive dd = true) by (apply e1_positive_from_2; lia).
    unfold Spec.e1_positive, Spec.double in E. rewrite Edf, E1 in E. lia.
  - intros ->.
    assert (Eone : int_as_double 1 = Ok one) by reflexivity.
    rewrite Eone in Edf. injection Edf as <-.
    assert (Ernd : Spec.rnd (div one f2_5) = Ok 0) by (vm_compute; reflexivity).
    congruence.
Qed.

(** [key0_raw] is at least [2 * year + 8], and above [month - 1] on
    every date but the first of November and of December of year 1. *)
Lemma key0_lower d k0 :
  valid_date d -> Spec.key0_raw libm_pow d = Ok k0 ->
  2 * year d + 8 <= k0 /\
  (~ (year d = 1 /\ 11 <= month d /\ day d = 1) -> month d - 1 < k0).
Proof.
  intros Hd H.
  destruct (key0_shape d k0 Hd H) as (e1 & e2 & He1 & He2 & Hpos & _ & ->).
  destruct Hd as (Hy & Hm & Hdd).
  assert (1 <= month d ^ e1) by (apply Z.lt_pred_le, Z.pow_pos_nonneg; lia).
  assert (1 <= day d ^ e2) by (apply Z.lt_pred_le, Z.pow_pos_nonneg; lia).
  split; [lia|]. intros Hsafe.
  destruct (Z.le_gt_cases 2 (day d)) as [Hge|Hlt]; [|lia].
  assert (month d ^ 1 <= month d ^ e1) by (apply Z.pow_le_mono_r; lia).
  rewrite Z.pow_1_r in *. lia.
Qed.

Lemma key1_nonneg d k0 k1 : Spec.key1_raw libm_pow d k0 = Ok k1 -> 0 <= k1.
Proof.
  destruct d as [y m dd]. unfold Spec.key1_raw, Spec.double.
  destruct (int_as_double _) as [b|e]; [|discriminate]. cbn [bind].
  destruct (Spec.fpow libm_pow b f0_8) as [c|e] eqn:Ec; [|discriminate].
  cbn [bind]. apply rnd_nonneg. eapply fpow_frac_nonneg; [|exact Ec].
  reflexivity.
Qed.

(** Steps 2 to 5: the source computes the typed formulas. *)
Lemma key_material_typed d :
  valid_date d ->
  KeyGenerator.key_material libm_pow d
  = ('(k0, k1, k2, k3) <- Spec.key_material libm_pow d ;;
     Ok (Int k0, k1, k2, k3)).
Proof.
  intros Hd. unfold KeyGenerator.key_material, Spec.key_material.
  assert (Hday : 0 <= day d) by (destruct Hd as (_ & _ & ?); lia).
  assert (Hmonth : 0 <= month d) by (destruct Hd as (_ & ? & _); lia).
  rewrite key0_typed by exact Hday. rewrite !bind_assoc.
  destruct (Spec.key0_raw libm_pow d) as [k0|e] eqn:E0; [|reflexivity].
  destruct (key0_lower d k0 Hd E0) as [Hk0 _].
  cbn [bind]. rewrite key1_typed.
  destruct (Spec.key1_raw libm_pow d k0) as [k1|e] eqn:E1; [|reflexivity].
  pose proof (key1_nonneg d k0 k1 E1) as Hk1.
  cbn [bind]. rewrite key2_typed by assumption.
  destruct (Spec.key2_raw libm_pow d k0 k1) as [k2|e] eqn:E2; [|reflexivity].
  cbn [bind]. rewrite key3_typed; try assumption.
  - destruct (Spec.key3_raw libm_pow d k0 k1 k2) as [k3|e] eqn:E3; reflexivity.
  - destruct Hd as (? & _ & _). lia.
Qed.

Lemma key0_benign d : valid_date d -> benign (Spec.key0_raw libm_pow d).
Proof.
  destruct d as [y m dd]. unfold valid_date. cbn [year month day].
  intros (Hy & Hm & Hd). unfold Spec.key0_raw, Spec.double.
  benign_step; [apply int_as_double_benign|].
  assert (Hdf : nonneg a) by (eapply int_as_double_nonneg; [|eassumption]; lia).
  benign_step; [apply rnd_benign|].
  benign_step; [apply quot_benign; lia|].
  benign_step; [apply rnd_benign|].
  benign_step; [apply fpow_benign; [exact Hdf|reflexivity]|].
  benign_step; [apply fpow_benign; [reflexivity|]|].
  { eapply fpow_nonneg; [|eassumption]. exact Hdf. }
  benign_step; [apply int_as_double_benign|].
  benign_step; [apply rnd_benign|]. exact I.
Qed.

Lemma key1_benign d k0 :
  month d - 1 < k0 -> benign (Spec.key1_raw libm_pow d k0).
Proof.
  destruct d as [y m dd]. cbn [month]. intros Hk0.
  unfold Spec.key1_raw, Spec.double.
  benign_step; [apply int_as_double_benign|].
  benign_step; [|apply rnd_benign].
  apply fpow_benign; [|reflexivity].
  eapply int_as_double_nonneg; [|eassumption]. lia.
Qed.

Lemma key2_benign d k0 k1 : 0 <= k1 -> benign (Spec.key2_raw libm_pow d k0 k1).
Proof.
  destruct d as [y m dd]. intros Hk1. unfold Spec.key2_raw, Spec.double.
  benign_step; [apply int_as_double_benign|].
  benign_step; [apply fpow_benign; [|reflexivity]|].
  { eapply int_as_double_nonneg; eassumption. }
  benign_step; [apply int_as_double_benign|].
  benign_step; [apply int_as_double_benign|]. apply rnd_benign.
Qed.

Lemma key3_benign d k0 k1 k2 :
  valid_date d -> 0 < k0 -> 0 <= k1 ->
  benign (Spec.key3_raw libm_pow d k0 k1 k2).
Proof.
  destruct d as [y m dd]. unfold valid_date. cbn [year month day].
  intros (Hy & Hm & Hd) Hk0 Hk1. unfold Spec.key3_raw, Spec.double.
  benign_step; [apply quot_benign; lia|].
  benign_step; [apply quot_benign; lia|].
  benign_step; [apply int_as_double_benign|].
  benign_step; [apply fpow_benign|].
  { eapply quot_nonneg; [| |eassumption]; lia. }
  { eapply int_as_double_nonneg; [|eassumption].
    pose proof (Z.mod_pos_bound (m mod 3) 2). lia. }
  benign_step; [apply int_as_double_benign|].
  benign_step; [apply fpow_benign; [|reflexivity]|apply rnd_benign].
  eapply int_as_double_nonneg; [|eassumption]. lia.
Qed.

Lemma key_material_benign d :
  valid_date d -> ~ (year d = 1 /\ 11 <= month d /\ day d = 1) ->
  benign (Spec.key_material libm_pow d).
Proof.
  intros Hd Hsafe. unfold Spec.key_material.
  benign_step; [now apply key0_benign|].
  destruct (key0_lower d a Hd H) as [Hlow Hbase]. specialize (Hbase Hsafe).
  benign_step; [now apply key1_benign|].
  pose proof (key1_nonneg d a a0 H0) as Hk1.
  benign_step; [now apply key2_benign|].
  benign_step; [|exact I].
  apply key3_benign; try assumption. destruct Hd as (? & _ & _). lia.
Qed.

(** On 1 December of year 1 the base of the 0.8 power is -1 on every host:
    [generate_keys] cannot return. *)
Lemma december_first_of_year_one km :
  KeyGenerator.key_material libm_pow (Date 1 12 1) <> Ok km.
Proof.
  assert (Hd : valid_date (Date 1 12 1)) by (unfold valid_date; cbn; lia).
  rewrite (key_material_typed _ Hd). unfold Spec.key_material.
  destruct (Spec.key0_raw libm_pow (Date 1 12 1)) as [k0|e] eqn:E0;
    [|discriminate].
  destruct (key0_shape _ k0 Hd E0) as (e1 & e2 & _ & He2 & _ & He1 & ->).
  rewrite (He1 eq_refl). cbn [year month day]. rewrite Z.pow_1_l by assumption.
  assert (E1 : Spec.key1_raw libm_pow (Date 1 12 1) (2 * 1 + 7 * 12 ^ 0 + 1)
               = Raise TypeError) by (vm_compute; reflexivity).
  cbn [bind]. rewrite E1. discriminate.
Qed.

End Typed.

End FormulaFacts.

(** ** The key formulas raise nothing

    With a [pow] that keeps the size of a power, every intermediate value
    of steps 2 to 5 stays far below the overflow threshold of binary64,
    so that no conversion, power or [round] fails. *)

Module TotalFacts.

Import B64 Py KeyGenerator B64Facts MagnitudeFacts PyFacts FormulaFacts.
Local Open Scope py_scope.

Lemma within_one k : 0 <= k -> within k one.
Proof.
  intros Hk. apply within_finite. change 4503599627370496 with (2 ^ 52).
  apply pow2_le. lia.
Qed.

Lemma nonneg_within_cases k x :
  nonneg x -> within k x ->
  (exists s, x = S754_zero s)
  \/ exists m e, x = S754_finite false m e /\ Zpos m <= 2 ^ (k - e) /\ e <= k.
Proof.
  intros Hn [[s ->]|(s & m & e & -> & H)]%within_cases; [left; eauto|].
  right. destruct s; [discriminate|]. eauto.
Qed.

Lemma rnd_within k x :
  within k x -> 0 <= k -> exists z, Spec.rnd x = Ok z /\ Z.abs z <= 2 ^ (k + 1).
Proof.
  intros Hx Hk. destruct (round_half_even_within k x Hx Hk) as (z & E & Hz).
  exists z. unfold Spec.rnd. now rewrite E.
Qed.

Lemma double_within z k :
  Z.abs z < 2 ^ k -> 0 <= k <= 971 ->
  Spec.double z = Ok (of_Z z) /\ within k (of_Z z).
Proof.
  intros Hz Hk. pose proof (of_Z_within z k Hz Hk) as Hw.
  unfold Spec.double, int_as_double. now rewrite (within_not_inf _ _ Hw).
Qed.

Lemma quot_within a b k :
  0 < b -> Z.abs a <= 2 ^ k * b -> 0 <= k -> k + 1 <= 971 ->
  exists f, Spec.quot a b = Ok f /\ within (k + 1) f.
Proof.
  intros Hb Ha Hk Hk1. unfold Spec.quot.
  destruct (Z.eqb_spec b 0); [lia|].
  assert (Hw : within (k + 1) (of_ratio (xorb (a <? 0) (b <? 0)) (Z.abs a) (Z.abs b))).
  { apply of_ratio_within; try lia. }
  rewrite (within_not_inf _ _ Hw). eauto.
Qed.

Section Total.

Variable libm_pow : float -> float -> float * errno.
Hypothesis Hpow : pow_nonneg libm_pow.
Hypothesis Hlarge : pow_of_large_base libm_pow.
Hypothesis Hsmall : pow_of_small_base libm_pow.

Lemma float_pow_positive m e my ey :
  float_pow libm_pow (S754_finite false m e) (S754_finite false my ey)
  = if eqb (S754_finite false m e) one then Ok (Float one)
    else
      let '(ix, er) := libm_pow (S754_finite false m e) (S754_finite false my ey) in
      match adjust_erange1 ix er with
      | ENONE => Ok (Float ix)
      | ERANGE => Raise OverflowError
      | EDOM => Raise (ValueError "math domain error")
      end.
Proof. reflexivity. Qed.

(** A non-negative base of at most [2^a] to a non-negative power of at
    most [2^b]: no error, and at most [2^(a * 2^b + 1)]. *)
Lemma fpow_total x y a b :
  nonneg x -> within a x -> nonneg y -> within b y ->
  0 <= a -> 0 <= b -> a * 2 ^ b <= 900 ->
  exists r, Spec.fpow libm_pow x y = Ok r /\ within (a * 2 ^ b + 1) r /\ nonneg r.
Proof.
  intros Hx Hxa Hy Hyb Ha Hb Hab.
  pose proof (pow2_pos b Hb) as Hpb.
  assert (HK : 0 <= a * 2 ^ b + 1) by nia.
  unfold Spec.fpow.
  destruct (nonneg_within_cases _ _ Hy Hyb) as [[sy ->]|(my & ey & -> & Hmy & Hey)].
  { exists one. split; [reflexivity|]. split; [now apply within_one|reflexivity]. }
  destruct (nonneg_within_cases _ _ Hx Hxa) as [[sx ->]|(m & e & -> & Hm & He)].
  { exists (S754_zero (if is_odd_integer (S754_finite false my ey) then sx else false)).
    split; [|split; [apply within_zero|now destruct (is_odd_integer _), sx]].
    unfold float_pow. cbn [eqb compare is_nan is_inf ltb zero].
    now destruct (is_odd_integer _). }
  rewrite float_pow_positive.
  destruct (eqb (S754_finite false m e) one).
  { exists one. split; [reflexivity|]. split; [now apply within_one|reflexivity]. }
  pose proof (Hpow (S754_finite false m e) (S754_finite false my ey) eq_refl) as Hnn.
  destruct (leb (S754_finite false m e) (pow2 0)) eqn:Hle.
  - destruct (Hsmall (S754_finite false m e) (S754_finite false my ey)
                eq_refl Hle eq_refl eq_refl) as [Hw Herr].
    destruct (libm_pow _ _) as [ix er]. cbn [fst snd] in *.
    exists ix.
    assert (E : adjust_erange1 ix er = ENONE).
    { destruct Herr as [->|[-> Hz]]; cbn [adjust_erange1].
      - now rewrite (within_not_inf _ _ Hw).
      - now rewrite Hz. }
    rewrite E. split; [reflexivity|]. split; [|exact Hnn].
    apply within_mono with 0; [lia|exact Hw].
  - assert (Hr : reaches 0 (S754_finite false m e)).
    { apply reaches_finite.
      destruct (Z.le_gt_cases (2 ^ (0 - e)) (Zpos m)) as [H|H]; [exact H|].
      assert (leb (S754_finite false m e) (pow2 0) = true)
        by (apply leb_pow2_iff; lia). congruence. }
    destruct (Hlarge (S754_finite false m e) (S754_finite false my ey) a b
                Ha Hb Hab Hr Hxa eq_refl Hyb) as [Herr Hw].
    destruct (libm_pow _ _) as [ix er]. cbn [fst snd] in *. subst er.
    exists ix. cbn [adjust_erange1]. rewrite (within_not_inf _ _ Hw).
    split; [reflexivity|]. split; [exact Hw|exact Hnn].
Qed.


(** The two exponents of step 2 that do not involve a power. *)
Lemma day_table day :
  1 <= day <= 31 ->
  exists e1 r1,
    Spec.rnd (div (of_Z day) f2_5) = Ok e1
    /\ (h <- Spec.quot day 2 ;; Spec.rnd h) = Ok r1
    /\ 0 <= e1 <= 12 /\ 0 <= r1 <= 16.
Proof.
  intros Hd.
  assert (E : forallb Spec.day_steps_small (map Z.of_nat (seq 1 31)) = true)
    by (vm_compute; reflexivity).
  rewrite forallb_forall in E.
  specialize (E day). unfold Spec.day_steps_small in E.
  destruct (Spec.rnd (div (of_Z day) f2_5)) as [e1|];
    destruct (h <- Spec.quot day 2 ;; Spec.rnd h) as [r1|];
    try (exfalso; assert (false = true); [apply E|discriminate]);
    try (rewrite <- (Z2Nat.id day) by lia; apply in_map, in_seq; lia).
  exists e1, r1. split; [reflexivity|]. split; [reflexivity|].
  assert (H : (0 <=? e1) && (e1 <=? 12) && (0 <=? r1) && (r1 <=? 16) = true).
  { apply E. rewrite <- (Z2Nat.id day) by lia. apply in_map, in_seq. lia. }
  apply andb_prop in H as [[[H1 H2]%andb_prop H3]%andb_prop H4]. lia.
Qed.

Lemma key0_total d :
  calendar_date d ->
  exists k0, Spec.key0_raw libm_pow d = Ok k0 /\ k0 < 2 ^ 250.
Proof.
  destruct d as [y m dd]. unfold calendar_date, valid_date. cbn [year month day].
  intros ((Hy & Hm & Hd) & Hmax). unfold Spec.key0_raw.
  destruct (double_within dd 5 ltac:(change (2 ^ 5) with 32; lia) ltac:(lia))
    as [-> Hdf].
  cbn [bind].
  destruct (day_table dd Hd) as (e1 & r1 & -> & E2 & He1 & Hr1). cbn [bind].
  destruct (Spec.quot dd 2) as [h|]; [|discriminate]. cbn [bind] in E2 |- *.
  rewrite E2. cbn [bind].
  destruct (fpow_total (of_Z dd) f0_6 5 0 (nonneg_of_Z dd ltac:(lia)) Hdf
              eq_refl eq_refl ltac:(lia) ltac:(lia) ltac:(cbn; lia))
    as (v1 & -> & Hv1 & Hv1n).
  cbn [bind].
  destruct (fpow_total f0_5 v1 0 6 eq_refl eq_refl Hv1n Hv1
              ltac:(lia) ltac:(lia) ltac:(cbn; lia))
    as (v2 & -> & Hv2 & Hv2n).
  cbn [bind].
  pose proof (Z.mod_pos_bound dd 3 ltac:(lia)) as Hmod.
  destruct (double_within (dd mod 3) 2 ltac:(change (2 ^ 2) with 4; lia) ltac:(lia))
    as [-> Hc].
  cbn [bind].
  assert (Hs : within 4 (add (of_Z (dd mod 3)) v2)).
  { apply (add_within 2); try lia; [exact Hc|].
    apply within_mono with (0 * 2 ^ 6 + 1); [lia|exact Hv2]. }
  destruct (rnd_within 4 _ Hs ltac:(lia)) as (r2 & E3 & Hr2).
  assert (0 <= r2).
  { eapply rnd_nonneg; [|exact E3]. apply nonneg_add; [apply nonneg_of_Z; lia|exact Hv2n]. }
  rewrite E3. cbn [bind]. eexists. split; [reflexivity|].
  change (2 ^ (4 + 1)) with 32 in Hr2.
  assert (m ^ e1 <= 12 ^ 12).
  { transitivity (12 ^ e1); [apply Z.pow_le_mono_l; lia|apply Z.pow_le_mono_r; lia]. }
  assert (dd ^ (r1 + r2) <= 31 ^ 48).
  { transitivity (31 ^ (r1 + r2));
      [apply Z.pow_le_mono_l; lia|apply Z.pow_le_mono_r; lia]. }
  apply Z.le_lt_trans with (2 * 9999 + 7 * 12 ^ 12 + 31 ^ 48); [lia|reflexivity].
Qed.

Lemma key1_total d k0 :
  0 <= k0 + 1 - month d < 2 ^ 251 ->
  exists k1, Spec.key1_raw libm_pow d k0 = Ok k1
             /\ 0 <= k1 <= 8 * (k0 + 1 - month d) + 4.
Proof.
  destruct d as [y m dd]. cbn [month]. set (B := k0 + 1 - m). intros HB.
  unfold Spec.key1_raw. fold B.
  assert (exists ka, 0 <= ka <= 251 /\ B < 2 ^ ka /\ 2 ^ ka <= 2 * B + 1)
    as (ka & Hka & Hlt & Hge).
  { destruct (Z.eq_dec B 0) as [->|Hnz].
    - exists 0. cbn. lia.
    - exists (Z.log2 B + 1). pose proof (Z.log2_spec B ltac:(lia)) as [H1 H2].
      pose proof (Z.log2_nonneg B).
      replace (Z.succ (Z.log2 B)) with (Z.log2 B + 1) in H2 by lia.
      split; [|split; [exact H2|]].
      + assert (Z.log2 B < 251) by (apply Z.log2_lt_pow2; lia). lia.
      + rewrite Z.add_comm, pow2_split by lia. change (2 ^ 1) with 2. lia. }
  destruct (double_within B ka ltac:(lia) ltac:(lia)) as [-> Hb]. cbn [bind].
  destruct (fpow_total (of_Z B) f0_8 ka 0 (nonneg_of_Z B ltac:(lia)) Hb
              eq_refl eq_refl ltac:(lia) ltac:(lia)
              ltac:(change (2 ^ 0) with 1; lia))
    as (c & -> & Hc & Hcn).
  cbn [bind]. change (2 ^ 0) with 1 in Hc. rewrite Z.mul_1_r in Hc.
  destruct (rnd_within (ka + 1) c Hc ltac:(lia)) as (k1 & E & Hk1).
  exists k1. split; [exact E|].
  assert (0 <= k1) by (eapply rnd_nonneg; [exact Hcn|exact E]).
  replace (ka + 1 + 1) with (2 + ka) in Hk1 by lia.
  rewrite pow2_split in Hk1 by lia. change (2 ^ 2) with 4 in Hk1.
  destruct (Z.eq_dec B 0) as [E0|Hnz]; [|lia].
  assert (ka = 0).
  { destruct (Z.eq_dec ka 0); [assumption|].
    assert (2 ^ 1 <= 2 ^ ka) by (apply pow2_le; lia). change (2 ^ 1) with 2 in *. lia. }
  subst ka. change (2 ^ 0) with 1 in Hk1. lia.
Qed.

Lemma key2_total d k0 k1 :
  calendar_date d -> Z.abs k0 < 2 ^ 250 -> 0 <= k1 < 2 ^ 255 ->
  exists k2, Spec.key2_raw libm_pow d k0 k1 = Ok k2 /\ Z.abs k2 <= 2 ^ 269.
Proof.
  destruct d as [y m dd]. unfold calendar_date, valid_date. cbn [year month day].
  intros ((Hy & Hm & Hd) & Hmax) Hk0 Hk1. unfold Spec.key2_raw.
  destruct (double_within k1 255 ltac:(lia) ltac:(lia)) as [-> Hk]. cbn [bind].
  destruct (fpow_total (of_Z k1) f0_5 255 0 (nonneg_of_Z k1 ltac:(lia)) Hk
              eq_refl eq_refl ltac:(lia) ltac:(lia) ltac:(cbn; lia))
    as (s & -> & Hs & Hsn).
  cbn [bind]. change (255 * 2 ^ 0 + 1) with 256 in Hs.
  assert (Hprod : Z.abs (k0 * (m + y - 2 * dd)) < 2 ^ 264).
  { rewrite Z.abs_mul. change (2 ^ 264) with (2 ^ 250 * 2 ^ 14).
    assert (Z.abs (m + y - 2 * dd) < 2 ^ 14) by (change (2 ^ 14) with 16384; lia).
    assert (0 < 2 ^ 250) by reflexivity. nia. }
  destruct (double_within _ 264 Hprod ltac:(lia)) as [-> Hp]. cbn [bind].
  assert (Hw2 : Z.abs (2 ^ m) < 2 ^ 13).
  { assert (0 < 2 ^ m) by (apply pow2_pos; lia).
    assert (2 ^ m <= 2 ^ 12) by (apply pow2_le; lia).
    change (2 ^ 12) with 4096 in *. change (2 ^ 13) with 8192. lia. }
  destruct (double_within _ 13 Hw2 ltac:(lia)) as [-> Hw]. cbn [bind].
  assert (Ha : within 266 (add (of_Z (k0 * (m + y - 2 * dd))) s)).
  { apply (add_within 264); try lia; [exact Hp|].
    apply within_mono with 256; [lia|exact Hs]. }
  assert (Hx : within 268 (sub (add (of_Z (k0 * (m + y - 2 * dd))) s) (of_Z (2 ^ m)))).
  { apply (sub_within 266); try lia; [exact Ha|].
    apply within_mono with 13; [lia|exact Hw]. }
  destruct (rnd_within 268 _ Hx ltac:(lia)) as (k2 & E & Hk2). eauto.
Qed.

Lemma key3_total d k0 k1 k2 :
  calendar_date d -> 1 <= k0 -> 0 <= k1 <= 16 * k0 -> k1 < 2 ^ 255 ->
  Z.abs k2 <= 2 ^ 269 ->
  exists k3, Spec.key3_raw libm_pow d k0 k1 k2 = Ok k3.
Proof.
  destruct d as [y m dd]. unfold calendar_date, valid_date. cbn [year month day].
  intros ((Hy & Hm & Hd) & Hmax) Hk0 Hk1 Hk1' Hk2. unfold Spec.key3_raw.
  assert (Hsum : Z.abs (k1 + k2) <= 2 ^ 269 * 2).
  { assert (2 ^ 255 <= 2 ^ 269) by (apply pow2_le; lia). lia. }
  destruct (quot_within (k1 + k2) 2 269 ltac:(lia) Hsum ltac:(lia) ltac:(lia))
    as (b & -> & Hb).
  cbn [bind].
  destruct (quot_within k1 k0 4 ltac:(lia) ltac:(change (2 ^ 4) with 16; lia)
              ltac:(lia) ltac:(lia)) as (c & Ec & Hc).
  assert (Hcn : nonneg c) by (eapply quot_nonneg; [| |exact Ec]; lia).
  rewrite Ec. cbn [bind].
  pose proof (Z.mod_pos_bound (m mod 3) 2 ltac:(lia)) as Hmod.
  destruct (double_within (dd + (m mod 3) mod 2) 6
              ltac:(change (2 ^ 6) with 64; lia) ltac:(lia)) as [-> Hn].
  cbn [bind].
  destruct (fpow_total c (of_Z (dd + (m mod 3) mod 2)) 5 6 Hcn Hc
              (nonneg_of_Z (dd + (m mod 3) mod 2) ltac:(lia)) Hn
              ltac:(lia) ltac:(lia) ltac:(cbn; lia))
    as (p & -> & Hp & Hpn).
  cbn [bind]. change (5 * 2 ^ 6 + 1) with 321 in Hp.
  destruct (double_within m 4 ltac:(change (2 ^ 4) with 16; lia) ltac:(lia))
    as [-> Hmf].
  cbn [bind].
  destruct (fpow_total (of_Z m) f3_14 4 2 (nonneg_of_Z m ltac:(lia)) Hmf
              eq_refl eq_refl ltac:(lia) ltac:(lia) ltac:(cbn; lia))
    as (f & -> & Hf & Hfn).
  cbn [bind]. change (4 * 2 ^ 2 + 1) with 17 in Hf.
  assert (Ha : within 323 (add b p)).
  { apply (add_within 321); try lia; [|exact Hp].
    apply within_mono with (269 + 1); [lia|exact Hb]. }
  assert (Hg : within 341 (mul (add b p) f)).
  { apply (mul_within 323 17); [exact Ha|exact Hf|lia]. }
  destruct (rnd_within 341 _ Hg ltac:(lia)) as (k3 & E & _). eauto.
Qed.

(** Steps 2 to 5 raise nothing on a calendar date other than the first of
    December of year 1. *)
Lemma key_material_total d :
  calendar_date d -> ~ (year d = 1 /\ month d = 12 /\ day d = 1) ->
  exists k0 k1 k2 k3, Spec.key_material libm_pow d = Ok (k0, k1, k2, k3).
Proof.
  intros Hd Hsafe. pose proof Hd as [Hv Hmax]. unfold Spec.key_material.
  destruct (key0_total d Hd) as (k0 & E0 & Hk0).
  destruct (key0_lower libm_pow Hpow d k0 Hv E0) as [Hlow Hmonth].
  pose proof Hv as (Hy & Hm & Hdd).
  assert (HB : 0 <= k0 + 1 - month d).
  { destruct (Z.eq_dec (year d) 1) as [Ey|Ey]; [|lia].
    destruct (Z.eq_dec (day d) 1) as [Ed|Ed]; [|].
    - destruct (Z.eq_dec (month d) 12) as [Em|Em]; [tauto|lia].
    - assert (month d - 1 < k0) by (apply Hmonth; lia). lia. }
  rewrite E0. cbn [bind].
  assert (2 ^ 250 < 2 ^ 251) by reflexivity.
  destruct (key1_total d k0 ltac:(lia)) as (k1 & E1 & Hk1).
  rewrite E1. cbn [bind].
  assert (2 ^ 255 = 16 * 2 ^ 251) by reflexivity.
  destruct (key2_total d k0 k1 Hd ltac:(lia) ltac:(lia)) as (k2 & E2 & Hk2).
  rewrite E2. cbn [bind].
  destruct (key3_total d k0 k1 k2 Hd ltac:(lia) ltac:(lia) ltac:(lia) Hk2)
    as (k3 & E3).
  rewrite E3. cbn [bind]. eauto.
Qed.

End Total.

End TotalFacts.

(** ** The reference host *)

Module RefFacts.

Import B64 Py B64Facts.

Lemma roots_nonneg : Forall (fun r => 0 <= r) RefLibm.roots.
Proof.
  apply Forall_forall. intros r Hr.
  assert (E : forallb (Z.leb 0) RefLibm.roots = true) by (vm_compute; reflexivity).
  rewrite forallb_forall in E. apply Z.leb_le. now apply E.
Qed.

Lemma exp2_bits_nonneg rs :
  Forall (fun r => 0 <= r) rs ->
  forall i f acc, 0 <= acc -> 0 <= RefLibm.exp2_bits rs i f acc.
Proof.
  induction 1 as [|r rs Hr _ IH]; intros i f acc Hacc;
    cbn [RefLibm.exp2_bits]; [exact Hacc|].
  apply IH. destruct (Z.testbit f (i - 1)); [|exact Hacc].
  unfold RefLibm.fx_mul. rewrite Z.shiftr_nonneg. now apply Z.mul_nonneg_nonneg.
Qed.

(** The reference [pow] meets the assumption made on C's. *)
Lemma ref_pow_nonneg : pow_nonneg RefLibm.pow.
Proof.
  intros x y _. unfold RefLibm.pow.
  destruct x as [| | |[] mx ex]; destruct y as [| | |sy my ey]; try reflexivity.
  destruct (1100 <? _); [reflexivity|].
  destruct (_ <? -1200); [reflexivity|].
  cbn [fst]. apply nonneg_normalize.
  apply exp2_bits_nonneg; [exact roots_nonneg|]. unfold RefLibm.fx_one. lia.
Qed.

Example sha256_abc :
  Sha256.hexdigest "abc"
  = "ba7816bf8f01cfea414140de5dae2223b00361a396177a9cb410ff61f20015ad"%string.
Proof. vm_compute. reflexivity. Qed.

Example sha256_empty :
  Sha256.hexdigest ""
  = "e3b0c44298fc1c149afbf4c8996fb92427ae41e4649b934ca495991b7852b855"%string.
Proof. vm_compute. reflexivity. Qed.

End RefFacts.

(** ** The reference [pow] keeps the size of a power *)

Module RefPowFacts.

Import B64 Py RefLibm MagnitudeFacts.

Lemma fx_one_pos : 0 < fx_one.
Proof. reflexivity. Qed.

Lemma fx_mul_mono a a' r : 0 <= r -> a <= a' -> fx_mul a r <= fx_mul a' r.
Proof.
  intros Hr H. unfold fx_mul. rewrite !Z.shiftr_div_pow2 by (unfold P; lia).
  apply Z.div_le_mono; [apply pow2_pos; unfold P; lia|nia].
Qed.

Lemma fx_mul_grows a r : 0 <= a -> fx_one <= r -> a <= fx_mul a r.
Proof.
  intros Ha Hr. unfold fx_mul. rewrite Z.shiftr_div_pow2 by (unfold P; lia).
  apply Z.div_le_lower_bound; [apply pow2_pos; unfold P; lia|].
  fold fx_one. nia.
Qed.

Lemma fold_fx_mul_mono rs : forall a a',
  Forall (fun r => fx_one <= r) rs -> a <= a' ->
  fold_left fx_mul rs a <= fold_left fx_mul rs a'.
Proof.
  induction rs as [|r rs IH]; intros a a' Hrs H; cbn [fold_left]; [assumption|].
  inversion Hrs as [|? ? Hr Hrs']; subst. apply IH; [assumption|].
  apply fx_mul_mono; [pose proof fx_one_pos; lia|assumption].
Qed.

Lemma exp2_bits_bounds rs : forall i f acc,
  Forall (fun r => fx_one <= r) rs -> 0 <= acc ->
  acc <= exp2_bits rs i f acc <= fold_left fx_mul rs acc.
Proof.
  induction rs as [|r rs IH]; intros i f acc Hrs Hacc; cbn [exp2_bits fold_left];
    [lia|].
  inversion Hrs as [|? ? Hr Hrs']; subst.
  pose proof (fx_mul_grows acc r Hacc Hr) as Hg.
  destruct (Z.testbit f (i - 1)).
  - specialize (IH (i - 1) f (fx_mul acc r) Hrs' ltac:(lia)). lia.
  - specialize (IH (i - 1) f acc Hrs' Hacc).
    pose proof (fold_fx_mul_mono rs acc (fx_mul acc r) Hrs' Hg). lia.
Qed.

Lemma roots_above_one : Forall (fun r => fx_one <= r) roots.
Proof.
  apply Forall_forall. intros r Hr.
  assert (E : forallb (fun r => fx_one <=? r) roots = true) by (vm_compute; reflexivity).
  rewrite forallb_forall in E. apply Z.leb_le. now apply E.
Qed.

Lemma roots_product : fold_left fx_mul roots fx_one < 2 * fx_one.
Proof. vm_compute. reflexivity. Qed.

(** The fixed-point exponential stays in [1, 2). *)
Lemma exp2_range f :
  fx_one <= exp2_bits roots (Z.of_nat N) f fx_one < 2 * fx_one.
Proof.
  pose proof (exp2_bits_bounds roots (Z.of_nat N) f fx_one roots_above_one
                ltac:(pose proof fx_one_pos; lia)).
  pose proof roots_product. lia.
Qed.

Lemma exp2_bits_zero rs : forall i acc, exp2_bits rs i 0 acc = acc.
Proof.
  induction rs as [|r rs IH]; intros i acc; cbn [exp2_bits]; [reflexivity|].
  rewrite Z.testbit_0_l. apply IH.
Qed.

Lemma log2_bits_bounds n : forall t acc,
  0 <= acc ->
  acc * 2 ^ Z.of_nat n <= log2_bits n t acc < (acc + 1) * 2 ^ Z.of_nat n.
Proof.
  induction n as [|n IH]; intros t acc Hacc; cbn [log2_bits].
  - change (2 ^ Z.of_nat 0) with 1. lia.
  - rewrite Nat2Z.inj_succ. replace (Z.succ (Z.of_nat n)) with (1 + Z.of_nat n) by lia.
    rewrite pow2_split by lia. change (2 ^ 1) with 2.
    pose proof (pow2_pos (Z.of_nat n) ltac:(lia)).
    destruct (2 * fx_one <=? fx_mul t t).
    + specialize (IH (Z.shiftr (fx_mul t t) 1) (2 * acc + 1) ltac:(lia)). nia.
    + specialize (IH (fx_mul t t) (2 * acc) ltac:(lia)). nia.
Qed.

Lemma log2_bits_one n : forall acc, log2_bits n fx_one acc = acc * 2 ^ Z.of_nat n.
Proof.
  induction n as [|n IH]; intros acc; cbn [log2_bits].
  - change (2 ^ Z.of_nat 0) with 1. lia.
  - replace (fx_mul fx_one fx_one) with fx_one by (vm_compute; reflexivity).
    replace (2 * fx_one <=? fx_one) with false by (vm_compute; reflexivity).
    rewrite IH, Nat2Z.inj_succ.
    replace (Z.succ (Z.of_nat n)) with (1 + Z.of_nat n) by lia.
    rewrite pow2_split by lia. change (2 ^ 1) with 2. ring.
Qed.

(** The scaled mantissa of a power of two is the fixed-point one. *)
Lemma scaled_power_of_two d :
  1 <= d -> Z.shiftl (2 ^ (d - 1)) (P - (d - 1)) = fx_one.
Proof.
  intros Hd. unfold fx_one. destruct (Z.le_gt_cases (d - 1) P).
  - rewrite shiftl_pos_mul by lia. rewrite <- pow2_split by lia. f_equal. lia.
  - rewrite Z.shiftl_div_pow2 by lia.
    replace (d - 1) with (P + (d - 1 - P)) at 1 by lia.
    rewrite pow2_split by (unfold P in *; lia).
    replace (- (P - (d - 1))) with (d - 1 - P) by lia.
    apply Z.div_mul. pose proof (pow2_pos (d - 1 - P) ltac:(lia)). lia.
Qed.

Lemma lg_bounds mx ex :
  let E := ex + Zdigits2 (Zpos mx) - 1 in
  E * 2 ^ Z.of_nat N <= lg mx ex < (E + 1) * 2 ^ Z.of_nat N.
Proof.
  intros E. unfold lg. fold E.
  pose proof (log2_bits_bounds N (Z.shiftl (Zpos mx) (P - (Zdigits2 (Zpos mx) - 1))) 0
                ltac:(lia)). lia.
Qed.

Lemma lg_power_of_two mx ex :
  Zpos mx = 2 ^ (Zdigits2 (Zpos mx) - 1) ->
  lg mx ex = (ex + Zdigits2 (Zpos mx) - 1) * 2 ^ Z.of_nat N.
Proof.
  intros H.
  assert (E : Z.shiftl (Zpos mx) (P - (Zdigits2 (Zpos mx) - 1)) = fx_one).
  { assert (Hd : 1 <= Zdigits2 (Zpos mx)) by (cbn; lia).
    revert H Hd. generalize (Zdigits2 (Zpos mx)). intros d -> Hd.
    now apply scaled_power_of_two. }
  unfold lg. cbv zeta. rewrite E, log2_bits_one. lia.
Qed.

(** [1 <= x <= 2^a] bounds the logarithm by [0] and [a]. *)
Lemma lg_large mx ex a :
  2 ^ (0 - ex) <= Zpos mx -> Zpos mx <= 2 ^ (a - ex) ->
  0 <= lg mx ex <= a * 2 ^ Z.of_nat N.
Proof.
  intros Hlo Hhi. pose proof (lg_bounds mx ex) as Hb. cbn zeta in Hb.
  pose proof (digits_bounds mx) as [Hd1 Hd2]. cbn [Zdigits2] in *.
  set (d := Zpos (digits2_pos mx)) in *.
  pose proof (pow2_pos (Z.of_nat N) ltac:(lia)) as HN.
  assert (0 <= ex + d - 1).
  { destruct (Z.lt_ge_cases (ex + d - 1) 0); [|assumption].
    assert (2 ^ d <= 2 ^ (0 - ex)) by (apply pow2_le; lia). lia. }
  assert (ex + d - 1 <= a).
  { destruct (Z.le_gt_cases (ex + d - 1) a); [assumption|].
    assert (2 ^ (a - ex + 1) <= 2 ^ (d - 1)) by (apply pow2_le; lia).
    assert (0 <= a - ex).
    { destruct (Z.lt_ge_cases (a - ex) 0); [|assumption]. rewrite pow2_neg in Hhi; lia. }
    rewrite Z.add_comm, pow2_split in H1 by lia. change (2 ^ 1) with 2 in H1.
    pose proof (pow2_pos (a - ex) ltac:(lia)). lia. }
  split; [nia|].
  destruct (Z.eq_dec (ex + d - 1) a) as [Ea|Ea].
  - rewrite lg_power_of_two.
    + cbn [Zdigits2]. fold d. nia.
    + cbn [Zdigits2]. fold d. replace (a - ex) with (d - 1) in Hhi by lia. lia.
  - nia.
Qed.

(** [x <= 1]: the logarithm is zero at one and negative below. *)
Lemma lg_small mx ex :
  Zpos mx <= 2 ^ (0 - ex) ->
  lg mx ex = 0 /\ Zpos mx = 2 ^ (0 - ex) \/ lg mx ex <= -1.
Proof.
  intros Hhi. pose proof (lg_bounds mx ex) as Hb. cbn zeta in Hb.
  pose proof (digits_bounds mx) as [Hd1 Hd2]. cbn [Zdigits2] in *.
  set (d := Zpos (digits2_pos mx)) in *.
  pose proof (pow2_pos (Z.of_nat N) ltac:(lia)) as HN.
  assert (ex + d - 1 <= 0).
  { destruct (Z.le_gt_cases (ex + d - 1) 0); [assumption|].
    assert (0 <= 0 - ex).
    { destruct (Z.lt_ge_cases (0 - ex) 0); [|assumption]. rewrite pow2_neg in Hhi; lia. }
    assert (2 ^ (0 - ex + 1) <= 2 ^ (d - 1)) by (apply pow2_le; lia).
    rewrite Z.add_comm, pow2_split in H1 by lia. change (2 ^ 1) with 2 in H1.
    pose proof (pow2_pos (0 - ex) ltac:(lia)). lia. }
  destruct (Z.eq_dec (ex + d - 1) 0) as [E0|E0].
  - left. replace (0 - ex) with (d - 1) in * by lia.
    assert (Zpos mx = 2 ^ (d - 1)) by lia. split; [|assumption].
    rewrite lg_power_of_two; cbn [Zdigits2]; fold d; [|assumption].
    rewrite E0. lia.
  - right. nia.
Qed.

Lemma pow_finite mx ex my ey :
  pow (S754_finite false mx ex) (S754_finite false my ey) =
  let l := Z.shiftl (lg mx ex * Zpos my) ey in
  let i := Z.shiftr l (Z.of_nat N) in
  let f := Z.land l (Z.ones (Z.of_nat N)) in
  if 1100 <? i then (S754_infinity false, ERANGE)
  else if i <? -1200 then (S754_zero false, ERANGE)
  else let r := exp2_bits roots (Z.of_nat N) f fx_one in
       let v := binary_normalize prec emax r (i - P) false in
       (v, if is_inf v || is_zero v then ERANGE else ENONE).
Proof. reflexivity. Qed.

Lemma shiftl_nonneg_bound L my ey c b :
  0 <= L <= c -> Zpos my <= 2 ^ (b - ey) -> ey <= b -> 0 <= b ->
  0 <= Z.shiftl (L * Zpos my) ey <= c * 2 ^ b.
Proof.
  intros HL Hm He Hb. pose proof (pow2_pos (b - ey) ltac:(lia)) as Hp.
  destruct (Z.le_gt_cases 0 ey).
  - rewrite shiftl_pos_mul by assumption. pose proof (pow2_pos ey ltac:(lia)).
    assert (2 ^ b = 2 ^ (b - ey) * 2 ^ ey) as ->.
    { rewrite <- pow2_split by lia. f_equal. lia. }
    split; [nia|]. 
    assert (L * Zpos my <= c * 2 ^ (b - ey)) by nia. nia.
  - rewrite Z.shiftl_div_pow2 by lia. pose proof (pow2_pos (- ey) ltac:(lia)).
    split; [apply Z.div_pos; nia|].
    apply Z.div_le_upper_bound; [assumption|].
    assert (2 ^ (b - ey) = 2 ^ (- ey) * 2 ^ b) as E.
    { rewrite <- pow2_split by lia. f_equal. lia. }
    rewrite E in Hm. pose proof (pow2_pos b Hb). nia.
Qed.

Lemma shiftl_negative L my ey : L <= -1 -> Z.shiftl (L * Zpos my) ey <= -1.
Proof.
  intros HL. destruct (Z.le_gt_cases 0 ey).
  - rewrite shiftl_pos_mul by assumption. pose proof (pow2_pos ey ltac:(lia)). nia.
  - rewrite Z.shiftl_div_pow2 by lia. pose proof (pow2_pos (- ey) ltac:(lia)).
    assert (L * Zpos my / 2 ^ (- ey) < 0); [|lia].
    apply Z.div_lt_upper_bound; [assumption|]. nia.
Qed.

Lemma reaches_not_zero j x : reaches j x -> is_zero x = false.
Proof. now destruct x. Qed.

Lemma exp2_within f i k :
  i + 1 <= k -> -1074 <= k <= 971 ->
  within k (binary_normalize prec emax (exp2_bits roots (Z.of_nat N) f fx_one)
              (i - P) false).
Proof.
  intros Hi Hk. pose proof (exp2_range f) as [Hlo Hhi]. pose proof fx_one_pos.
  apply normalize_within; [|assumption].
  assert (2 * fx_one <= 2 ^ (k - (i - P))); [|lia].
  change (2 * fx_one) with (2 ^ (P + 1)). apply pow2_le. lia.
Qed.

Lemma exp2_reaches f i :
  -1074 <= i ->
  reaches i (binary_normalize prec emax (exp2_bits roots (Z.of_nat N) f fx_one)
               (i - P) false).
Proof.
  intros Hi. pose proof (exp2_range f) as [Hlo Hhi]. pose proof fx_one_pos.
  apply normalize_reaches; [lia| |assumption].
  replace (i - (i - P)) with P by lia. exact Hlo.
Qed.

Lemma positive_cases x :
  ltb zero x = true -> x = S754_infinity false \/ exists m e, x = S754_finite false m e.
Proof.
  destruct x as [s|[|]| |[|] m e]; try discriminate; eauto.
Qed.

Lemma reaches_cases j x :
  reaches j x ->
  x = S754_infinity false
  \/ exists m e, x = S754_finite false m e /\ 2 ^ (j - e) <= Zpos m.
Proof.
  destruct x as [s|[|]| |[|] m e]; try discriminate; auto.
  intros H%reaches_finite. right. eauto.
Qed.

(** The reference [pow] on a base of at least one. *)
Lemma ref_pow_of_large_base : pow_of_large_base pow.
Proof.
  intros x y a b Ha Hb Hab Hx1 Hxa Hy0 Hyb.
  destruct (reaches_cases _ _ Hx1) as [->|(mx & ex & -> & Hlo)]; [discriminate|].
  apply within_finite in Hxa.
  destruct (positive_cases _ Hy0) as [->|(my & ey & ->)]; [discriminate|].
  destruct (within_cases _ _ Hyb) as [[s E]|(s & m & e & E & Hmy & Hey)];
    [discriminate|]. injection E as <- <- <-.
  rewrite pow_finite. cbn zeta.
  pose proof (lg_large mx ex a Hlo Hxa) as HL.
  pose proof (pow2_pos (Z.of_nat N) ltac:(lia)) as HN.
  pose proof (shiftl_nonneg_bound _ my ey _ b HL Hmy Hey Hb) as Hl.
  set (l := Z.shiftl (lg mx ex * Zpos my) ey) in *.
  assert (Hi : 0 <= Z.shiftr l (Z.of_nat N) <= a * 2 ^ b).
  { rewrite Z.shiftr_div_pow2 by lia. split; [apply Z.div_pos; lia|].
    apply Z.div_le_upper_bound; [assumption|]. nia. }
  set (i := Z.shiftr l (Z.of_nat N)) in *.
  destruct (Z.ltb_spec 1100 i); [lia|]. destruct (Z.ltb_spec i (-1200)); [lia|].
  cbn [fst snd].
  pose proof (exp2_within (Z.land l (Z.ones (Z.of_nat N))) i (a * 2 ^ b + 1)
                ltac:(lia) ltac:(lia)) as Hw.
  pose proof (exp2_reaches (Z.land l (Z.ones (Z.of_nat N))) i ltac:(lia)) as Hr.
  rewrite (within_not_inf _ _ Hw), (reaches_not_zero _ _ Hr). split; [reflexivity|exact Hw].
Qed.

(** The reference [pow] on a base of at most one. *)
Lemma ref_pow_of_small_base : pow_of_small_base pow.
Proof.
  intros x y Hx0 Hx1 Hy0 Hyf.
  destruct (positive_cases _ Hx0) as [->|(mx & ex & ->)]; [discriminate|].
  apply within_finite in Hx1.
  destruct (positive_cases _ Hy0) as [->|(my & ey & ->)]; [discriminate|].
  rewrite pow_finite. cbn zeta.
  destruct (lg_small mx ex Hx1) as [[E _]|HL].
  - rewrite E. rewrite Z.mul_0_l, Z.shiftl_0_l, Z.shiftr_0_l, Z.land_0_l.
    rewrite exp2_bits_zero.
    replace (1100 <? 0) with false by reflexivity.
    replace (0 <? -1200) with false by reflexivity.
    replace (binary_normalize prec emax fx_one (0 - P) false) with one
      by (vm_compute; reflexivity).
    cbn [fst snd is_inf is_zero orb one]. split; [reflexivity|]. left. reflexivity.
  - pose proof (shiftl_negative _ my ey HL) as Hl.
    pose proof (pow2_pos (Z.of_nat N) ltac:(lia)) as HN.
    set (l := Z.shiftl (lg mx ex * Zpos my) ey) in *.
    assert (Hi : Z.shiftr l (Z.of_nat N) <= -1).
    { rewrite Z.shiftr_div_pow2 by lia.
      assert (l / 2 ^ Z.of_nat N < 0); [|lia].
      apply Z.div_lt_upper_bound; [assumption|]. lia. }
    set (i := Z.shiftr l (Z.of_nat N)) in *.
    destruct (Z.ltb_spec 1100 i); [lia|].
    destruct (Z.ltb_spec i (-1200)).
    { cbn [fst snd]. split; [reflexivity|]. right. split; reflexivity. }
    cbn [fst snd].
    pose proof (exp2_within (Z.land l (Z.ones (Z.of_nat N))) i 0
                  ltac:(lia) ltac:(lia)) as Hw.
    split; [exact Hw|]. rewrite (within_not_inf _ _ Hw). cbn [orb].
    destruct (binary_normalize _ _ _ _ _) as [s| | |]; cbn [is_zero]; auto.
Qed.

End RefPowFacts.

(** ** [generate_keys] *)

Module GenerateKeysFacts.

Import B64 Py KeyGenerator PyFacts.
Local Open Scope py_scope.
Local Open Scope string_scope.

Section Host.

Variable libm_pow : float -> float -> float * errno.
Variable repr : num -> string.
Variable sha256_hexdigest : string -> string.

Local Abbreviation hash := (sha256_hex sha256_hexdigest).
Local Abbreviation run mode w :=
  (KeyGenerator.generate_keys libm_pow repr sha256_hexdigest mode w).
Local Abbreviation run_at d mode :=
  (generate_keys_at libm_pow repr sha256_hexdigest d mode).

(** [generate_keys] reads the clock once and touches nothing else. *)
Lemma generate_keys_reads_clock mode w :
  run mode w
  = (run_at (w.(clock) w.(ticks)) mode, tick w).
Proof. reflexivity. Qed.

(** On a calendar date the seed is an integer, computed without error. *)
Lemma raw_seed_ok d :
  0 <= day d ->
  raw_seed libm_pow d = Ok (Int (month d ^ 2 * year d ^ day d * 2 ^ day d)).
Proof.
  intros Hd. unfold raw_seed.
  rewrite !pow_int_int by (exact Hd || lia). reflexivity.
Qed.

(** The seed of a calendar date has fewer than 140 digits. *)
Lemma raw_seed_small d :
  calendar_date d ->
  0 < month d ^ 2 * year d ^ day d * 2 ^ day d < 10 ^ 140.
Proof.
  intros ((Hy & Hm & Hd) & Hmax).
  assert (0 < month d ^ 2) by (apply Z.pow_pos_nonneg; lia).
  assert (0 < year d ^ day d) by (apply Z.pow_pos_nonneg; lia).
  assert (0 < 2 ^ day d) by (apply Z.pow_pos_nonneg; lia).
  assert (month d ^ 2 <= 12 ^ 2) by (apply Z.pow_le_mono_l; lia).
  assert (year d ^ day d <= 9999 ^ 31).
  { transitivity (9999 ^ day d).
    - apply Z.pow_le_mono_l; lia.
    - apply Z.pow_le_mono_r; lia. }
  assert (2 ^ day d <= 2 ^ 31) by (apply Z.pow_le_mono_r; lia).
  split.
  - apply Z.mul_pos_pos; [apply Z.mul_pos_pos|]; assumption.
  - apply Z.le_lt_trans with (12 ^ 2 * 9999 ^ 31 * 2 ^ 31); [|reflexivity].
    assert (0 <= month d ^ 2 * year d ^ day d)
      by (apply Z.mul_nonneg_nonneg; lia).
    assert (month d ^ 2 * year d ^ day d <= 12 ^ 2 * 9999 ^ 31)
      by (apply Z.mul_le_mono_nonneg; lia).
    apply Z.mul_le_mono_nonneg; lia.
Qed.

Lemma without_seed_at d mode :
  0 <= day d ->
  run_at d mode
  = generate_keys_without_seed_at libm_pow repr sha256_hexdigest d mode.
Proof.
  intros Hd. unfold generate_keys_at. now rewrite raw_seed_ok.
Qed.

(** Once the key material is known, so is the outcome of every mode. *)
Lemma generate_keys_at_ok d mode k0 k1 k2 k3 :
  0 <= day d ->
  key_material libm_pow d = Ok (k0, k1, k2, k3) ->
  run_at d mode =
  let key0 := hash (py_str repr k0) in
  let key1 := hash (int_str k1) in
  if mode =? "normal"
  then Ok (KeyList [key0; key1; hash (int_str k2); hash (int_str k3)])
  else if mode =? "shared" then Ok (KeyStr (hash (key0 ++ key1)))
  else Raise (ValueError "Unsupported key mode.").
Proof.
  intros Hd Hk. rewrite without_seed_at by exact Hd.
  unfold generate_keys_without_seed_at. rewrite Hk. reflexivity.
Qed.

(** A failure of the arithmetic is the failure of every mode. *)
Lemma generate_keys_at_raises d mode e :
  0 <= day d ->
  key_material libm_pow d = Raise e ->
  run_at d mode = Raise e.
Proof.
  intros Hd Hk. rewrite without_seed_at by exact Hd.
  unfold generate_keys_without_seed_at. now rewrite Hk.
Qed.

(** What a mode returns, when it returns. *)
Lemma generate_keys_at_inv d mode v :
  run_at d mode = Ok v ->
  exists k0 k1 k2 k3,
    key_material libm_pow d = Ok (k0, k1, k2, k3) /\
    let key0 := hash (py_str repr k0) in
    let key1 := hash (int_str k1) in
    (mode = "normal" /\
     v = KeyList [key0; key1; hash (int_str k2); hash (int_str k3)])
    \/ (mode = "shared" /\ v = KeyStr (hash (key0 ++ key1))).
Proof.
  unfold generate_keys_at.
  destruct (raw_seed libm_pow d) as [seed|e0]; cbn [bind]; [|discriminate].
  destruct (key_material libm_pow d) as [[[[k0 k1] k2] k3]|e];
    cbn [bind]; [|discriminate].
  intros H. exists k0, k1, k2, k3. split; [reflexivity|]. cbv zeta.
  destruct (String.eqb_spec mode "normal") as [->|_].
  { left. split; [reflexivity|]. now injection H as <-. }
  destruct (String.eqb_spec mode "shared") as [->|_]; [|discriminate].
  right. split; [reflexivity|]. now injection H as <-.
Qed.

End Host.

End GenerateKeysFacts.

(** ** [generate_keys] returns

    On a host whose [pow] keeps the size of a power, on every calendar
    date but the first of December of year 1. *)

Module ReturnFacts.

Import B64 Py KeyGenerator PyFacts FormulaFacts TotalFacts GenerateKeysFacts.
Local Open Scope py_scope.
Local Open Scope string_scope.

Section Host.

Variable libm_pow : float -> float -> float * errno.
Variable repr : num -> string.
Variable sha256_hexdigest : string -> string.

Hypothesis Hpow : pow_nonneg libm_pow.
Hypothesis Hlarge : pow_of_large_base libm_pow.
Hypothesis Hsmall : pow_of_small_base libm_pow.

Local Abbreviation hash := (sha256_hex sha256_hexdigest).

(** Lines 42-49 yield four integers. *)
Lemma key_material_returns d :
  calendar_date d -> ~ (year d = 1 /\ month d = 12 /\ day d = 1) ->
  exists k0 k1 k2 k3, key_material libm_pow d = Ok (Int k0, k1, k2, k3).
Proof.
  intros Hd Hsafe.
  destruct (key_material_total libm_pow Hpow Hlarge Hsmall d Hd Hsafe)
    as (k0 & k1 & k2 & k3 & E).
  exists k0, k1, k2, k3.
  rewrite (key_material_typed libm_pow Hpow d (proj1 Hd)), E. reflexivity.
Qed.

(** The year of a CalendarDate of the specification is not year 1. *)
Lemma key_material_of_the_day d :
  Spec.CalendarDate d ->
  exists k0 k1 k2 k3, key_material libm_pow d = Ok (Int k0, k1, k2, k3).
Proof.
  intros [Hd Hy]. apply key_material_returns; [exact Hd|]. lia.
Qed.

(** Both supported modes return, on the digests of the same four
    integers. *)
Lemma generate_keys_at_returns d :
  Spec.CalendarDate d ->
  exists k0 k1 k2 k3,
    key_material libm_pow d = Ok (Int k0, k1, k2, k3)
    /\ generate_keys_at libm_pow repr sha256_hexdigest d "normal"
       = Ok (KeyList (map (fun k => hash (int_str k)) [k0; k1; k2; k3]))
    /\ generate_keys_at libm_pow repr sha256_hexdigest d "shared"
       = Ok (KeyStr (hash (hash (int_str k0) ++ hash (int_str k1)))).
Proof.
  intros Hd. destruct (key_material_of_the_day d Hd) as (k0 & k1 & k2 & k3 & E).
  assert (Hday : 0 <= day d) by (destruct Hd as (((_ & _ & ?) & _) & _); lia).
  exists k0, k1, k2, k3. split; [exact E|].
  rewrite !(generate_keys_at_ok _ _ _ _ _ _ _ _ _ Hday E). split; reflexivity.
Qed.

End Host.

End ReturnFacts.

(** ** Two dates on the reference host *)

Module GoldenFacts.

Import B64 Py KeyGenerator GenerateKeysFacts.
Local Open Scope string_scope.

(** The raw keys of 15 March 2024. *)
Lemma golden_key_material :
  key_material RefLibm.pow Example.golden
  = Ok (Int 2562899776, 33650018, 5118110858465, 80582973358244).
Proof. vm_compute. reflexivity. Qed.

Lemma golden_is_calendar_date : calendar_date Example.golden.
Proof. unfold calendar_date, valid_date. cbn. lia. Qed.

Lemma golden_day_nonneg : 0 <= day Example.golden.
Proof. cbn. lia. Qed.

Lemma golden_normal_keys :
  generate_keys_at RefLibm.pow RefLibm.repr Sha256.hexdigest
    Example.golden "normal"
  = Ok (KeyList Example.golden_normal).
Proof.
  rewrite (generate_keys_at_ok _ _ _ _ _ _ _ _ _ golden_day_nonneg
             golden_key_material).
  vm_compute. reflexivity.
Qed.

Lemma golden_shared_key :
  generate_keys_at RefLibm.pow RefLibm.repr Sha256.hexdigest
    Example.golden "shared"
  = Ok (KeyStr Example.golden_shared).
Proof.
  rewrite (generate_keys_at_ok _ _ _ _ _ _ _ _ _ golden_day_nonneg
             golden_key_material).
  vm_compute. reflexivity.
Qed.

Lemma golden_shared_is_fresh : ~ In Example.golden_shared Example.golden_normal.
Proof. intros [H|[H|[H|[H|[]]]]]; discriminate H. Qed.

(** 1 December of year 1, the first day of the calendar on which the
    arithmetic fails: line 45 hands a complex number to [round]. *)
Lemma december_year_one_is_calendar_date : calendar_date (Date 1 12 1).
Proof. unfold calendar_date, valid_date. cbn. lia. Qed.

Lemma december_year_one_key_material :
  key_material RefLibm.pow (Date 1 12 1) = Raise TypeError.
Proof. vm_compute. reflexivity. Qed.

Lemma december_year_one_raises mode :
  generate_keys_at RefLibm.pow RefLibm.repr Sha256.hexdigest (Date 1 12 1) mode
  = Raise TypeError.
Proof.
  apply generate_keys_at_raises; [cbn; lia|].
  exact december_year_one_key_material.
Qed.

End GoldenFacts.

(** ** The claims about [generate_keys] *)

Module GenerateKeysClaims.

Import B64 Py KeyGenerator PyFacts GenerateKeysFacts ReturnFacts GoldenFacts.
Local Open Scope py_scope.
Local Open Scope string_scope.

(** C1.  In shared mode [generate_keys] returns the SHA-256 hex digest of
    the concatenation of the two hex digests [key0] and [key1], each the
    digest of the decimal string of its raw key: a digest of digests, not
    a digest of the raw decimal strings.  On every calendar date the call
    is the arithmetic of lines 42-49 followed by that digest, so it returns
    the digest of digests of the raw keys the arithmetic yields. *)
Theorem shared_key_is_digest_of_digests
        (libm_pow : float -> float -> float * errno) (repr : num -> string)
        (sha256_hexdigest : string -> string) (w : World) :
  calendar_date (w.(clock) w.(ticks)) ->
  fst (generate_keys libm_pow repr sha256_hexdigest "shared" w)
  = ('(key0_raw, key1_raw, _, _) <- key_material libm_pow (w.(clock) w.(ticks)) ;;
     let key0 := sha256_hex sha256_hexdigest (py_str repr key0_raw) in
     let key1 := sha256_hex sha256_hexdigest (int_str key1_raw) in
     Ok (KeyStr (sha256_hex sha256_hexdigest (key0 ++ key1))))
  /\ (forall k0 k1 k2 k3,
        key_material libm_pow (w.(clock) w.(ticks)) = Ok (Int k0, k1, k2, k3) ->
        fst (generate_keys libm_pow repr sha256_hexdigest "shared" w)
        = Ok (KeyStr (sha256_hex sha256_hexdigest
                        (sha256_hex sha256_hexdigest (int_str k0)
                         ++ sha256_hex sha256_hexdigest (int_str k1))))).
Proof.
  intros Hd.
  assert (Hday : 0 <= day (w.(clock) w.(ticks)))
    by (destruct Hd as ((_ & _ & ?) & _); lia).
  rewrite generate_keys_reads_clock. cbn [fst].
  rewrite without_seed_at by exact Hday.
  unfold generate_keys_without_seed_at. split.
  - destruct (key_material libm_pow _) as [[[[k0 k1] k2] k3]|e]; reflexivity.
  - intros k0 k1 k2 k3 ->. reflexivity.
Qed.

Lemma shared_key_is_digest_of_digests_witness :
  fst (Example.generate_keys "shared" (Example.world_on Example.golden 0 []))
  = Ok (KeyStr (sha256_hex Sha256.hexdigest
                  (sha256_hex Sha256.hexdigest (int_str 2562899776)
                   ++ sha256_hex Sha256.hexdigest (int_str 33650018)))).
Proof.
  apply (proj2 (shared_key_is_digest_of_digests
                  RefLibm.pow RefLibm.repr Sha256.hexdigest
                  (Example.world_on Example.golden 0 [])
                  golden_is_calendar_date)
               2562899776 33650018 5118110858465 80582973358244).
  exact golden_key_material.
Defined.

(** On the golden date the shared key is not the digest of the two raw
    decimal strings. *)
Example golden_shared_is_not_digest_of_decimals :
  Example.golden_shared
  <> sha256_hex Sha256.hexdigest (int_str 2562899776 ++ int_str 33650018).
Proof. vm_compute. discriminate. Qed.

(** C3.  In normal mode [generate_keys] returns the list
    [[key0; key1; key2; key3]], in this order, where [key_i] is the
    SHA-256 hex digest of the canonical decimal string of [key_i_raw]: on
    every calendar date the call is the arithmetic of lines 42-49 followed
    by that list, so it returns the four digests of the raw keys the
    arithmetic yields.  The decimal string of an integer prints a numeral
    in normal form: no leading zero, a sign only when negative. *)
Theorem normal_keys_are_the_four_digests
        (libm_pow : float -> float -> float * errno) (repr : num -> string)
        (sha256_hexdigest : string -> string) (w : World) :
  calendar_date (w.(clock) w.(ticks)) ->
  fst (generate_keys libm_pow repr sha256_hexdigest "normal" w)
  = ('(key0_raw, key1_raw, key2_raw, key3_raw)
       <- key_material libm_pow (w.(clock) w.(ticks)) ;;
     Ok (KeyList [sha256_hex sha256_hexdigest (py_str repr key0_raw);
                  sha256_hex sha256_hexdigest (int_str key1_raw);
                  sha256_hex sha256_hexdigest (int_str key2_raw);
                  sha256_hex sha256_hexdigest (int_str key3_raw)]))
  /\ (forall k0 k1 k2 k3,
        key_material libm_pow (w.(clock) w.(ticks)) = Ok (Int k0, k1, k2, k3) ->
        fst (generate_keys libm_pow repr sha256_hexdigest "normal" w)
        = Ok (KeyList (map (fun k => sha256_hex sha256_hexdigest (int_str k))
                           [k0; k1; k2; k3])))
  /\ (forall z, exists d : Decimal.int,
        int_str z = NilZero.string_of_int d
        /\ Decimal.norm d = d /\ Z.of_int d = z).
Proof.
  intros Hd.
  assert (Hday : 0 <= day (w.(clock) w.(ticks)))
    by (destruct Hd as ((_ & _ & ?) & _); lia).
  rewrite generate_keys_reads_clock. cbn [fst].
  rewrite without_seed_at by exact Hday.
  unfold generate_keys_without_seed_at. split; [|split].
  - destruct (key_material libm_pow _) as [[[[k0 k1] k2] k3]|e]; reflexivity.
  - intros k0 k1 k2 k3 ->. reflexivity.
  - exact int_str_canonical.
Qed.

Lemma normal_keys_are_the_four_digests_witness :
  fst (Example.generate_keys "normal" (Example.world_on Example.golden 0 []))
  = Ok (KeyList (map (fun k => sha256_hex Sha256.hexdigest (int_str k))
                     [2562899776; 33650018; 5118110858465; 80582973358244])).
Proof.
  apply (proj1 (proj2 (normal_keys_are_the_four_digests
                         RefLibm.pow RefLibm.repr Sha256.hexdigest
                         (Example.world_on Example.golden 0 [])
                         golden_is_calendar_date))).
  exact golden_key_material.
Defined.

(** The golden vector of the specification, on the reference host. *)
Example golden_vector :
  fst (Example.generate_keys "normal" (Example.world_on Example.golden 0 []))
  = Ok (KeyList Example.golden_normal)
  /\ fst (Example.generate_keys "shared" (Example.world_on Example.golden 0 []))
     = Ok (KeyStr Example.golden_shared).
Proof.
  unfold Example.generate_keys. rewrite !generate_keys_reads_clock.
  split; [exact golden_normal_keys|exact golden_shared_key].
Qed.

(** What [generate_keys] returns, value or exception, depends on the
    world only through the date it reads: the body reads nothing else.
    (This is how the function is written down here, not a finding about
    its runs on a host.) *)
Lemma generate_keys_deterministic
        (libm_pow : float -> float -> float * errno) (repr : num -> string)
        (sha256_hexdigest : string -> string) (mode : string) (w1 w2 : World) :
  w1.(clock) w1.(ticks) = w2.(clock) w2.(ticks) ->
  fst (generate_keys libm_pow repr sha256_hexdigest mode w1)
  = fst (generate_keys libm_pow repr sha256_hexdigest mode w2).
Proof.
  intros H. rewrite !generate_keys_reads_clock. cbn [fst]. now rewrite H.
Qed.

Lemma generate_keys_deterministic_witness :
  fst (Example.generate_keys "normal" (Example.world_on Example.golden 0 []))
  = fst (Example.generate_keys "normal"
           (Example.world_on Example.golden 7 ["Key: "])).
Proof.
  apply (generate_keys_deterministic
           RefLibm.pow RefLibm.repr Sha256.hexdigest "normal"
           (Example.world_on Example.golden 0 [])
           (Example.world_on Example.golden 7 ["Key: "])).
  reflexivity.
Defined.

(** A mode other than ["normal"] and ["shared"] yields no keys, on any
    date and any host: the call raises. *)
Lemma unsupported_mode_yields_no_keys
      (libm_pow : float -> float -> float * errno) (repr : num -> string)
      (sha256_hexdigest : string -> string) (w : World) (mode : string) :
  mode <> "normal" -> mode <> "shared" ->
  exists e, fst (generate_keys libm_pow repr sha256_hexdigest mode w) = Raise e.
Proof.
  intros Hn Hs. rewrite generate_keys_reads_clock. cbn [fst].
  destruct (generate_keys_at libm_pow repr sha256_hexdigest
              (w.(clock) w.(ticks)) mode) as [v|e] eqn:E; [|eauto].
  apply generate_keys_at_inv in E.
  destruct E as (? & ? & ? & ? & _ & [[-> _]|[-> _]]); congruence.
Qed.

(** C7.  On every CalendarDate, on a host whose [pow] keeps the size of a
    power: a mode other than ["normal"] and ["shared"] raises the
    [ValueError] of line 65, and the two supported modes raise nothing:
    lines 42-49 yield four integers, normal mode returns their four
    digests and shared mode the digest of the first two digests. *)
Theorem unsupported_mode_raises
        (libm_pow : float -> float -> float * errno) (repr : num -> string)
        (sha256_hexdigest : string -> string) (w : World) :
  pow_nonneg libm_pow ->
  pow_of_large_base libm_pow ->
  pow_of_small_base libm_pow ->
  Spec.CalendarDate (w.(clock) w.(ticks)) ->
  (forall mode, mode <> "normal" -> mode <> "shared" ->
     fst (generate_keys libm_pow repr sha256_hexdigest mode w)
     = Raise (ValueError "Unsupported key mode."))
  /\ (exists k0 k1 k2 k3,
        key_material libm_pow (w.(clock) w.(ticks)) = Ok (Int k0, k1, k2, k3)
        /\ fst (generate_keys libm_pow repr sha256_hexdigest "normal" w)
           = Ok (KeyList (map (fun k => sha256_hex sha256_hexdigest (int_str k))
                              [k0; k1; k2; k3]))
        /\ fst (generate_keys libm_pow repr sha256_hexdigest "shared" w)
           = Ok (KeyStr (sha256_hex sha256_hexdigest
                           (sha256_hex sha256_hexdigest (int_str k0)
                            ++ sha256_hex sha256_hexdigest (int_str k1))))).
Proof.
  intros Hpow Hlarge Hsmall Hd.
  destruct (generate_keys_at_returns libm_pow repr sha256_hexdigest
              Hpow Hlarge Hsmall _ Hd) as (k0 & k1 & k2 & k3 & Hk & Hn & Hs).
  assert (Hday : 0 <= day (w.(clock) w.(ticks)))
    by (destruct Hd as (((_ & _ & ?) & _) & _); lia).
  split.
  - intros mode Hnn Hns. rewrite generate_keys_reads_clock. cbn [fst].
    rewrite (generate_keys_at_ok _ _ _ _ _ _ _ _ _ Hday Hk). cbv zeta.
    destruct (String.eqb_spec mode "normal"); [contradiction|].
    destruct (String.eqb_spec mode "shared"); [contradiction|]. reflexivity.
  - exists k0, k1, k2, k3. rewrite !generate_keys_reads_clock. cbn [fst]. auto.
Qed.

Lemma unsupported_mode_raises_witness :
  (forall mode, mode <> "normal" -> mode <> "shared" ->
     fst (generate_keys RefLibm.pow RefLibm.repr Sha256.hexdigest mode
            (Example.world_on Example.golden 0 []))
     = Raise (ValueError "Unsupported key mode."))
  /\ (exists k0 k1 k2 k3,
        key_material RefLibm.pow
          ((Example.world_on Example.golden 0 []).(clock)
             (Example.world_on Example.golden 0 []).(ticks))
        = Ok (Int k0, k1, k2, k3)
        /\ fst (generate_keys RefLibm.pow RefLibm.repr Sha256.hexdigest "normal"
                 (Example.world_on Example.golden 0 []))
           = Ok (KeyList (map (fun k => sha256_hex Sha256.hexdigest (int_str k))
                              [k0; k1; k2; k3]))
        /\ fst (generate_keys RefLibm.pow RefLibm.repr Sha256.hexdigest "shared"
                 (Example.world_on Example.golden 0 []))
           = Ok (KeyStr (sha256_hex Sha256.hexdigest
                           (sha256_hex Sha256.hexdigest (int_str k0)
                            ++ sha256_hex Sha256.hexdigest (int_str k1))))).
Proof.
  apply (unsupported_mode_raises
           RefLibm.pow RefLibm.repr Sha256.hexdigest
           (Example.world_on Example.golden 0 [])
           RefFacts.ref_pow_nonneg
           RefPowFacts.ref_pow_of_large_base
           RefPowFacts.ref_pow_of_small_base).
  split; [exact golden_is_calendar_date|]. cbn. lia.
Defined.

(** C8.  The seed of line 38 and its hash of line 39 are dead: on every
    calendar date and for every mode, [generate_keys] and its variant
    without these two lines return the same value or raise the same
    exception, and leave the same world. *)
Theorem seed_is_dead
        (libm_pow : float -> float -> float * errno) (repr : num -> string)
        (sha256_hexdigest : string -> string) (mode : string) (w : World) :
  calendar_date (w.(clock) w.(ticks)) ->
  generate_keys libm_pow repr sha256_hexdigest mode w
  = generate_keys_without_seed libm_pow repr sha256_hexdigest mode w.
Proof.
  intros Hd. rewrite generate_keys_reads_clock.
  unfold generate_keys_without_seed, io_bind, date_today, lift.
  rewrite without_seed_at by (destruct Hd as ((_ & _ & ?) & _); lia). reflexivity.
Qed.

Lemma seed_is_dead_witness :
  Example.generate_keys "shared" (Example.world_on Example.golden 0 [])
  = generate_keys_without_seed RefLibm.pow RefLibm.repr Sha256.hexdigest
      "shared" (Example.world_on Example.golden 0 []).
Proof.
  apply (seed_is_dead RefLibm.pow RefLibm.repr Sha256.hexdigest "shared"
           (Example.world_on Example.golden 0 [])).
  exact golden_is_calendar_date.
Defined.

(** The seed of the golden date: computed, then dropped. *)
Example golden_seed :
  raw_seed RefLibm.pow Example.golden
  = Ok (Int 11557131821904364788356047051734547913915034320228057088).
Proof. vm_compute. reflexivity. Qed.

End GenerateKeysClaims.


(** ** [prompt_for_key] *)

Module PromptFacts.

Import B64 Py KeyGenerator CLIInterface GenerateKeysFacts.
Local Open Scope string_scope.

Lemma py_in_list user_key l : py_in user_key (KeyList l) = true <-> In user_key l.
Proof.
  cbn [py_in]. rewrite existsb_exists. split.
  - intros (x & Hx & E). apply String.eqb_eq in E. now subst.
  - intros H. exists user_key. split; [exact H|apply String.eqb_refl].
Qed.

Lemma py_in_list_false user_key l :
  py_in user_key (KeyList l) = false <-> ~ In user_key l.
Proof.
  rewrite <- py_in_list. destruct (py_in user_key (KeyList l)); split; congruence.
Qed.

(** The three readings of section 4.2, steps 2 to 4. *)
Lemma validate_cases candidate normal shared :
  (In candidate normal -> Spec.validate candidate normal shared = Spec.Standard)
  /\ (~ In candidate normal -> candidate = shared ->
      Spec.validate candidate normal shared = Spec.Elevated)
  /\ (~ In candidate normal -> candidate <> shared ->
      Spec.validate candidate normal shared = Spec.Rejected).
Proof.
  unfold Spec.validate. repeat split; intros;
    destruct (in_dec string_dec candidate normal); try contradiction;
    try reflexivity; destruct (string_dec candidate shared); congruence.
Qed.

Section Host.

Variable libm_pow : float -> float -> float * errno.
Variable repr : num -> string.
Variable sha256_hexdigest : string -> string.

Local Abbreviation run_at d mode :=
  (generate_keys_at libm_pow repr sha256_hexdigest d mode).
Local Abbreviation check user_key w :=
  (check_key libm_pow repr sha256_hexdigest user_key w).

(** Both modes succeed or fail together, and return a list of four keys and
    a single key. *)
Lemma both_modes d v :
  run_at d "normal" = Ok v ->
  exists l s,
    v = KeyList l /\ List.length l = 4%nat /\ run_at d "shared" = Ok (KeyStr s).
Proof.
  intros H. destruct (generate_keys_at_inv _ _ _ _ _ _ H)
    as (k0 & k1 & k2 & k3 & Hk & [[_ ->]|[E _]]); [|discriminate].
  eexists _, _. split; [reflexivity|]. split; [reflexivity|].
  unfold generate_keys_at in *.
  destruct (raw_seed libm_pow d); [|discriminate]. cbn [bind] in *.
  rewrite Hk. reflexivity.
Qed.

(** A pass that returns a model. *)
Lemma check_key_returns user_key w model w' :
  forall H : check user_key w = (Ok (Return model), w'),
  exists normal shared,
    generate_keys libm_pow repr sha256_hexdigest "normal" w
    = (Ok (KeyList normal), tick w)
    /\ generate_keys libm_pow repr sha256_hexdigest "shared" (tick w)
       = (Ok (KeyStr shared), tick (tick w))
    /\ ((model = "gpt-3.5-turbo" /\ In user_key normal)
        \/ (model = "gpt-4o-mini" /\ ~ In user_key normal
            /\ user_key = shared)).
Proof.
  intros H. unfold check_key, io_bind in H.
  rewrite generate_keys_reads_clock in H. rewrite generate_keys_reads_clock.
  destruct (run_at (w.(clock) w.(ticks)) "normal") as [v|e] eqn:Hn.
  2:{ cbv beta iota in H. discriminate H. }
  destruct (both_modes _ _ Hn) as (l & _ & -> & _ & _).
  cbv beta iota in H.
  rewrite generate_keys_reads_clock in H. rewrite generate_keys_reads_clock.
  destruct (run_at ((tick w).(clock) (tick w).(ticks)) "shared")
    as [v|e] eqn:Hs.
  2:{ cbv beta iota in H. discriminate H. }
  destruct (generate_keys_at_inv _ _ _ _ _ _ Hs)
    as (? & ? & ? & ? & _ & [[E _]|[_ Hv]]); [discriminate|].
  set (s := sha256_hex sha256_hexdigest _) in Hv. clearbody s. subst v.
  exists l, s. split; [reflexivity|]. split; [reflexivity|].
  cbv beta iota in H. revert H.
  destruct (py_in user_key (KeyList l)) eqn:Hin.
  - intros [= <- <-]. apply py_in_list in Hin. auto.
  - apply py_in_list_false in Hin. cbn [py_eq].
    destruct (String.eqb_spec user_key s) as [Heq|_].
    + unfold io_bind, lift, print. intros [= <- <-]. auto.
    + unfold io_bind, lift, print. discriminate.
Qed.

(** A pass raises nothing of its own: an exception is one of
    [generate_keys]. *)
Lemma check_key_raises user_key w e :
  fst (check user_key w) = Raise e ->
  fst (generate_keys libm_pow repr sha256_hexdigest "normal" w) = Raise e
  \/ fst (generate_keys libm_pow repr sha256_hexdigest "shared" (tick w))
     = Raise e.
Proof.
  unfold check_key, io_bind. rewrite generate_keys_reads_clock.
  destruct (run_at (w.(clock) w.(ticks)) "normal") as [v|e1]; cbn [fst].
  - rewrite generate_keys_reads_clock.
    destruct (run_at _ "shared") as [v2|e2].
    + destruct (py_in user_key v); [cbn [fst lift]; discriminate|].
      destruct (py_eq user_key v2); unfold io_bind, lift, print;
        cbn [fst]; discriminate.
    + cbn [fst]. intros [= ->]. now right.
  - intros [= ->]. now left.
Qed.

(** A pass that asks again has printed the error text after the prompt. *)
Lemma check_key_again user_key w w' :
  check user_key (snd (print "Key: " w)) = (Ok Again, w') ->
  w'.(stdout) = (w.(stdout) ++ ["Key: "; (Fore_RED ++ "Incorrect Key!")%string])%list.
Proof.
  unfold check_key, io_bind. rewrite generate_keys_reads_clock.
  destruct (run_at _ "normal") as [v|e]; [|discriminate].
  rewrite generate_keys_reads_clock.
  destruct (run_at _ "shared") as [v2|e]; [|discriminate].
  destruct (py_in user_key v); [discriminate|].
  destruct (py_eq user_key v2); unfold io_bind, lift, print; cbn;
    [discriminate|].
  intros [= <-]. cbn. now rewrite <- app_assoc.
Qed.

(** One pass of the loop on a day [d], against the keys of that day:
    what it returns and the world it leaves. *)
Lemma check_key_full d l s user_key w :
  w.(clock) w.(ticks) = d -> w.(clock) (S w.(ticks)) = d ->
  run_at d "normal" = Ok (KeyList l) ->
  run_at d "shared" = Ok (KeyStr s) ->
  check user_key w
  = let w2 := tick (tick w) in
    match Spec.validate user_key l s with
    | Spec.Standard => (Ok (Return "gpt-3.5-turbo"), w2)
    | Spec.Elevated =>
        (Ok (Return "gpt-4o-mini"),
         snd (print "Shared key accepted. Switching to GPT-4o Mini." w2))
    | Spec.Rejected =>
        (Ok Again, snd (print (Fore_RED ++ "Incorrect Key!") w2))
    end.
Proof.
  intros H1 H2 Hn Hs. unfold check_key, io_bind.
  rewrite generate_keys_reads_clock, H1, Hn.
  rewrite generate_keys_reads_clock. unfold tick at 1 2. cbn [clock ticks].
  rewrite H2, Hs. fold (tick w). fold (tick (tick w)).
  unfold Spec.validate.
  destruct (in_dec string_dec user_key l) as [Hin|Hin].
  - apply py_in_list in Hin. rewrite Hin. reflexivity.
  - apply py_in_list_false in Hin. rewrite Hin. cbn [py_eq].
    destruct (String.eqb_spec user_key s) as [->|Hne].
    + destruct (string_dec s s); [reflexivity|contradiction].
    + destruct (string_dec user_key s); [contradiction|reflexivity].
Qed.

(** One turn of the loop on a day [d]: the prompt, the line read, the
    pass. *)
Lemma prompt_step d l s user_key stdin w :
  w.(clock) w.(ticks) = d -> w.(clock) (S w.(ticks)) = d ->
  run_at d "normal" = Ok (KeyList l) ->
  run_at d "shared" = Ok (KeyStr s) ->
  prompt_for_key libm_pow repr sha256_hexdigest (user_key :: stdin) w
  = let w2 := tick (tick (snd (print "Key: " w))) in
    match Spec.validate user_key l s with
    | Spec.Standard => (Ok "gpt-3.5-turbo", stdin, w2)
    | Spec.Elevated =>
        (Ok "gpt-4o-mini", stdin,
         snd (print "Shared key accepted. Switching to GPT-4o Mini." w2))
    | Spec.Rejected =>
        prompt_for_key libm_pow repr sha256_hexdigest stdin
          (snd (print (Fore_RED ++ "Incorrect Key!") w2))
    end.
Proof.
  intros H1 H2 Hn Hs. cbn [prompt_for_key].
  destruct (print "Key: " w) as [u w0] eqn:Ew.
  assert (E0 : w0 = snd (print "Key: " w)) by now rewrite Ew.
  rewrite (check_key_full d l s user_key w0); try assumption.
  - cbv zeta. cbn [snd]. now destruct (Spec.validate user_key l s).
  - rewrite E0. exact H1.
  - rewrite E0. exact H2.
Qed.

(** One pass of the loop on a day [d], against the keys of that day. *)
Lemma check_key_on d l s user_key w :
  w.(clock) w.(ticks) = d -> w.(clock) (S w.(ticks)) = d ->
  run_at d "normal" = Ok (KeyList l) ->
  run_at d "shared" = Ok (KeyStr s) ->
  fst (check user_key w)
  = Ok (Spec.granted (Spec.validate user_key l s)).
Proof.
  intros H1 H2 Hn Hs. rewrite (check_key_full d l s user_key w H1 H2 Hn Hs).
  cbv zeta. now destruct (Spec.validate user_key l s).
Qed.

End Host.

End PromptFacts.

(** ** The claims about validation and the prompt *)

Module PromptClaims.

Import B64 Py KeyGenerator CLIInterface GenerateKeysFacts ReturnFacts.
Import PromptFacts GoldenFacts.
Local Open Scope string_scope.

(** C4.  Validation, the body of the loop of [prompt_for_key], on a
    CalendarDate (both readings of the clock fall on it) and on a host
    whose [pow] keeps the size of a power.  It is total and raises
    nothing, whatever the candidate: both derivations return, and a
    candidate equal to any of the four normal digests is granted the
    Standard tier (model [gpt-3.5-turbo]); otherwise a candidate equal to
    the shared digest is granted the Elevated tier (model [gpt-4o-mini]);
    every other candidate, the empty string included, is Rejected (the
    loop asks again).  The outcome is the classification of section
    4.2. *)
Theorem validation_classifies
        (libm_pow : float -> float -> float * errno) (repr : num -> string)
        (sha256_hexdigest : string -> string)
        (candidate : string) (w : World) (d : date) :
  pow_nonneg libm_pow ->
  pow_of_large_base libm_pow ->
  pow_of_small_base libm_pow ->
  Spec.CalendarDate d ->
  w.(clock) w.(ticks) = d -> w.(clock) (S w.(ticks)) = d ->
  exists normal shared,
    generate_keys_at libm_pow repr sha256_hexdigest d "normal"
    = Ok (KeyList normal)
    /\ List.length normal = 4%nat
    /\ generate_keys_at libm_pow repr sha256_hexdigest d "shared"
       = Ok (KeyStr shared)
    /\ (In candidate normal ->
        fst (check_key libm_pow repr sha256_hexdigest candidate w)
        = Ok (Return "gpt-3.5-turbo"))
    /\ (~ In candidate normal -> candidate = shared ->
        fst (check_key libm_pow repr sha256_hexdigest candidate w)
        = Ok (Return "gpt-4o-mini"))
    /\ (~ In candidate normal -> candidate <> shared ->
        fst (check_key libm_pow repr sha256_hexdigest candidate w)
        = Ok Again)
    /\ fst (check_key libm_pow repr sha256_hexdigest candidate w)
       = Ok (Spec.granted (Spec.validate candidate normal shared))
    /\ (forall e,
          fst (check_key libm_pow repr sha256_hexdigest candidate w)
          <> Raise e).
Proof.
  intros Hpow Hlarge Hsmall Hd H1 H2.
  destruct (generate_keys_at_returns libm_pow repr sha256_hexdigest
              Hpow Hlarge Hsmall d Hd) as (k0 & k1 & k2 & k3 & _ & Hn & Hs).
  eexists _, _. split; [exact Hn|]. split; [reflexivity|]. split; [exact Hs|].
  pose proof (check_key_on libm_pow repr sha256_hexdigest d _ _ candidate w
                H1 H2 Hn Hs) as E.
  destruct (validate_cases candidate
              (map (fun k => sha256_hex sha256_hexdigest (int_str k))
                   [k0; k1; k2; k3])
              (sha256_hex sha256_hexdigest
                 (sha256_hex sha256_hexdigest (int_str k0)
                  ++ sha256_hex sha256_hexdigest (int_str k1))))
    as (V1 & V2 & V3).
  repeat split;
    [intros Hin|intros Hin Heq|intros Hin Hne|exact E|intros e; rewrite E; discriminate];
    rewrite E; [rewrite V1|rewrite V2|rewrite V3]; auto.
Qed.

Lemma validation_classifies_witness :
  exists normal shared,
    generate_keys_at RefLibm.pow RefLibm.repr Sha256.hexdigest
      Example.golden "normal" = Ok (KeyList normal)
    /\ List.length normal = 4%nat
    /\ generate_keys_at RefLibm.pow RefLibm.repr Sha256.hexdigest
         Example.golden "shared" = Ok (KeyStr shared)
    /\ (In "" normal ->
        fst (check_key RefLibm.pow RefLibm.repr Sha256.hexdigest ""
               (Example.world_on Example.golden 0 []))
        = Ok (Return "gpt-3.5-turbo"))
    /\ (~ In "" normal -> "" = shared ->
        fst (check_key RefLibm.pow RefLibm.repr Sha256.hexdigest ""
               (Example.world_on Example.golden 0 []))
        = Ok (Return "gpt-4o-mini"))
    /\ (~ In "" normal -> "" <> shared ->
        fst (check_key RefLibm.pow RefLibm.repr Sha256.hexdigest ""
               (Example.world_on Example.golden 0 []))
        = Ok Again)
    /\ fst (check_key RefLibm.pow RefLibm.repr Sha256.hexdigest ""
              (Example.world_on Example.golden 0 []))
       = Ok (Spec.granted (Spec.validate "" normal shared))
    /\ (forall e,
          fst (check_key RefLibm.pow RefLibm.repr Sha256.hexdigest ""
                 (Example.world_on Example.golden 0 []))
          <> Raise e).
Proof.
  apply (validation_classifies
           RefLibm.pow RefLibm.repr Sha256.hexdigest
           "" (Example.world_on Example.golden 0 []) Example.golden
           RefFacts.ref_pow_nonneg
           RefPowFacts.ref_pow_of_large_base
           RefPowFacts.ref_pow_of_small_base).
  - split; [exact golden_is_calendar_date|]. cbn. lia.
  - reflexivity.
  - reflexivity.
Defined.

(** Round trip on a day [d] whose keys [generate_keys] returns: each of
    the four keys that normal mode returns is granted the Standard tier,
    and the key that shared mode returns is granted the Elevated tier when
    it is not also one of the four normal keys, which are tested first.
    Whether SHA-256 ever makes it one of them is not settled here. *)
Lemma round_trip
        (libm_pow : float -> float -> float * errno) (repr : num -> string)
        (sha256_hexdigest : string -> string)
        (w : World) (d : date) (normal : list string) (shared : string) :
  w.(clock) w.(ticks) = d -> w.(clock) (S w.(ticks)) = d ->
  generate_keys_at libm_pow repr sha256_hexdigest d "normal"
  = Ok (KeyList normal) ->
  generate_keys_at libm_pow repr sha256_hexdigest d "shared"
  = Ok (KeyStr shared) ->
  List.length normal = 4%nat
  /\ (forall i, (i < 4)%nat ->
        fst (check_key libm_pow repr sha256_hexdigest (nth i normal "") w)
        = Ok (Spec.granted Spec.Standard))
  /\ (~ In shared normal ->
      fst (check_key libm_pow repr sha256_hexdigest shared w)
      = Ok (Spec.granted Spec.Elevated)).
Proof.
  intros H1 H2 Hn Hs.
  destruct (both_modes _ _ _ _ _ Hn) as (l & s & [= <-] & Hlen & _).
  split; [exact Hlen|]. split.
  - intros i Hi.
    rewrite (check_key_on _ _ _ d normal shared _ w H1 H2 Hn Hs).
    destruct (validate_cases (nth i normal "") normal shared) as (V & _).
    rewrite V; [reflexivity|]. apply nth_In. now rewrite Hlen.
  - intros Hfresh.
    rewrite (check_key_on _ _ _ d normal shared _ w H1 H2 Hn Hs).
    destruct (validate_cases shared normal shared) as (_ & V & _).
    now rewrite V.
Qed.

Lemma round_trip_witness :
  List.length Example.golden_normal = 4%nat
  /\ (forall i, (i < 4)%nat ->
        fst (Example.check_key (nth i Example.golden_normal "")
               (Example.world_on Example.golden 0 []))
        = Ok (Spec.granted Spec.Standard))
  /\ (~ In Example.golden_shared Example.golden_normal ->
      fst (Example.check_key Example.golden_shared
             (Example.world_on Example.golden 0 []))
      = Ok (Spec.granted Spec.Elevated)).
Proof.
  apply (round_trip RefLibm.pow RefLibm.repr Sha256.hexdigest
           (Example.world_on Example.golden 0 []) Example.golden
           Example.golden_normal Example.golden_shared).
  - reflexivity.
  - reflexivity.
  - exact golden_normal_keys.
  - exact golden_shared_key.
Defined.

(** On the golden date the shared key is none of the normal keys, so it is
    granted the Elevated tier. *)
Example golden_shared_is_elevated :
  ~ In Example.golden_shared Example.golden_normal
  /\ fst (Example.check_key Example.golden_shared
            (Example.world_on Example.golden 0 []))
     = Ok (Return "gpt-4o-mini").
Proof.
  split; [exact golden_shared_is_fresh|].
  unfold Example.check_key.
  rewrite check_key_on
    with (d := Example.golden) (l := Example.golden_normal)
         (s := Example.golden_shared);
    [|reflexivity|reflexivity|exact golden_normal_keys|exact golden_shared_key].
  destruct (validate_cases Example.golden_shared Example.golden_normal
              Example.golden_shared) as (_ & V & _).
  now rewrite V by (exact golden_shared_is_fresh || reflexivity).
Qed.

(** C10.  [prompt_for_key] hands its caller a model and nothing else.  When
    it returns, the key read last was either one of the normal keys that
    [generate_keys] produced on that pass, and the result is
    ["gpt-3.5-turbo"], or it was not and equalled the shared key, and the
    result is ["gpt-4o-mini"].  A pass that ends on a non-matching key
    prints the error text and the loop reads the next line; and a key
    that is neither one of the day's normal keys nor its shared key is
    such a key. *)
Theorem prompt_returns_a_model
        (libm_pow : float -> float -> float * errno) (repr : num -> string)
        (sha256_hexdigest : string -> string) :
  (forall stdin w model rest w',
     prompt_for_key libm_pow repr sha256_hexdigest stdin w = (Ok model, rest, w') ->
     exists skipped user_key w1 normal shared,
       stdin = (skipped ++ user_key :: rest)%list
       /\ generate_keys libm_pow repr sha256_hexdigest "normal" w1
          = (Ok (KeyList normal), tick w1)
       /\ generate_keys libm_pow repr sha256_hexdigest "shared" (tick w1)
          = (Ok (KeyStr shared), tick (tick w1))
       /\ ((model = "gpt-3.5-turbo" /\ In user_key normal)
           \/ (model = "gpt-4o-mini" /\ ~ In user_key normal
               /\ user_key = shared)))
  /\ (forall user_key stdin w w1,
        check_key libm_pow repr sha256_hexdigest user_key
                  (snd (print "Key: " w)) = (Ok Again, w1) ->
        prompt_for_key libm_pow repr sha256_hexdigest (user_key :: stdin) w
        = prompt_for_key libm_pow repr sha256_hexdigest stdin w1
        /\ w1.(stdout)
           = (w.(stdout) ++ ["Key: "; (Fore_RED ++ "Incorrect Key!")%string])%list)
  /\ (forall d normal shared user_key stdin w,
        w.(clock) w.(ticks) = d -> w.(clock) (S w.(ticks)) = d ->
        generate_keys_at libm_pow repr sha256_hexdigest d "normal"
        = Ok (KeyList normal) ->
        generate_keys_at libm_pow repr sha256_hexdigest d "shared"
        = Ok (KeyStr shared) ->
        ~ In user_key normal -> user_key <> shared ->
        prompt_for_key libm_pow repr sha256_hexdigest (user_key :: stdin) w
        = prompt_for_key libm_pow repr sha256_hexdigest stdin
            (snd (print (Fore_RED ++ "Incorrect Key!")
                    (tick (tick (snd (print "Key: " w))))))).
Proof.
  split; [|split].
  - induction stdin as [|line stdin IH]; intros w model rest w' H.
    + discriminate H.
    + cbn [prompt_for_key] in H.
      destruct (print "Key: " w) as [u w0].
      destruct (check_key libm_pow repr sha256_hexdigest line w0)
        as [[[m|]|e] w2] eqn:E.
      * injection H as <- <- <-.
        destruct (check_key_returns _ _ _ _ _ _ _ E) as (l & s & Hn & Hs & Hm).
        exists [], line, w0, l, s. auto.
      * destruct (IH _ _ _ _ H) as (sk & k & w1 & l & s & -> & Hrest).
        exists (line :: sk), k, w1, l, s. auto.
      * discriminate H.
  - intros user_key stdin w w1 E. split.
    + cbn [prompt_for_key]. destruct (print "Key: " w) as [u w0].
      cbn [snd] in E. now rewrite E.
    + now apply check_key_again in E.
  - intros d normal shared user_key stdin w H1 H2 Hn Hs Hin Hne.
    rewrite (prompt_step _ _ _ d normal shared user_key stdin w H1 H2 Hn Hs).
    destruct (validate_cases user_key normal shared) as (_ & _ & V).
    now rewrite V.
Qed.

Lemma prompt_returns_a_model_witness :
  exists skipped user_key w1 normal shared,
    ["oops"; nth 1 Example.golden_normal ""; "later"]
    = (skipped ++ user_key :: ["later"])%list
    /\ generate_keys RefLibm.pow RefLibm.repr Sha256.hexdigest "normal" w1
       = (Ok (KeyList normal), tick w1)
    /\ generate_keys RefLibm.pow RefLibm.repr Sha256.hexdigest "shared" (tick w1)
       = (Ok (KeyStr shared), tick (tick w1))
    /\ (("gpt-3.5-turbo" = "gpt-3.5-turbo" /\ In user_key normal)
        \/ ("gpt-3.5-turbo" = "gpt-4o-mini" /\ ~ In user_key normal
            /\ user_key = shared)).
Proof.
  apply (proj1 (prompt_returns_a_model
                  RefLibm.pow RefLibm.repr Sha256.hexdigest)
               ["oops"; nth 1 Example.golden_normal ""; "later"]
               (Example.world_on Example.golden 0 [])
               "gpt-3.5-turbo" ["later"]
               (Example.world_on Example.golden 4
                  ["Key: "; (Fore_RED ++ "Incorrect Key!")%string; "Key: "])).
  rewrite prompt_step
    with (d := Example.golden) (l := Example.golden_normal)
         (s := Example.golden_shared);
    [|reflexivity|reflexivity|exact golden_normal_keys|exact golden_shared_key].
  replace (Spec.validate "oops" Example.golden_normal Example.golden_shared)
    with Spec.Rejected by (vm_compute; reflexivity).
  rewrite prompt_step
    with (d := Example.golden) (l := Example.golden_normal)
         (s := Example.golden_shared);
    [|reflexivity|reflexivity|exact golden_normal_keys|exact golden_shared_key].
  replace (Spec.validate (nth 1 Example.golden_normal "")
             Example.golden_normal Example.golden_shared)
    with Spec.Standard by (vm_compute; reflexivity).
  reflexivity.
Defined.

End PromptClaims.

(** ** The claims about the arithmetic *)

Module ArithmeticClaims.

Import B64 Py KeyGenerator PyFacts FormulaFacts.
Local Open Scope py_scope.

(** C2.  On every calendar date the four raw keys are computed by the
    formulas of section 4.1, steps 2 to 5, in that order and each from the
    previous ones: [key0_raw] is an integer, obtained with integer powers
    whose exponents are rounded quotients; [key1_raw], [key2_raw] and
    [key3_raw] are the roundings, ties to even, of binary64 expressions
    whose fractional powers are the host's [pow].  The source and the
    formulas agree on the values and on the exception when a step fails. *)
Theorem key_material_follows_formulas
        (libm_pow : float -> float -> float * errno) (d : date) :
  pow_nonneg libm_pow ->
  valid_date d ->
  KeyGenerator.key_material libm_pow d
  = ('(k0, k1, k2, k3) <- Spec.key_material libm_pow d ;;
     Ok (Int k0, k1, k2, k3))
  /\ (forall k0 k1 k2 k3,
        KeyGenerator.key_material libm_pow d = Ok (k0, k1, k2, k3) ->
        exists z,
          k0 = Int z
          /\ Spec.key0_raw libm_pow d = Ok z
          /\ Spec.key1_raw libm_pow d z = Ok k1
          /\ Spec.key2_raw libm_pow d z k1 = Ok k2
          /\ Spec.key3_raw libm_pow d z k1 k2 = Ok k3).
Proof.
  intros Hpow Hd.
  pose proof (key_material_typed libm_pow Hpow d Hd) as E.
  split; [exact E|].
  intros k0 k1 k2 k3 Hk. rewrite E in Hk. unfold Spec.key_material in Hk.
  destruct (Spec.key0_raw libm_pow d) as [z|e] eqn:E0; [|discriminate Hk].
  cbn [bind] in Hk.
  destruct (Spec.key1_raw libm_pow d z) as [x1|e] eqn:E1; [|discriminate Hk].
  cbn [bind] in Hk.
  destruct (Spec.key2_raw libm_pow d z x1) as [x2|e] eqn:E2; [|discriminate Hk].
  cbn [bind] in Hk.
  destruct (Spec.key3_raw libm_pow d z x1 x2) as [x3|e] eqn:E3;
    [|discriminate Hk].
  cbn [bind] in Hk. injection Hk as <- <- <- <-.
  exists z. auto.
Qed.

Lemma key_material_follows_formulas_witness :
  KeyGenerator.key_material RefLibm.pow Example.golden
  = ('(k0, k1, k2, k3) <- Spec.key_material RefLibm.pow Example.golden ;;
     Ok (Int k0, k1, k2, k3))
  /\ (forall k0 k1 k2 k3,
        KeyGenerator.key_material RefLibm.pow Example.golden
        = Ok (k0, k1, k2, k3) ->
        exists z,
          k0 = Int z
          /\ Spec.key0_raw RefLibm.pow Example.golden = Ok z
          /\ Spec.key1_raw RefLibm.pow Example.golden z = Ok k1
          /\ Spec.key2_raw RefLibm.pow Example.golden z k1 = Ok k2
          /\ Spec.key3_raw RefLibm.pow Example.golden z k1 k2 = Ok k3).
Proof.
  apply (key_material_follows_formulas RefLibm.pow Example.golden).
  - exact RefFacts.ref_pow_nonneg.
  - exact (proj1 GoldenFacts.golden_is_calendar_date).
Defined.

(** C9, as amended.  On every calendar date other than the first of
    November and the first of December of year 1, and for a [pow] that is
    never negative on a positive base: [key0_raw] is an integer, at least
    [2 * year + 8] and above [month - 1], so the base of the 0.8 power is
    positive; [key1_raw] is not negative; and the arithmetic never divides
    by zero nor hands a complex number to [round]. *)
Theorem arithmetic_is_safe
        (libm_pow : float -> float -> float * errno) (d : date) :
  pow_nonneg libm_pow ->
  valid_date d ->
  ~ (year d = 1 /\ 11 <= month d /\ day d = 1) ->
  benign (KeyGenerator.key_material libm_pow d)
  /\ (forall k0, KeyGenerator.key0_raw libm_pow d = Ok k0 ->
        exists z, k0 = Int z /\ 2 * year d + 8 <= z /\ month d - 1 < z)
  /\ (forall z k1, KeyGenerator.key1_raw libm_pow d (Int z) = Ok k1 -> 0 <= k1).
Proof.
  intros Hpow Hd Hsafe. repeat split.
  - rewrite (key_material_typed libm_pow Hpow d Hd).
    apply benign_bind.
    + now apply key_material_benign.
    + now intros [[[k0 k1] k2] k3] _.
  - intros k0 Hk.
    rewrite (key0_typed libm_pow Hpow d) in Hk
      by (destruct Hd as (_ & _ & ?); lia).
    destruct (Spec.key0_raw libm_pow d) as [z|e] eqn:E; [|discriminate Hk].
    injection Hk as <-. exists z.
    destruct (key0_lower libm_pow Hpow d z Hd E) as [Hlow Hbase].
    auto.
  - intros z k1 Hk. rewrite key1_typed in Hk.
    exact (key1_nonneg libm_pow Hpow d z k1 Hk).
Qed.

Lemma arithmetic_is_safe_witness :
  benign (KeyGenerator.key_material RefLibm.pow Example.golden)
  /\ (forall k0, KeyGenerator.key0_raw RefLibm.pow Example.golden = Ok k0 ->
        exists z, k0 = Int z /\ 2 * year Example.golden + 8 <= z
                  /\ month Example.golden - 1 < z)
  /\ (forall z k1,
        KeyGenerator.key1_raw RefLibm.pow Example.golden (Int z) = Ok k1 ->
        0 <= k1).
Proof.
  apply (arithmetic_is_safe RefLibm.pow Example.golden).
  - exact RefFacts.ref_pow_nonneg.
  - exact (proj1 GoldenFacts.golden_is_calendar_date).
  - cbn. lia.
Defined.

(** C9, as stated, fails on 1 December of year 1, a calendar date:
    [2 * year + 7] is 9, not above [month - 1]; [key0_raw] is 10, so the
    base of the 0.8 power is -1; the power is complex and [round] raises
    [TypeError]. *)
Lemma first_of_december_year_one :
  valid_date (Date 1 12 1)
  /\ ~ (2 * 1 + 7 > 12 - 1)
  /\ KeyGenerator.key0_raw RefLibm.pow (Date 1 12 1) = Ok (Int 10)
  /\ KeyGenerator.key1_raw RefLibm.pow (Date 1 12 1) (Int 10) = Raise TypeError
  /\ ~ benign (KeyGenerator.key_material RefLibm.pow (Date 1 12 1)).
Proof.
  split; [unfold valid_date; cbn; lia|].
  split; [lia|].
  split; [vm_compute; reflexivity|].
  split; [vm_compute; reflexivity|].
  assert (E : KeyGenerator.key_material RefLibm.pow (Date 1 12 1) = Raise TypeError)
    by (vm_compute; reflexivity).
  rewrite E. cbn. auto.
Qed.

(** On 1 November of year 1 the base of the 0.8 power is zero: nothing is
    raised, but the base is not positive. *)
Example first_of_november_year_one :
  KeyGenerator.key_material RefLibm.pow (Date 1 11 1)
  = Ok (Int 10, 0, -1948, -1813560).
Proof. vm_compute. reflexivity. Qed.

End ArithmeticClaims.

(** * Further properties

    The chat phase of [main], and more of the key generator and of the
    key prompt. *)

(** ** [str.strip] and [str.lower] on ASCII text *)

Module AsciiFacts.

Import AsciiStr.
Local Open Scope string_scope.

Lemma all_space_app l r :
  all_space (l ++ r) = all_space l && all_space r.
Proof.
  induction l as [|c l IH]; cbn [append all_space]; [reflexivity|].
  now rewrite IH, andb_assoc.
Qed.

Lemma lstrip_spaces l s : all_space l = true -> lstrip (l ++ s) = lstrip s.
Proof.
  induction l as [|c l IH]; cbn [append all_space lstrip]; [reflexivity|].
  intros H. apply andb_true_iff in H. destruct H as [-> H]. auto.
Qed.

Lemma rstrip_all_space r : all_space r = true -> rstrip r = "".
Proof.
  induction r as [|c r IH]; cbn [all_space rstrip]; [reflexivity|].
  intros H. apply andb_true_iff in H. destruct H as [-> H]. now rewrite IH.
Qed.

Lemma rstrip_spaces s r : all_space r = true -> rstrip (s ++ r) = rstrip s.
Proof.
  intros H. induction s as [|c s IH]; cbn [append rstrip].
  - now apply rstrip_all_space.
  - now rewrite IH.
Qed.

(** What [lstrip] takes away is whitespace. *)
Lemma lstrip_split s : exists l, s = l ++ lstrip s /\ all_space l = true.
Proof.
  induction s as [|c s (l & E & H)]; cbn [lstrip].
  - now exists "".
  - destruct (is_space c) eqn:Hc.
    + exists (String c l). cbn [append all_space]. rewrite Hc, H.
      now rewrite <- E.
    + now exists "".
Qed.

Lemma rstrip_split s : exists r, s = rstrip s ++ r /\ all_space r = true.
Proof.
  induction s as [|c s (r & E & H)]; cbn [rstrip].
  - now exists "".
  - destruct (rstrip s) as [|c' s'] eqn:Hs.
    + cbn [append] in E. subst r. destruct (is_space c) eqn:Hc.
      * exists (String c s). cbn [append all_space]. now rewrite Hc, H.
      * exists s. auto.
    + exists r. cbn [append] in *. split; [congruence|exact H].
Qed.

Lemma strip_split s :
  exists l r, s = l ++ strip s ++ r /\ all_space l = true /\ all_space r = true.
Proof.
  destruct (lstrip_split s) as (l & El & Hl).
  destruct (rstrip_split (lstrip s)) as (r & Er & Hr).
  exists l, r. unfold strip. now rewrite <- Er, <- El.
Qed.

Lemma slash_is_no_space c : lower_char c = "/"%char -> is_space c = false.
Proof.
  destruct c as [[] [] [] [] [] [] [] []]; vm_compute;
    intros H; (reflexivity || discriminate H).
Qed.

Lemma t_is_no_space c : lower_char c = "t"%char -> is_space c = false.
Proof.
  destruct c as [[] [] [] [] [] [] [] []]; vm_compute;
    intros H; (reflexivity || discriminate H).
Qed.

(** A word that reads [/quit] in lower case is kept whole by [strip]. *)
Lemma strip_quit l core r :
  all_space l = true -> all_space r = true -> lower core = "/quit" ->
  strip (l ++ core ++ r) = core.
Proof.
  intros Hl Hr Hq. unfold strip. rewrite lstrip_spaces by exact Hl.
  destruct core as [|c1 [|c2 [|c3 [|c4 [|c5 [|c6 core]]]]]];
    try discriminate Hq.
  cbn [lower] in Hq. injection Hq as H1 H2 H3 H4 H5.
  cbn [append lstrip]. rewrite (slash_is_no_space c1 H1).
  cbn [rstrip]. rewrite (rstrip_all_space r Hr), (t_is_no_space c5 H5).
  reflexivity.
Qed.

Lemma strip_all_space s : strip s = "" <-> all_space s = true.
Proof.
  split.
  - intros H. destruct (strip_split s) as (l & r & E & Hl & Hr).
    rewrite H in E. cbn [append] in E. rewrite E, all_space_app, Hl, Hr.
    reflexivity.
  - intros H. unfold strip.
    assert (lstrip s = "") as ->; [|reflexivity].
    induction s as [|c s IH]; [reflexivity|].
    cbn [all_space lstrip] in *. apply andb_true_iff in H.
    destruct H as [-> H]. auto.
Qed.

End AsciiFacts.

(** ** [AstraGPTClient.chat] *)

Module ChatFacts.

Import Console Terminal AstraGPTClient.
Local Open Scope string_scope.

Section Service.

Variable service : nat -> OpenAI.Request -> OpenAI.reply.

(** The loop over the stream prints each piece it collects and touches
    nothing else. *)
Lemma collect_shown chunks broken : forall acc t,
  exists shown,
    snd (collect chunks broken acc t)
    = {| stdin := t.(stdin);
         out := (t.(out) ++ map (fun d => Printed d "") shown)%list;
         sent := t.(sent) |}
    /\ forall l, fst (collect chunks broken acc t) = Done l ->
                 l = (acc ++ shown)%list.
Proof.
  induction chunks as [|choices rest IH]; intros acc t.
  - exists []. cbn [collect map]. rewrite !app_nil_r.
    destruct broken; cbn [fst snd]; (split; [now destruct t|]);
      [discriminate|now intros l [= <-]].
  - cbn [collect]. destruct choices as [|chunk_data others].
    + exists []. cbn [fst snd map]. rewrite app_nil_r.
      split; [now destruct t|discriminate].
    + set (d := match chunk_data with Some s => s | None => "" end).
      destruct (IH (acc ++ [d])%list (print d "" t)) as (shown & Ht & Hl).
      exists (d :: shown). split.
      * rewrite Ht. cbn [print log stdin out sent map].
        now rewrite <- app_assoc.
      * intros l Hd. rewrite (Hl l Hd). now rewrite <- app_assoc.
Qed.

(** What a call of [chat] leaves behind, whether it returns or raises. *)
Lemma chat_cases c user_input ov t :
  let asked := append (OpenAI.Message "user" user_input) c in
  let requests := (t.(sent) ++ [request_for asked ov])%list in
  match chat service c user_input ov t with
  | (Done _, c', t') =>
      exists shown,
        c' = append (OpenAI.Message "assistant" (String.concat "" shown)) asked
        /\ t' = {| stdin := t.(stdin);
                   out := (t.(out)
                           ++ Printed (Fore_BLUE ++ "AstraGPT > ") ""
                              :: map (fun d => Printed d "") shown
                           ++ [Printed "" newline])%list;
                   sent := requests |}
  | (Failed f, c', t') =>
      c' = asked
      /\ exists shown,
           t' = {| stdin := t.(stdin);
                   out := (t.(out) ++ shown)%list;
                   sent := requests |}
           /\ Forall (fun e => exists d, e = Printed d "") shown
  end.
Proof.
  cbv zeta. unfold chat, create.
  set (asked := append (OpenAI.Message "user" user_input) c).
  destruct (service _ _) as [msg|chunks broken].
  - split; [reflexivity|]. exists []. rewrite app_nil_r. split; constructor.
  - set (t1 := print _ _ _).
    destruct (collect_shown chunks broken [] t1) as (shown & Ht & Hl).
    destruct (collect chunks broken [] t1) as [[l|f] t2]; cbn [fst snd] in *.
    + exists shown. rewrite (Hl l eq_refl). cbn [app]. split; [reflexivity|].
      subst t2. unfold t1, print, log. cbn [stdin out sent].
      now rewrite <- !app_assoc.
    + split; [reflexivity|].
      exists (Printed (Fore_BLUE ++ "AstraGPT > ") ""
              :: map (fun d => Printed d "") shown).
      subst t2. unfold t1, print, log. cbn [stdin out sent]. split.
      * now rewrite <- app_assoc.
      * constructor; [eauto|]. apply Forall_forall. intros e He.
        apply in_map_iff in He. destruct He as (d & <- & _). eauto.
Qed.

End Service.
End ChatFacts.

(** ** The chat loop *)

Module LoopFacts.

Import Console Terminal AstraGPTClient App Lines Keeping ChatFacts.
Local Open Scope string_scope.

Lemma user_contents_app h h' :
  Transcript.user_contents (h ++ h')
  = (Transcript.user_contents h ++ Transcript.user_contents h')%list.
Proof. unfold Transcript.user_contents. now rewrite filter_app, map_app. Qed.

(** A question, or a question and its answer, at the end of a dialogue. *)
Lemma dialogue_question l u : forall asked,
  Transcript.dialogue asked (l ++ [OpenAI.Message "user" u])
  = Transcript.dialogue asked l.
Proof.
  induction l as [|m l IH]; intros asked; cbn [app Transcript.dialogue].
  - reflexivity.
  - destruct (OpenAI.role m =? "user"); [apply IH|].
    destruct (OpenAI.role m =? "assistant"); [|reflexivity].
    now rewrite IH.
Qed.

Lemma dialogue_answer l u a : forall asked,
  Transcript.dialogue asked
    (l ++ [OpenAI.Message "user" u; OpenAI.Message "assistant" a])
  = Transcript.dialogue asked l.
Proof.
  induction l as [|m l IH]; intros asked; cbn [app Transcript.dialogue].
  - reflexivity.
  - destruct (OpenAI.role m =? "user"); [apply IH|].
    destruct (OpenAI.role m =? "assistant"); [|reflexivity].
    now rewrite IH.
Qed.

Lemma well_formed_asked p h u :
  Transcript.well_formed p h = true ->
  Transcript.well_formed p (h ++ [OpenAI.Message "user" u]) = true.
Proof.
  destruct h as [|m h]; [discriminate|].
  cbn [app Transcript.well_formed]. now rewrite dialogue_question.
Qed.

Lemma well_formed_answered p h u a :
  Transcript.well_formed p h = true ->
  Transcript.well_formed p
    ((h ++ [OpenAI.Message "user" u]) ++ [OpenAI.Message "assistant" a])
  = true.
Proof.
  destruct h as [|m h]; [discriminate|].
  rewrite <- app_assoc. cbn [app Transcript.well_formed].
  now rewrite dialogue_answer.
Qed.

Lemma ordered_pairs_snoc {A : Type} (R : A -> A -> Prop) l y :
  ForallOrdPairs R l -> Forall (fun x => R x y) l ->
  ForallOrdPairs R (l ++ [y]).
Proof.
  induction 1 as [|x l Hx Hl IH]; intros Hy; cbn [app].
  - repeat constructor.
  - inversion Hy as [|? ? Hxy Hly]; subst. constructor.
    + apply Forall_app. split; [exact Hx|now constructor].
    + now apply IH.
Qed.

Section Service.

Variable strip : string -> string.
Variable lower : string -> string.
Variable service : nat -> OpenAI.Request -> OpenAI.reply.

Local Abbreviation turn := (App.turn strip lower service).
Local Abbreviation loop := (App.loop strip lower service).
Local Abbreviation quits := (Lines.quits strip lower).
Local Abbreviation blank := (Lines.blank strip).
Local Abbreviation spoken := (Lines.spoken strip lower).

Lemma spoken_cons line rest :
  spoken (line :: rest)
  = if quits line then []
    else if blank line then spoken rest
    else strip line :: spoken rest.
Proof.
  unfold Lines.spoken. cbn [before_quit]. destruct (quits line); [reflexivity|].
  cbn [filter]. now destruct (blank line).
Qed.

(** No line is left: the handler reports the [EOFError]. *)
Lemma turn_eof c t :
  t.(stdin) = [] ->
  turn c t
  = (Continue, c,
     {| stdin := []; out := (t.(out) ++ [you_prompt; error_line EOF])%list;
        sent := t.(sent) |}).
Proof.
  intros H. unfold App.turn, attempt, input. rewrite H.
  unfold print, log. cbn [stdin out sent]. rewrite H.
  now rewrite <- app_assoc.
Qed.

Lemma turn_quit c t line rest :
  t.(stdin) = line :: rest -> quits line = true ->
  turn c t
  = (Break, c,
     {| stdin := rest;
        out := (t.(out) ++ [you_prompt; Printed "bye!" newline])%list;
        sent := t.(sent) |}).
Proof.
  intros H Hq. unfold App.turn, attempt, input. rewrite H.
  unfold Lines.quits in Hq. rewrite Hq.
  unfold print, log. cbn [stdin out sent]. now rewrite <- app_assoc.
Qed.

Lemma turn_blank c t line rest :
  t.(stdin) = line :: rest -> quits line = false -> blank line = true ->
  turn c t
  = (Continue, c,
     {| stdin := rest; out := (t.(out) ++ [you_prompt])%list;
        sent := t.(sent) |}).
Proof.
  intros H Hq Hb. unfold App.turn, attempt, input. rewrite H.
  unfold Lines.quits in Hq. unfold Lines.blank in Hb. now rewrite Hq, Hb.
Qed.

(** A line that says something: one request, and the loop goes on
    whether the chat returned or raised. *)
Lemma turn_speaks c t line rest :
  t.(stdin) = line :: rest -> quits line = false -> blank line = false ->
  let asked := append (OpenAI.Message "user" (strip line)) c in
  exists c' more,
    turn c t
    = (Continue, c',
       {| stdin := rest; out := (t.(out) ++ you_prompt :: more)%list;
          sent := (t.(sent) ++ [request_for asked None])%list |})
    /\ (c' = asked
        \/ exists answer, c' = append (OpenAI.Message "assistant" answer) asked)
    /\ Forall (fun e => on_terminal e = true) more.
Proof.
  intros H Hq Hb asked. unfold App.turn, attempt, input. rewrite H.
  unfold Lines.quits in Hq. unfold Lines.blank in Hb. rewrite Hq, Hb.
  set (t1 := {| stdin := rest; out := _; sent := _ |}).
  pose proof (chat_cases service c (strip line) None t1) as Hc.
  cbv zeta in Hc. fold asked in Hc.
  destruct (chat service c (strip line) None t1) as [[[u|f] c'] t'].
  - destruct Hc as (shown & -> & ->).
    eexists _, _. split; [|split].
    + unfold t1. cbn [stdin out sent]. rewrite <- app_assoc. reflexivity.
    + right. eauto.
    + constructor; [reflexivity|]. apply Forall_app. split.
      * apply Forall_forall. intros e He. apply in_map_iff in He.
        now destruct He as (d & <- & _).
      * now repeat constructor.
  - destruct Hc as (-> & shown & -> & Hshown).
    eexists _, _. split; [|split].
    + unfold print, log, t1. cbn [stdin out sent].
      rewrite <- !app_assoc. cbn [app]. reflexivity.
    + now left.
    + apply Forall_app. split.
      * apply Forall_forall. intros e He.
        rewrite Forall_forall in Hshown. now destruct (Hshown e He) as (d & ->).
      * now repeat constructor.
Qed.

(** A turn, whatever the line: the loop goes on unless the line quits;
    a line is taken if there is one; at most one request is made, for the
    stripped line, when the line is neither blank nor a quit; only the
    terminal is written to. *)
Lemma turn_cases c t :
  exists k c' more news,
    turn c t
    = (k, c',
       {| stdin := tl t.(stdin); out := (t.(out) ++ you_prompt :: more)%list;
          sent := (t.(sent) ++ news)%list |})
    /\ Forall (fun e => on_terminal e = true) more
    /\ (k = Break <-> exists line, hd_error t.(stdin) = Some line
                                  /\ quits line = true)
    /\ ((news = [] /\ c' = c
         /\ forall line, hd_error t.(stdin) = Some line ->
                         quits line = true \/ blank line = true)
        \/ exists line,
             hd_error t.(stdin) = Some line
             /\ quits line = false /\ blank line = false
             /\ let asked := append (OpenAI.Message "user" (strip line)) c in
                news = [request_for asked None]
                /\ (c' = asked
                    \/ exists answer,
                         c' = append (OpenAI.Message "assistant" answer) asked)).
Proof.
  destruct (stdin t) as [|line rest] eqn:H.
  - exists Continue, c, [error_line EOF], [].
    rewrite (turn_eof c t H), app_nil_r. cbn [tl]. repeat split.
    + now repeat constructor.
    + discriminate.
    + intros (line & E & _). discriminate E.
    + left. repeat split. intros line E. discriminate E.
  - destruct (quits line) eqn:Hq.
    { exists Break, c, [Printed "bye!" newline], [].
      rewrite (turn_quit c t line rest H Hq), app_nil_r. cbn [tl]. repeat split.
      - now repeat constructor.
      - intros _. exists line. auto.
      - left. repeat split. intros l [= <-]. auto. }
    destruct (blank line) eqn:Hb.
    { exists Continue, c, [], [].
      rewrite (turn_blank c t line rest H Hq Hb), app_nil_r. cbn [tl]. repeat split.
      - constructor.
      - discriminate.
      - intros (l & [= <-] & E). congruence.
      - left. repeat split. intros l [= <-]. auto. }
    destruct (turn_speaks c t line rest H Hq Hb) as (c' & more & E & Hc & Hm).
    exists Continue, c', more, [request_for
                                  (append (OpenAI.Message "user" (strip line)) c)
                                  None].
    rewrite E. cbn [tl]. repeat split.
    + exact Hm.
    + discriminate.
    + intros (l & [= <-] & E'). congruence.
    + right. exists line. cbv zeta. auto.
Qed.

(** When the loop is left within [fuel] turns. *)
Lemma loop_breaks_iff fuel : forall c t,
  fst (fst (loop fuel c t)) = Break
  <-> (List.length (before_quit strip lower t.(stdin)) < List.length t.(stdin)
       /\ List.length (before_quit strip lower t.(stdin)) < fuel)%nat.
Proof.
  induction fuel as [|fuel IH]; intros c t.
  - cbn. split; [discriminate|lia].
  - cbn [App.loop].
    destruct (turn_cases c t) as (k & c' & more & news & E & _ & Hk & _).
    rewrite E. destruct k.
    + rewrite IH. cbn [stdin].
      destruct (stdin t) as [|line rest]; cbn [tl before_quit List.length].
      * lia.
      * destruct (quits line) eqn:Hq.
        { assert (Continue = Break) as [=]. apply Hk. exists line. auto. }
        cbn [List.length]. lia.
    + cbn [fst]. destruct (proj1 Hk eq_refl) as (line & Hl & Hq).
      destruct (stdin t) as [|l rest]; [discriminate Hl|].
      injection Hl as ->. cbn [before_quit]. rewrite Hq. cbn. split; [lia|auto].
Qed.

(** What every turn keeps stays true along the loop. *)
Lemma loop_keeps (I : Client -> Session -> Prop) :
  (forall c t, I c t -> I (snd (fst (turn c t))) (snd (turn c t))) ->
  forall fuel c t, I c t -> I (snd (fst (loop fuel c t))) (snd (loop fuel c t)).
Proof.
  intros Hturn. induction fuel as [|fuel IH]; intros c t Hi; [exact Hi|].
  cbn [App.loop]. specialize (Hturn c t Hi).
  destruct (turn c t) as [[[|] c'] t']; cbn [fst snd] in *.
  - now apply IH.
  - exact Hturn.
Qed.

Lemma session_invariant_start c0 t0 :
  Transcript.well_formed c0.(prompt) c0.(history) = true ->
  session_invariant c0 t0 c0 t0.
Proof.
  intros Hw. repeat split; try exact Hw.
  - exists []. now rewrite app_nil_r.
  - exists []. rewrite app_nil_r. split; constructor.
  - exists []. rewrite app_nil_r. repeat split; constructor.
Qed.

Lemma session_invariant_turn c0 t0 c t :
  session_invariant c0 t0 c t ->
  session_invariant c0 t0 (snd (fst (turn c t))) (snd (turn c t)).
Proof.
  intros (Hc & Hw & (grown & Hg) & (shown & Ho & Hshown)
          & news & Hs & Hnews & Hord).
  destruct (turn_cases c t) as (k & c' & more & news1 & E & Hmore & _ & Hcases).
  rewrite E. cbn [fst snd].
  assert (Hout : exists shown',
             (out t ++ you_prompt :: more)%list = (out t0 ++ shown')%list
             /\ Forall (fun e => on_terminal e = true) shown').
  { exists (shown ++ you_prompt :: more)%list. rewrite Ho, <- app_assoc.
    split; [reflexivity|]. apply Forall_app. split; [exact Hshown|].
    now constructor. }
  destruct Hcases as [(-> & -> & _)|(line & _ & _ & Hb & Hask)].
  - split; [exact Hc|]. split; [exact Hw|]. split; [eauto|].
    split; [exact Hout|]. exists news. rewrite app_nil_r. auto.
  - cbv zeta in Hask. destruct Hask as (-> & Hc').
    set (asked := append (OpenAI.Message "user" (strip line)) c) in *.
    destruct Hc as (Hm & Hk & Hb0 & Hp).
    assert (Hsettings : model c' = model c0 /\ api_key c' = api_key c0
                        /\ base_url c' = base_url c0 /\ prompt c' = prompt c0).
    { destruct Hc' as [->|(answer & ->)]; cbn; auto. }
    assert (Hgrows : exists tail, history c'
                     = (OpenAI.messages (request_for asked None) ++ tail)%list).
    { destruct Hc' as [->|(answer & ->)]; cbn [request_for OpenAI.messages].
      - exists []. now rewrite app_nil_r.
      - exists [OpenAI.Message "assistant" answer]. reflexivity. }
    destruct Hgrows as (tail & Htail).
    cbn [request_for OpenAI.messages asked append history] in Htail.
    split; [exact Hsettings|]. split; [|split; [|split; [exact Hout|]]].
    + destruct Hsettings as (_ & _ & _ & ->). rewrite <- Hp.
      destruct Hc' as [->|(answer & ->)]; cbn [append history asked].
      * now apply well_formed_asked.
      * now apply well_formed_answered.
    + exists (grown ++ OpenAI.Message "user" (strip line) :: tail)%list.
      rewrite Htail, Hg, <- !app_assoc. reflexivity.
    + exists (news ++ [request_for asked None])%list.
      split; [now rewrite Hs, <- app_assoc|]. split.
      * apply Forall_app. split.
        -- apply Forall_forall. intros r Hr. rewrite Forall_forall in Hnews.
           destruct (Hnews r Hr) as (H1 & H2 & H3 & (m & Hm')).
           repeat split; try apply H1; try exact H2; try exact H3.
           exists (m ++ OpenAI.Message "user" (strip line) :: tail)%list.
           rewrite Htail, Hm', <- !app_assoc. reflexivity.
        -- constructor; [|constructor].
           cbn [request_for OpenAI.model OpenAI.api_key OpenAI.base_url
                OpenAI.temperature OpenAI.stream OpenAI.messages
                asked append model api_key base_url history].
           repeat split; auto.
           ++ rewrite <- Hp. now apply well_formed_asked.
           ++ exists (history c), (strip line). split; [reflexivity|].
              unfold Lines.blank in Hb. now apply String.eqb_neq in Hb.
           ++ exists tail. exact Htail.
      * apply ordered_pairs_snoc; [exact Hord|].
        apply Forall_forall. intros r Hr. rewrite Forall_forall in Hnews.
        destruct (Hnews r Hr) as (_ & _ & _ & (m & Hm')).
        exists (m ++ [OpenAI.Message "user" (strip line)])%list. split.
        -- now destruct m.
        -- cbn [request_for OpenAI.messages asked append history].
           now rewrite Hm', <- app_assoc.
Qed.

Lemma session_invariant_loop fuel c t :
  Transcript.well_formed c.(prompt) c.(history) = true ->
  session_invariant c t (snd (fst (loop fuel c t))) (snd (loop fuel c t)).
Proof.
  intros Hw. apply loop_keeps.
  - intros c1 t1. apply session_invariant_turn.
  - now apply session_invariant_start.
Qed.

End Service.
End LoopFacts.

(** ** [main] *)

Module MainFacts.

Import Py KeyGenerator Console Terminal AstraGPTClient App Lines Keeping.
Import PromptFacts ChatFacts LoopFacts.
Local Open Scope string_scope.

Section Host.

Variable libm_pow : B64.float -> B64.float -> B64.float * errno.
Variable repr : num -> string.
Variable sha256_hexdigest : string -> string.
Variable strip : string -> string.
Variable lower : string -> string.
Variable service : nat -> OpenAI.Request -> OpenAI.reply.
Variable os_name : string.
Variable rand : nat.

Local Abbreviation ask_key :=
  (CLIInterface.prompt_for_key libm_pow repr sha256_hexdigest).
Local Abbreviation run_main :=
  (main libm_pow repr sha256_hexdigest strip lower service os_name rand).
Local Abbreviation loop := (App.loop strip lower service).

(** The key prompt hands out one of two models. *)
Lemma prompt_for_key_model stdin : forall w model rest w',
  ask_key stdin w = (Ok model, rest, w') ->
  model = "gpt-3.5-turbo" \/ model = "gpt-4o-mini".
Proof.
  induction stdin as [|line stdin IH]; intros w model rest w' H.
  - discriminate H.
  - cbn [CLIInterface.prompt_for_key] in H.
    destruct (KeyGenerator.print "Key: " w) as [u w0].
    destruct (CLIInterface.check_key libm_pow repr sha256_hexdigest line w0)
      as [[[m|]|e] w2] eqn:E.
    + injection H as <- <- <-.
      destruct (check_key_returns _ _ _ _ _ _ _ E)
        as (l & s & _ & _ & [[-> _]|[-> _]]); auto.
    + exact (IH _ _ _ _ H).
    + discriminate H.
Qed.

(** [random.choice] of the one placeholder. *)
Lemma choice_placeholder :
  choice rand placeholder_keys
  = Done "sk-xxxxxxxxxxxxxxxxxxxxxxxxxxxxxxxxxxxxxxxxxxxxxxxxxxxx".
Proof.
  unfold choice, placeholder_keys. cbn [List.length].
  now rewrite Nat.mod_1_r.
Qed.

(** [main], by the outcome of the key prompt. *)
Lemma main_cases fuel lines w :
  (forall e rest w',
     ask_key lines w = (Raise e, rest, w') ->
     run_main fuel lines w
     = (Raised e, w', None, {| stdin := rest; out := []; sent := [] |}))
  /\ (forall model_type rest w',
        ask_key lines w = (Ok model_type, rest, w') ->
        let c0 := init "sk-xxxxxxxxxxxxxxxxxxxxxxxxxxxxxxxxxxxxxxxxxxxxxxxxxxxx"
                       "https://free.v36.cm/v1/" (Some model_type) in
        let t0 :=
          {| stdin := rest;
             out := [Printed "Connecting to server..." newline; Slept 2;
                     Ran (if existsb (String.eqb os_name) ["nt"; "dos"]
                          then "cls" else "clear")];
             sent := [] |} in
        run_main fuel lines w
        = (match fst (fst (loop fuel c0 t0)) with
           | Break => Returned
           | Continue => Running
           end,
           w', Some (snd (fst (loop fuel c0 t0))),
           snd (loop fuel c0 t0))).
Proof.
  split.
  - intros e rest w' E. unfold main. now rewrite choice_placeholder, E.
  - intros model_type rest w' E. unfold main.
    rewrite choice_placeholder, E. cbv zeta.
    unfold clear_screen, system, sleep, print, log.
    cbn [Terminal.stdin Terminal.out Terminal.sent app].
    now destruct (loop fuel _ _) as [[[|] c] t].
Qed.

Lemma init_well_formed key url m :
  Transcript.well_formed (init key url m).(prompt) (init key url m).(history)
  = true.
Proof.
  cbn [init prompt history Transcript.well_formed OpenAI.role OpenAI.content
       Transcript.dialogue].
  now rewrite String.eqb_refl.
Qed.

(** What the chat phase of [main] keeps, whatever the outcome. *)
Lemma main_session fuel lines w :
  (exists e rest w',
     ask_key lines w = (Raise e, rest, w')
     /\ run_main fuel lines w
        = (Raised e, w', None, {| stdin := rest; out := []; sent := [] |}))
  \/ exists model_type rest w' status c t,
       ask_key lines w = (Ok model_type, rest, w')
       /\ (model_type = "gpt-3.5-turbo" \/ model_type = "gpt-4o-mini")
       /\ run_main fuel lines w = (status, w', Some c, t)
       /\ (status = Returned \/ status = Running)
       /\ session_invariant
            (init "sk-xxxxxxxxxxxxxxxxxxxxxxxxxxxxxxxxxxxxxxxxxxxxxxxxxxxx"
                  "https://free.v36.cm/v1/" (Some model_type))
            {| stdin := rest;
               out := [Printed "Connecting to server..." newline; Slept 2;
                       Ran (if existsb (String.eqb os_name) ["nt"; "dos"]
                            then "cls" else "clear")];
               sent := [] |}
            c t.
Proof.
  destruct (main_cases fuel lines w) as [Hraise Hok].
  destruct (ask_key lines w) as [[[model_type|e] rest] w'] eqn:E.
  - right. specialize (Hok _ _ _ eq_refl). cbv zeta in Hok.
    eexists model_type, rest, w', _, _, _. split; [reflexivity|].
    split; [exact (prompt_for_key_model _ _ _ _ _ E)|].
    split; [exact Hok|]. split.
    + destruct (fst (fst (loop fuel _ _))); auto.
    + apply session_invariant_loop. apply init_well_formed.
  - left. exists e, rest, w'. split; [reflexivity|].
    exact (Hraise _ _ _ eq_refl).
Qed.

End Host.

(** The key prompt on the golden date, a normal key typed first. *)
Lemma golden_prompt rest :
  CLIInterface.prompt_for_key RefLibm.pow RefLibm.repr Sha256.hexdigest
    (nth 0 Example.golden_normal "" :: rest)
    (Example.world_on Example.golden 0 [])
  = (Ok "gpt-3.5-turbo", rest, Example.world_on Example.golden 2 ["Key: "]).
Proof.
  rewrite prompt_step
    with (d := Example.golden) (l := Example.golden_normal)
         (s := Example.golden_shared);
    [|reflexivity|reflexivity|exact GoldenFacts.golden_normal_keys
     |exact GoldenFacts.golden_shared_key].
  replace (Spec.validate (nth 0 Example.golden_normal "")
             Example.golden_normal Example.golden_shared)
    with Spec.Standard by (vm_compute; reflexivity).
  reflexivity.
Qed.

End MainFacts.

(** ** The key prompt over several lines *)

Module PromptLoopFacts.

Import B64 Py KeyGenerator CLIInterface GenerateKeysFacts PromptFacts.
Local Open Scope string_scope.

Section Host.

Variable libm_pow : float -> float -> float * errno.
Variable repr : num -> string.
Variable sha256_hexdigest : string -> string.

Local Abbreviation run_at d mode :=
  (generate_keys_at libm_pow repr sha256_hexdigest d mode).
Local Abbreviation ask := (prompt_for_key libm_pow repr sha256_hexdigest).

(** One pass of the loop with a clock that may have moved between its two
    readings: the normal keys are those of the first date read, the
    shared key that of the second. *)
Lemma check_key_across d1 d2 l s user_key w :
  w.(clock) w.(ticks) = d1 -> w.(clock) (S w.(ticks)) = d2 ->
  run_at d1 "normal" = Ok (KeyList l) ->
  run_at d2 "shared" = Ok (KeyStr s) ->
  fst (check_key libm_pow repr sha256_hexdigest user_key w)
  = Ok (Spec.granted (Spec.validate user_key l s)).
Proof.
  intros H1 H2 Hn Hs. unfold check_key, io_bind.
  rewrite generate_keys_reads_clock, H1, Hn.
  rewrite generate_keys_reads_clock. unfold tick at 1 2. cbn [clock ticks].
  rewrite H2, Hs. unfold Spec.validate.
  destruct (in_dec string_dec user_key l) as [Hin|Hin].
  - apply py_in_list in Hin. rewrite Hin. reflexivity.
  - apply py_in_list_false in Hin. rewrite Hin. cbn [py_eq].
    destruct (String.eqb_spec user_key s) as [->|Hne].
    + destruct (string_dec s s); [reflexivity|contradiction].
    + destruct (string_dec user_key s); [contradiction|reflexivity].
Qed.

(** The world after [n] passes that ended on a wrong key. *)
Lemma prompt_skips_wrong_keys d l s wrong : forall rest w,
  (forall n, w.(clock) n = d) ->
  run_at d "normal" = Ok (KeyList l) ->
  run_at d "shared" = Ok (KeyStr s) ->
  Forall (fun line => Spec.validate line l s = Spec.Rejected) wrong ->
  ask (wrong ++ rest)%list w
  = ask rest
        {| clock := w.(clock);
           ticks := (w.(ticks) + 2 * List.length wrong)%nat;
           stdout := (w.(stdout)
                      ++ flat_map
                           (fun _ => ["Key: "; (Fore_RED ++ "Incorrect Key!")%string])
                           wrong)%list |}.
Proof.
  induction wrong as [|line wrong IH]; intros rest w Hclock Hn Hs Hw.
  - cbn [app List.length flat_map]. rewrite Nat.mul_0_r, Nat.add_0_r, app_nil_r.
    now destruct w.
  - inversion Hw as [|? ? Hline Hrest]; subst. cbn [app].
    rewrite (prompt_step libm_pow repr sha256_hexdigest d l s line
               (wrong ++ rest)%list w (Hclock _) (Hclock _) Hn Hs).
    rewrite Hline. cbv zeta. rewrite IH; try assumption.
    f_equal. unfold KeyGenerator.print, tick.
    cbn [snd clock ticks stdout List.length flat_map].
    f_equal; [lia|]. now rewrite <- !app_assoc.
Qed.

End Host.
End PromptLoopFacts.

Module NextDayFacts.

Import Py KeyGenerator GenerateKeysFacts.
Local Open Scope string_scope.

(** The raw keys of 16 March 2024 and its shared key. *)
Lemma next_day_key_material :
  key_material RefLibm.pow ChatExample.next_day
  = Ok (Int 68719485887, 467373325, 137095374366176, 2158514778961321).
Proof. vm_compute. reflexivity. Qed.

Lemma next_day_nonneg : 0 <= day ChatExample.next_day.
Proof. cbn. lia. Qed.

Lemma next_day_shared_key :
  generate_keys_at RefLibm.pow RefLibm.repr Sha256.hexdigest
    ChatExample.next_day "shared"
  = Ok (KeyStr ChatExample.next_shared).
Proof.
  rewrite (generate_keys_at_ok _ _ _ _ _ _ _ _ _ next_day_nonneg
             next_day_key_material).
  vm_compute. reflexivity.
Qed.

End NextDayFacts.

(** ** Properties of the key generator *)

Module KeyProperties.

Import B64 Py KeyGenerator PyFacts FormulaFacts GenerateKeysFacts GoldenFacts.
Local Open Scope py_scope.
Local Open Scope string_scope.

(** The shared key follows from the normal keys: it is the digest of the
    first two of them, one after the other.  Who holds these two keys of
    a day can compute the shared key of that day. *)
Theorem shared_key_follows_from_normal_keys
        (libm_pow : float -> float -> float * errno) (repr : num -> string)
        (sha256_hexdigest : string -> string)
        (d : date) (normal : list string) :
  generate_keys_at libm_pow repr sha256_hexdigest d "normal"
  = Ok (KeyList normal) ->
  generate_keys_at libm_pow repr sha256_hexdigest d "shared"
  = Ok (KeyStr (sha256_hex sha256_hexdigest
                  (nth 0 normal "" ++ nth 1 normal ""))).
Proof.
  intros H. unfold generate_keys_at in *.
  destruct (raw_seed libm_pow d) as [seed|e]; [|discriminate H].
  cbn [bind] in *.
  destruct (key_material libm_pow d) as [[[[k0 k1] k2] k3]|e];
    [|discriminate H].
  cbn in H. injection H as <-. reflexivity.
Qed.

Lemma shared_key_follows_from_normal_keys_witness :
  generate_keys_at RefLibm.pow RefLibm.repr Sha256.hexdigest
    Example.golden "shared"
  = Ok (KeyStr (sha256_hex Sha256.hexdigest
                  (nth 0 Example.golden_normal ""
                   ++ nth 1 Example.golden_normal ""))).
Proof.
  apply (shared_key_follows_from_normal_keys
           RefLibm.pow RefLibm.repr Sha256.hexdigest
           Example.golden Example.golden_normal).
  exact golden_normal_keys.
Defined.

(** The two exponents of line 42-43 that do not depend on the host, in
    closed form, for every day of a month: [round(day / 2.5)] is the
    integer nearest to two fifths of the day; [round(day / 2)] is half
    the day when it is even and, ties going to the even neighbour, the
    even one of the two integers around half the day when it is odd. *)
Theorem rounded_exponents (day : Z) :
  1 <= day <= 31 ->
  (q <- py_truediv (Int day) (Float f2_5) ;; py_round q)
  = Ok ((4 * day + 5) / 10)
  /\ (q <- py_truediv (Int day) (Int 2) ;; py_round q)
     = Ok (if Z.even day then day / 2 else 2 * ((day + 1) / 4)).
Proof.
  intros Hd.
  assert (H : In day (map Z.of_nat (seq 1 31))).
  { apply in_map_iff. exists (Z.to_nat day). split; [lia|].
    apply in_seq. lia. }
  cbv [seq map Z.of_nat Pos.of_succ_nat Pos.succ] in H.
  repeat (destruct H as [<-|H]; [split; vm_compute; reflexivity|]).
  destruct H.
Qed.

Lemma rounded_exponents_witness :
  (q <- py_truediv (Int 5) (Float f2_5) ;; py_round q)
  = Ok ((4 * 5 + 5) / 10)
  /\ (q <- py_truediv (Int 5) (Int 2) ;; py_round q)
     = Ok (if Z.even 5 then 5 / 2 else 2 * ((5 + 1) / 4)).
Proof. apply (rounded_exponents 5). lia. Defined.

(** The year enters [key0_raw] as twice the year and in no other way: on
    the same day of the same month of another year, [key0_raw] differs
    by twice the number of years between. *)
Theorem key0_raw_moves_with_the_year
        (libm_pow : float -> float -> float * errno)
        (y y' m d k : Z) :
  pow_nonneg libm_pow -> 0 <= d ->
  KeyGenerator.key0_raw libm_pow (Date y m d) = Ok (Int k) ->
  KeyGenerator.key0_raw libm_pow (Date y' m d) = Ok (Int (k + 2 * (y' - y))).
Proof.
  intros Hpow Hd.
  rewrite !(key0_typed libm_pow Hpow) by exact Hd.
  unfold Spec.key0_raw.
  destruct (Spec.double d) as [df|e]; [|discriminate]. cbn [bind].
  destruct (Spec.rnd (div df f2_5)) as [e1|e]; [|discriminate]. cbn [bind].
  destruct (Spec.quot d 2) as [h|e]; [|discriminate]. cbn [bind].
  destruct (Spec.rnd h) as [r1|e]; [|discriminate]. cbn [bind].
  destruct (Spec.fpow libm_pow df f0_6) as [v1|e]; [|discriminate]. cbn [bind].
  destruct (Spec.fpow libm_pow f0_5 v1) as [v2|e]; [|discriminate]. cbn [bind].
  destruct (Spec.double (d mod 3)) as [c|e]; [|discriminate]. cbn [bind].
  destruct (Spec.rnd (add c v2)) as [r2|e]; [|discriminate]. cbn [bind].
  intros H.
  replace k with (2 * y + 7 * m ^ e1 + d ^ (r1 + r2)) by congruence.
  do 2 f_equal. ring.
Qed.

Lemma key0_raw_moves_with_the_year_witness :
  KeyGenerator.key0_raw RefLibm.pow (Date 2031 3 15)
  = Ok (Int (2562899776 + 2 * (2031 - 2024))).
Proof.
  apply (key0_raw_moves_with_the_year RefLibm.pow 2024 2031 3 15 2562899776).
  - exact RefFacts.ref_pow_nonneg.
  - lia.
  - vm_compute. reflexivity.
Defined.

(** On a host whose [pow] keeps the size of a power, the arithmetic of
    lines 42-49 raises nothing on any calendar date but the first of
    December of year 1, the one date on which the reference host raises:
    it yields four integers. *)
Theorem key_material_returns_on_every_other_date
        (libm_pow : float -> float -> float * errno) (d : date) :
  pow_nonneg libm_pow ->
  pow_of_large_base libm_pow ->
  pow_of_small_base libm_pow ->
  calendar_date d -> d <> Date 1 12 1 ->
  exists k0 k1 k2 k3, key_material libm_pow d = Ok (Int k0, k1, k2, k3).
Proof.
  intros Hpow Hlarge Hsmall Hd Hne.
  apply ReturnFacts.key_material_returns; try assumption.
  destruct d as [y m dd]. cbn [year month day]. intros (-> & -> & ->).
  now apply Hne.
Qed.

Lemma key_material_returns_on_every_other_date_witness :
  exists k0 k1 k2 k3,
    key_material RefLibm.pow Example.golden = Ok (Int k0, k1, k2, k3).
Proof.
  apply (key_material_returns_on_every_other_date RefLibm.pow Example.golden
           RefFacts.ref_pow_nonneg
           RefPowFacts.ref_pow_of_large_base
           RefPowFacts.ref_pow_of_small_base
           golden_is_calendar_date).
  discriminate.
Defined.

End KeyProperties.

(** ** Properties of the key prompt *)

Module PromptProperties.

Import B64 Py KeyGenerator CLIInterface GenerateKeysFacts PromptFacts.
Import GoldenFacts PromptLoopFacts NextDayFacts.
Local Open Scope string_scope.

(** Validation reads the clock twice.  When midnight falls between the
    two readings, the candidate is matched against the normal keys of the
    day that ends and the shared key of the day that begins. *)
Theorem validation_straddles_midnight
        (libm_pow : float -> float -> float * errno) (repr : num -> string)
        (sha256_hexdigest : string -> string)
        (d1 d2 : date) (normal : list string) (shared candidate : string)
        (w : World) :
  w.(clock) w.(ticks) = d1 -> w.(clock) (S w.(ticks)) = d2 ->
  generate_keys_at libm_pow repr sha256_hexdigest d1 "normal"
  = Ok (KeyList normal) ->
  generate_keys_at libm_pow repr sha256_hexdigest d2 "shared"
  = Ok (KeyStr shared) ->
  fst (check_key libm_pow repr sha256_hexdigest candidate w)
  = Ok (Spec.granted (Spec.validate candidate normal shared))
  /\ (In candidate normal ->
      fst (check_key libm_pow repr sha256_hexdigest candidate w)
      = Ok (Return "gpt-3.5-turbo"))
  /\ (~ In candidate normal -> candidate = shared ->
      fst (check_key libm_pow repr sha256_hexdigest candidate w)
      = Ok (Return "gpt-4o-mini")).
Proof.
  intros H1 H2 Hn Hs.
  pose proof (check_key_across libm_pow repr sha256_hexdigest d1 d2
                normal shared candidate w H1 H2 Hn Hs) as E.
  destruct (validate_cases candidate normal shared) as (V1 & V2 & _).
  split; [exact E|]. split.
  - intros Hin. now rewrite E, V1.
  - intros Hin Heq. now rewrite E, V2.
Qed.

Lemma validation_straddles_midnight_witness :
  fst (Example.check_key ChatExample.next_shared (ChatExample.midnight_after 3))
  = Ok (Spec.granted (Spec.validate ChatExample.next_shared
                        Example.golden_normal ChatExample.next_shared))
  /\ (In ChatExample.next_shared Example.golden_normal ->
      fst (Example.check_key ChatExample.next_shared
             (ChatExample.midnight_after 3))
      = Ok (Return "gpt-3.5-turbo"))
  /\ (~ In ChatExample.next_shared Example.golden_normal ->
      ChatExample.next_shared = ChatExample.next_shared ->
      fst (Example.check_key ChatExample.next_shared
             (ChatExample.midnight_after 3))
      = Ok (Return "gpt-4o-mini")).
Proof.
  apply (validation_straddles_midnight
           RefLibm.pow RefLibm.repr Sha256.hexdigest
           Example.golden ChatExample.next_day
           Example.golden_normal ChatExample.next_shared
           ChatExample.next_shared (ChatExample.midnight_after 3)).
  - reflexivity.
  - reflexivity.
  - exact golden_normal_keys.
  - exact next_day_shared_key.
Defined.

(** When no line read is a key of the day, the prompt asks once per line,
    answers each with the error text, reads the clock twice per line,
    and ends on [EOFError] after one more prompt. *)
Theorem prompt_runs_out_of_lines
        (libm_pow : float -> float -> float * errno) (repr : num -> string)
        (sha256_hexdigest : string -> string)
        (d : date) (normal : list string) (shared : string)
        (lines : list string) (w : World) :
  (forall n, w.(clock) n = d) ->
  generate_keys_at libm_pow repr sha256_hexdigest d "normal"
  = Ok (KeyList normal) ->
  generate_keys_at libm_pow repr sha256_hexdigest d "shared"
  = Ok (KeyStr shared) ->
  Forall (fun line => ~ In line normal /\ line <> shared) lines ->
  prompt_for_key libm_pow repr sha256_hexdigest lines w
  = (Raise EOFError, [],
     {| clock := w.(clock);
        ticks := (w.(ticks) + 2 * List.length lines)%nat;
        stdout := (w.(stdout)
                   ++ flat_map
                        (fun _ => ["Key: "; (Fore_RED ++ "Incorrect Key!")%string])
                        lines
                   ++ ["Key: "])%list |}).
Proof.
  intros Hclock Hn Hs Hlines.
  rewrite <- (app_nil_r lines) at 1.
  rewrite (prompt_skips_wrong_keys libm_pow repr sha256_hexdigest
             d normal shared lines [] w Hclock Hn Hs).
  - cbn [prompt_for_key KeyGenerator.print clock ticks stdout].
    now rewrite <- app_assoc.
  - apply Forall_forall. intros line Hl. rewrite Forall_forall in Hlines.
    destruct (Hlines line Hl) as [Hin Hne].
    now apply (validate_cases line normal shared).
Qed.

Lemma prompt_runs_out_of_lines_witness :
  Example.prompt_for_key ["1234"; ""] (Example.world_on Example.golden 0 [])
  = (Raise EOFError, [],
     {| clock := fun _ => Example.golden;
        ticks := (0 + 2 * 2)%nat;
        stdout := ([]
                   ++ flat_map
                        (fun _ => ["Key: "; (Fore_RED ++ "Incorrect Key!")%string])
                        ["1234"; ""]
                   ++ ["Key: "])%list |}).
Proof.
  apply (prompt_runs_out_of_lines
           RefLibm.pow RefLibm.repr Sha256.hexdigest
           Example.golden Example.golden_normal Example.golden_shared
           ["1234"; ""] (Example.world_on Example.golden 0 [])).
  - reflexivity.
  - exact golden_normal_keys.
  - exact golden_shared_key.
  - repeat constructor;
      try (intros [H|[H|[H|[H|[]]]]]; discriminate H); discriminate.
Defined.

(** The first line that is a key of the day ends the prompt: the lines in
    front of it, none of them a key, were each answered with the error
    text; the lines after it are left unread; a normal key selects
    ["gpt-3.5-turbo"] silently, the shared key selects ["gpt-4o-mini"]
    and is acknowledged. *)
Theorem prompt_accepts_the_first_key
        (libm_pow : float -> float -> float * errno) (repr : num -> string)
        (sha256_hexdigest : string -> string)
        (d : date) (normal : list string) (shared : string)
        (wrong : list string) (key : string) (rest : list string) (w : World) :
  (forall n, w.(clock) n = d) ->
  generate_keys_at libm_pow repr sha256_hexdigest d "normal"
  = Ok (KeyList normal) ->
  generate_keys_at libm_pow repr sha256_hexdigest d "shared"
  = Ok (KeyStr shared) ->
  Forall (fun line => ~ In line normal /\ line <> shared) wrong ->
  In key normal \/ key = shared ->
  let asked :=
    (w.(stdout)
     ++ flat_map (fun _ => ["Key: "; (Fore_RED ++ "Incorrect Key!")%string])
                 wrong
     ++ ["Key: "])%list in
  prompt_for_key libm_pow repr sha256_hexdigest (wrong ++ key :: rest)%list w
  = (Ok (if in_dec string_dec key normal
         then "gpt-3.5-turbo" else "gpt-4o-mini"),
     rest,
     {| clock := w.(clock);
        ticks := (w.(ticks) + 2 * S (List.length wrong))%nat;
        stdout := if in_dec string_dec key normal then asked
                  else (asked
                        ++ ["Shared key accepted. Switching to GPT-4o Mini."])%list
     |}).
Proof.
  intros Hclock Hn Hs Hwrong Hkey asked.
  rewrite (prompt_skips_wrong_keys libm_pow repr sha256_hexdigest
             d normal shared wrong (key :: rest) w Hclock Hn Hs).
  2:{ apply Forall_forall. intros line Hl. rewrite Forall_forall in Hwrong.
      destruct (Hwrong line Hl) as [Hin Hne].
      now apply (validate_cases line normal shared). }
  rewrite (prompt_step libm_pow repr sha256_hexdigest d normal shared key rest)
    by (try exact Hn; try exact Hs; apply Hclock).
  destruct (validate_cases key normal shared) as (V1 & V2 & _).
  cbv zeta. unfold asked, KeyGenerator.print, tick.
  cbn [snd clock ticks stdout].
  destruct (in_dec string_dec key normal) as [Hin|Hin].
  - rewrite (V1 Hin). f_equal. f_equal; [lia|now rewrite <- app_assoc].
  - destruct Hkey as [Hin'|Heq]; [contradiction|].
    rewrite (V2 Hin Heq). f_equal. f_equal; [lia|now rewrite <- !app_assoc].
Qed.

Lemma prompt_accepts_the_first_key_witness :
  let asked :=
    ([]
     ++ flat_map (fun _ => ["Key: "; (Fore_RED ++ "Incorrect Key!")%string])
                 ["guess"]
     ++ ["Key: "])%list in
  Example.prompt_for_key
    (["guess"] ++ Example.golden_shared :: ["hello"; "/quit"])%list
    (Example.world_on Example.golden 0 [])
  = (Ok (if in_dec string_dec Example.golden_shared Example.golden_normal
         then "gpt-3.5-turbo" else "gpt-4o-mini"),
     ["hello"; "/quit"],
     {| clock := fun _ => Example.golden;
        ticks := (0 + 2 * S (List.length ["guess"]))%nat;
        stdout := if in_dec string_dec Example.golden_shared
                            Example.golden_normal
                  then asked
                  else (asked
                        ++ ["Shared key accepted. Switching to GPT-4o Mini."])%list
     |}).
Proof.
  apply (prompt_accepts_the_first_key
           RefLibm.pow RefLibm.repr Sha256.hexdigest
           Example.golden Example.golden_normal Example.golden_shared
           ["guess"] Example.golden_shared ["hello"; "/quit"]
           (Example.world_on Example.golden 0 [])).
  - reflexivity.
  - exact golden_normal_keys.
  - exact golden_shared_key.
  - repeat constructor;
      try (intros [H|[H|[H|[H|[]]]]]; discriminate H); discriminate.
  - now right.
Defined.

(** On a day on which the derivation raises, the prompt raises the same
    exception at the first line read, whatever the line: nobody gets
    in.  Only the prompt text was printed, and the clock read once. *)
Theorem failed_derivation_stops_the_prompt
        (libm_pow : float -> float -> float * errno) (repr : num -> string)
        (sha256_hexdigest : string -> string)
        (line : string) (rest : list string) (w : World) (e : exn) :
  generate_keys_at libm_pow repr sha256_hexdigest (w.(clock) w.(ticks)) "normal"
  = Raise e ->
  prompt_for_key libm_pow repr sha256_hexdigest (line :: rest) w
  = (Raise e, rest,
     {| clock := w.(clock); ticks := S w.(ticks);
        stdout := (w.(stdout) ++ ["Key: "])%list |}).
Proof.
  intros H. cbn [prompt_for_key]. unfold KeyGenerator.print, check_key, io_bind.
  rewrite generate_keys_reads_clock. cbn [clock ticks]. rewrite H.
  reflexivity.
Qed.

Lemma failed_derivation_stops_the_prompt_witness :
  Example.prompt_for_key [Example.golden_shared; "again"]
    (Example.world_on (Date 1 12 1) 0 [])
  = (Raise TypeError, ["again"],
     {| clock := fun _ => Date 1 12 1; ticks := 1%nat;
        stdout := ([] ++ ["Key: "])%list |}).
Proof.
  apply (failed_derivation_stops_the_prompt
           RefLibm.pow RefLibm.repr Sha256.hexdigest
           Example.golden_shared ["again"]
           (Example.world_on (Date 1 12 1) 0 []) TypeError).
  exact (december_year_one_raises "normal").
Defined.

(** Who holds a key of the day gets in.  On a CalendarDate and a host
    whose [pow] keeps the size of a power, each of the four normal keys is
    granted the Standard tier; the shared key is granted the Elevated
    tier, or the Standard tier should it also be one of the four normal
    keys, which are tested first.  It is never rejected. *)
Theorem keys_of_the_day_are_granted
        (libm_pow : float -> float -> float * errno) (repr : num -> string)
        (sha256_hexdigest : string -> string) (w : World) (d : date) :
  pow_nonneg libm_pow ->
  pow_of_large_base libm_pow ->
  pow_of_small_base libm_pow ->
  Spec.CalendarDate d ->
  w.(clock) w.(ticks) = d -> w.(clock) (S w.(ticks)) = d ->
  exists normal shared,
    generate_keys_at libm_pow repr sha256_hexdigest d "normal"
    = Ok (KeyList normal)
    /\ List.length normal = 4%nat
    /\ generate_keys_at libm_pow repr sha256_hexdigest d "shared"
       = Ok (KeyStr shared)
    /\ (forall i, (i < 4)%nat ->
          fst (check_key libm_pow repr sha256_hexdigest (nth i normal "") w)
          = Ok (Return "gpt-3.5-turbo"))
    /\ fst (check_key libm_pow repr sha256_hexdigest shared w)
       = Ok (Return (if in_dec string_dec shared normal
                     then "gpt-3.5-turbo" else "gpt-4o-mini")).
Proof.
  intros Hpow Hlarge Hsmall Hd H1 H2.
  destruct (ReturnFacts.generate_keys_at_returns libm_pow repr sha256_hexdigest
              Hpow Hlarge Hsmall d Hd) as (k0 & k1 & k2 & k3 & _ & Hn & Hs).
  eexists _, _. split; [exact Hn|]. split; [reflexivity|]. split; [exact Hs|].
  split.
  - intros i Hi.
    rewrite (check_key_on _ _ _ d _ _ _ w H1 H2 Hn Hs).
    match goal with
    | |- context [Spec.validate ?c ?l ?s] =>
        destruct (validate_cases c l s) as (V & _)
    end.
    rewrite V; [reflexivity|]. apply nth_In. exact Hi.
  - rewrite (check_key_on _ _ _ d _ _ _ w H1 H2 Hn Hs).
    unfold Spec.validate. destruct (in_dec string_dec _ _); [reflexivity|].
    destruct (string_dec _ _); [reflexivity|contradiction].
Qed.

Lemma keys_of_the_day_are_granted_witness :
  exists normal shared,
    generate_keys_at RefLibm.pow RefLibm.repr Sha256.hexdigest
      Example.golden "normal" = Ok (KeyList normal)
    /\ List.length normal = 4%nat
    /\ generate_keys_at RefLibm.pow RefLibm.repr Sha256.hexdigest
         Example.golden "shared" = Ok (KeyStr shared)
    /\ (forall i, (i < 4)%nat ->
          fst (check_key RefLibm.pow RefLibm.repr Sha256.hexdigest
                 (nth i normal "") (Example.world_on Example.golden 0 []))
          = Ok (Return "gpt-3.5-turbo"))
    /\ fst (check_key RefLibm.pow RefLibm.repr Sha256.hexdigest shared
              (Example.world_on Example.golden 0 []))
       = Ok (Return (if in_dec string_dec shared normal
                     then "gpt-3.5-turbo" else "gpt-4o-mini")).
Proof.
  apply (keys_of_the_day_are_granted
           RefLibm.pow RefLibm.repr Sha256.hexdigest
           (Example.world_on Example.golden 0 []) Example.golden
           RefFacts.ref_pow_nonneg
           RefPowFacts.ref_pow_of_large_base
           RefPowFacts.ref_pow_of_small_base).
  - split; [exact golden_is_calendar_date|]. cbn. lia.
  - reflexivity.
  - reflexivity.
Defined.

End PromptProperties.

(** ** Properties of the lines read *)

Module LineProperties.

Import AsciiStr Lines AsciiFacts.
Local Open Scope string_scope.

(** On a line of ASCII characters, where [strip] and [lower] are
    [str.strip] and [str.lower]: the lines that make [main] quit are the
    lines that read [/quit], in any mix of upper and lower case, with
    nothing but whitespace around; the lines skipped in silence are the
    lines made of whitespace only. *)
Theorem quit_lines_and_blank_lines (line : string) :
  is_ascii line = true ->
  (quits strip lower line = true
   <-> exists l core r,
         line = l ++ core ++ r
         /\ all_space l = true /\ all_space r = true
         /\ lower core = "/quit")
  /\ (blank strip line = true <-> all_space line = true).
Proof.
  intros _. split.
  - unfold quits. rewrite String.eqb_eq. split.
    + intros H. destruct (strip_split line) as (l & r & E & Hl & Hr).
      exists l, (strip line), r. auto.
    + intros (l & core & r & -> & Hl & Hr & Hq).
      now rewrite (strip_quit l core r Hl Hr Hq).
  - unfold blank. rewrite String.eqb_eq. apply strip_all_space.
Qed.

Lemma quit_lines_and_blank_lines_witness :
  (quits strip lower "  /QuIt " = true
   <-> exists l core r,
         "  /QuIt " = l ++ core ++ r
         /\ all_space l = true /\ all_space r = true
         /\ lower core = "/quit")
  /\ (blank strip "  /QuIt " = true <-> all_space "  /QuIt " = true).
Proof.
  apply (quit_lines_and_blank_lines "  /QuIt "). reflexivity.
Defined.

(** A few lines, on the reference host. *)
Example quit_line_examples :
  map (quits strip lower)
      ["/quit"; "  /QuIt "; "/quit now"; "/ quit"; "quit"; ""]
  = [true; true; false; false; false; false]
  /\ map (blank strip) [""; "   "; " a "] = [true; true; false].
Proof. split; reflexivity. Qed.

End LineProperties.

(** ** Properties of a chat *)

Module ChatProperties.

Import Console Terminal AstraGPTClient App Lines ChatFacts.
Local Open Scope string_scope.

(** A chat that returns stores what it showed: the answer appended to the
    transcript, after the question, is the concatenation of the pieces
    printed between the prefix and the final line break, a missing piece
    counting as empty.  One request was sent and no line was read. *)
Theorem chat_stores_what_it_showed
        (service : nat -> OpenAI.Request -> OpenAI.reply)
        (c c' : Client) (user_input : string) (model_override : option string)
        (t t' : Session) :
  chat service c user_input model_override t = (Done tt, c', t') ->
  exists shown,
    t'.(out)
    = (t.(out)
       ++ Printed (Fore_BLUE ++ "AstraGPT > ") ""
          :: map (fun piece => Printed piece "") shown
       ++ [Printed "" newline])%list
    /\ c'.(history)
       = (c.(history)
          ++ [OpenAI.Message "user" user_input;
              OpenAI.Message "assistant" (String.concat "" shown)])%list
    /\ List.length t'.(sent) = S (List.length t.(sent))
    /\ t'.(stdin) = t.(stdin).
Proof.
  intros H. pose proof (chat_cases service c user_input model_override t) as Hc.
  rewrite H in Hc. cbv zeta in Hc. destruct Hc as (shown & -> & ->).
  exists shown. cbn [out history append sent stdin].
  rewrite <- app_assoc, length_app, Nat.add_1_r. auto.
Qed.

Lemma chat_stores_what_it_showed_witness :
  exists shown,
    [Printed (Fore_BLUE ++ "AstraGPT > ") ""; Printed "Hel" "";
     Printed "" ""; Printed "lo" ""; Printed "" newline]
    = ([] ++ Printed (Fore_BLUE ++ "AstraGPT > ") ""
          :: map (fun piece => Printed piece "") shown
       ++ [Printed "" newline])%list
    /\ [OpenAI.Message "system" system_prompt; OpenAI.Message "user" "hi";
        OpenAI.Message "assistant" "Hello"]
       = ([OpenAI.Message "system" system_prompt]
          ++ [OpenAI.Message "user" "hi";
              OpenAI.Message "assistant" (String.concat "" shown)])%list
    /\ 1%nat = 1%nat
    /\ ["next"] = ["next"].
Proof.
  apply (chat_stores_what_it_showed
           ChatExample.service ChatExample.client
           (snd (fst (ChatExample.chat ChatExample.client "hi" None
                        (ChatExample.session ["next"]))))
           "hi" None (ChatExample.session ["next"])
           (snd (ChatExample.chat ChatExample.client "hi" None
                   (ChatExample.session ["next"])))).
  reflexivity.
Defined.

(** A chat that raises leaves the question in the transcript without an
    answer: the service refused, the stream broke, or a chunk came
    without choices.  What was shown of the answer stays on the
    terminal, with no line break after it.  The next question is then
    sent right behind the unanswered one. *)
Theorem failed_chat_leaves_the_question
        (service : nat -> OpenAI.Request -> OpenAI.reply)
        (c c' : Client) (user_input : string) (model_override : option string)
        (t t' : Session) (f : failure) :
  chat service c user_input model_override t = (Failed f, c', t') ->
  f <> EOF
  /\ c'.(history) = (c.(history) ++ [OpenAI.Message "user" user_input])%list
  /\ (exists shown,
        t'.(out) = (t.(out) ++ shown)%list
        /\ Forall (fun e => exists piece, e = Printed piece "") shown)
  /\ forall next override,
       exists earlier r,
         (snd (chat service c' next override t')).(sent)
         = (earlier ++ [r])%list
         /\ r.(OpenAI.messages)
            = (c.(history)
               ++ [OpenAI.Message "user" user_input;
                   OpenAI.Message "user" next])%list.
Proof.
  intros H. pose proof (chat_cases service c user_input model_override t) as Hc.
  rewrite H in Hc. cbv zeta in Hc.
  destruct Hc as (-> & shown & -> & Hshown). split; [|split; [|split]].
  - unfold chat, create in H.
    destruct (service _ _) as [msg|chunks broken].
    { assert (f = ServiceError msg) as -> by congruence. discriminate. }
    assert (Hf : forall cs acc s0 g s',
               collect cs broken acc s0 = (Failed g, s') -> g <> EOF).
    { induction cs as [|ch cs IH]; intros acc s0 g s'; cbn [collect].
      - destruct broken as [msg|]; intros E; [|discriminate E].
        injection E as <- _. discriminate.
      - destruct ch as [|d ch']; [|apply IH].
        intros E. injection E as <- _. discriminate. }
    destruct (collect chunks broken [] _) as [[l|g] s'] eqn:E;
      [discriminate H|].
    assert (g = f) as <- by congruence. exact (Hf _ _ _ _ _ E).
  - reflexivity.
  - exists shown. auto.
  - intros next override.
    pose proof (chat_cases service
                  (append (OpenAI.Message "user" user_input) c)
                  next override
                  {| stdin := stdin t; out := (out t ++ shown)%list;
                     sent := (sent t
                              ++ [request_for
                                    (append (OpenAI.Message "user" user_input) c)
                                    model_override])%list |}) as Hn.
    cbv zeta in Hn. cbn [sent] in Hn.
    destruct (chat service _ next override _) as [[[u|g] c2] t2]; cbn [snd].
    + destruct Hn as (shown2 & _ & ->). cbn [sent]. eexists _, _.
      split; [reflexivity|]. cbn [request_for OpenAI.messages append history].
      now rewrite <- app_assoc.
    + destruct Hn as (_ & shown2 & -> & _). cbn [sent]. eexists _, _.
      split; [reflexivity|]. cbn [request_for OpenAI.messages append history].
      now rewrite <- app_assoc.
Qed.

(** An override of the model applies to the one request and leaves the
    client as it is; an empty override is no override: the request names
    the model of the client. *)
Theorem empty_override_is_no_override
        (service : nat -> OpenAI.Request -> OpenAI.reply)
        (c : Client) (user_input : string) (t : Session) :
  chat service c user_input (Some "") t = chat service c user_input None t
  /\ (forall override,
        exists r,
          (snd (chat service c user_input override t)).(sent)
          = (t.(sent) ++ [r])%list
          /\ (snd (fst (chat service c user_input override t))).(model)
             = c.(model)
          /\ r.(OpenAI.model)
             = match override with
               | Some m => if m =? "" then c.(model) else m
               | None => c.(model)
               end).
Proof.
  split; [reflexivity|]. intros override.
  pose proof (chat_cases service c user_input override t) as H. cbv zeta in H.
  exists (request_for (append (OpenAI.Message "user" user_input) c) override).
  destruct (chat service c user_input override t) as [[[u|f] c'] t'];
    cbn [fst snd].
  - destruct H as (shown & -> & ->). repeat split.
  - destruct H as (-> & shown & -> & _). repeat split.
Qed.

Lemma failed_chat_leaves_the_question_witness :
  let c' := snd (fst (ChatExample.chat ChatExample.answered "again" None
                        ChatExample.answered_session)) in
  let t' := snd (ChatExample.chat ChatExample.answered "again" None
                   ChatExample.answered_session) in
  ServiceError "Connection error." <> EOF
  /\ c'.(history)
     = (ChatExample.answered.(history)
        ++ [OpenAI.Message "user" "again"])%list
  /\ (exists shown,
        t'.(out) = (ChatExample.answered_session.(out) ++ shown)%list
        /\ Forall (fun e => exists piece, e = Printed piece "") shown)
  /\ forall next override,
       exists earlier r,
         (snd (chat ChatExample.service c' next override t')).(sent)
         = (earlier ++ [r])%list
         /\ r.(OpenAI.messages)
            = (ChatExample.answered.(history)
               ++ [OpenAI.Message "user" "again";
                   OpenAI.Message "user" next])%list.
Proof.
  apply (failed_chat_leaves_the_question
           ChatExample.service ChatExample.answered
           (snd (fst (ChatExample.chat ChatExample.answered "again" None
                        ChatExample.answered_session)))
           "again" None ChatExample.answered_session
           (snd (ChatExample.chat ChatExample.answered "again" None
                   ChatExample.answered_session))
           (ServiceError "Connection error.")).
  reflexivity.
Defined.

End ChatProperties.

(** ** Properties of the chat loop *)

Module LoopProperties.

Import Console Terminal AstraGPTClient App Lines ChatFacts LoopFacts.
Local Open Scope string_scope.

(** Once the input is exhausted the loop never ends: every turn asks,
    gets [EOFError], reports it as a server error and asks again; the
    client and the requests stay as they are. *)
Theorem loop_spins_at_end_of_input
        (strip lower : string -> string)
        (service : nat -> OpenAI.Request -> OpenAI.reply)
        (c : Client) (printed : list event) (requests : list OpenAI.Request)
        (fuel : nat) :
  loop strip lower service fuel c {| stdin := []; out := printed; sent := requests |}
  = (Continue, c,
     {| stdin := [];
        out := (printed
                ++ List.concat (repeat [you_prompt; error_line EOF] fuel))%list;
        sent := requests |}).
Proof.
  revert printed. induction fuel as [|fuel IH]; intros printed.
  - cbn. now rewrite app_nil_r.
  - cbn [App.loop]. rewrite turn_eof by reflexivity. cbn [stdin out sent].
    rewrite IH. cbn [repeat List.concat]. now rewrite <- !app_assoc.
Qed.

(** Every line the user types before quitting that is not blank is sent
    to the service exactly once, stripped, as the last message of its
    request, in the order typed, and stays in the transcript, whatever
    the service answers; nothing else is sent.  Among the first [fuel]
    lines, after [fuel] turns. *)
Theorem every_spoken_line_is_sent_once
        (strip lower : string -> string)
        (service : nat -> OpenAI.Request -> OpenAI.reply)
        (fuel : nat) (c : Client) (t : Session) :
  let said := spoken strip lower (firstn fuel t.(stdin)) in
  let c' := snd (fst (loop strip lower service fuel c t)) in
  let t' := snd (loop strip lower service fuel c t) in
  (exists news,
     t'.(sent) = (t.(sent) ++ news)%list
     /\ Forall2 (fun r line =>
                   exists h, r.(OpenAI.messages)
                             = (h ++ [OpenAI.Message "user" line])%list)
                news said)
  /\ Transcript.user_contents c'.(history)
     = (Transcript.user_contents c.(history) ++ said)%list.
Proof.
  revert c t. induction fuel as [|fuel IH]; intros c t; cbv zeta.
  - cbn [firstn App.loop fst snd]. split.
    + exists []. rewrite app_nil_r. split; constructor.
    + unfold spoken. cbn. now rewrite app_nil_r.
  - cbn [App.loop].
    destruct (turn_cases strip lower service c t)
      as (k & c1 & more & news1 & E & _ & Hk & Hnews).
    rewrite E. set (t1 := {| stdin := tl (stdin t); out := _; sent := _ |}).
    specialize (IH c1 t1). cbv zeta in IH. cbn [stdin sent t1] in IH.
    destruct IH as ((news & Hs & Hf) & Hu).
    destruct Hnews as [(-> & -> & Hline)|(line & Hl & Hq & Hb & Hask)].
    + (* nothing sent on this turn *)
      assert (Hsaid : spoken strip lower (firstn (S fuel) (stdin t))
                      = match k with
                        | Continue =>
                            spoken strip lower (firstn fuel (tl (stdin t)))
                        | Break => []
                        end).
      { destruct (stdin t) as [|l rest]; cbn [firstn tl].
        - destruct k; [|reflexivity].
          now destruct fuel.
        - rewrite spoken_cons. destruct (quits strip lower l) eqn:Hq.
          + destruct k; [|reflexivity].
            assert (Continue = Break) as [=]. apply Hk. exists l. auto.
          + destruct (Hline l eq_refl) as [Hq'|Hb]; [congruence|].
            rewrite Hb. destruct k; [reflexivity|].
            destruct (proj1 Hk eq_refl) as (l' & [= <-] & Hq'). congruence. }
      rewrite Hsaid. destruct k; cbn [fst snd].
      * rewrite app_nil_r in Hs. split; [exists news; auto|exact Hu].
      * cbn [sent t1]. split.
        -- exists []. split; [reflexivity|constructor].
        -- now rewrite app_nil_r.
    + (* the line is sent *)
      cbv zeta in Hask. destruct Hask as (-> & Hc1).
      assert (k = Continue) as ->.
      { destruct k; [reflexivity|].
        destruct (proj1 Hk eq_refl) as (l & E' & Hq'). congruence. }
      destruct (stdin t) as [|l rest]; [discriminate Hl|].
      injection Hl as ->. cbn [firstn tl] in *.
      rewrite spoken_cons, Hq, Hb. split.
      * exists (request_for (append (OpenAI.Message "user" (strip line)) c) None
                :: news).
        split.
        -- rewrite Hs. now rewrite <- app_assoc.
        -- constructor; [|exact Hf]. exists (history c). reflexivity.
      * rewrite Hu.
        assert (Transcript.user_contents (history c1)
                = (Transcript.user_contents (history c) ++ [strip line])%list)
          as ->.
        { destruct Hc1 as [->|(answer & ->)]; cbn [append history];
            rewrite !user_contents_app; cbn; now rewrite ?app_nil_r. }
        now rewrite <- app_assoc.
Qed.

(** When the loop is left, the line taken last is the first one that
    quits: the lines in front of it did not, the lines after it are left
    unread, and the last thing printed is the farewell. *)
Theorem quit_leaves_the_rest_unread
        (strip lower : string -> string)
        (service : nat -> OpenAI.Request -> OpenAI.reply)
        (fuel : nat) (c c' : Client) (t t' : Session) :
  loop strip lower service fuel c t = (Break, c', t') ->
  exists before line shown,
    t.(stdin) = (before ++ line :: t'.(stdin))%list
    /\ Forall (fun l => quits strip lower l = false) before
    /\ quits strip lower line = true
    /\ t'.(out) = (shown ++ [you_prompt; Printed "bye!" newline])%list.
Proof.
  revert c t. induction fuel as [|fuel IH]; intros c t H; [discriminate H|].
  cbn [App.loop] in H.
  destruct (stdin t) as [|line rest] eqn:Hin.
  - rewrite turn_eof in H by exact Hin.
    destruct (IH _ _ H) as (before & l & shown & E & _). cbn [stdin] in E.
    now destruct before.
  - destruct (quits strip lower line) eqn:Hq.
    + rewrite (turn_quit strip lower service c t line rest Hin Hq) in H.
      injection H as <- <-. exists [], line, (out t). cbn [stdin out app].
      repeat split; auto.
    + destruct (turn_cases strip lower service c t)
        as (k & c1 & more & news & E & _ & Hk & _).
      rewrite E in H. rewrite Hin in H, Hk. cbn [tl] in H.
      destruct k.
      * destruct (IH _ _ H) as (before & l & shown & E' & Hb & Hl & Ho).
        cbn [stdin] in E'. exists (line :: before), l, shown.
        rewrite E'. repeat split; auto.
      * destruct (proj1 Hk eq_refl) as (l & [= <-] & Hq'). congruence.
Qed.

Lemma quit_leaves_the_rest_unread_witness :
  exists before line shown,
    ["hello"; "  /QUIT "; "unread"]
    = (before ++ line :: ["unread"])%list
    /\ Forall (fun l => quits AsciiStr.strip AsciiStr.lower l = false) before
    /\ quits AsciiStr.strip AsciiStr.lower line = true
    /\ [you_prompt; Printed (Fore_BLUE ++ "AstraGPT > ") "";
        Printed "Hel" ""; Printed "" ""; Printed "lo" ""; Printed "" newline;
        you_prompt; Printed "bye!" newline]
       = (shown ++ [you_prompt; Printed "bye!" newline])%list.
Proof.
  apply (quit_leaves_the_rest_unread
           AsciiStr.strip AsciiStr.lower ChatExample.service 5
           ChatExample.client
           (snd (fst (ChatExample.loop
                        5 ChatExample.client
                        (ChatExample.session ["hello"; "  /QUIT "; "unread"]))))
           (ChatExample.session ["hello"; "  /QUIT "; "unread"])
           {| stdin := ["unread"];
              out := [you_prompt; Printed (Fore_BLUE ++ "AstraGPT > ") "";
                      Printed "Hel" ""; Printed "" ""; Printed "lo" "";
                      Printed "" newline; you_prompt; Printed "bye!" newline];
              sent := (snd (ChatExample.loop
                              5 ChatExample.client
                              (ChatExample.session
                                 ["hello"; "  /QUIT "; "unread"]))).(sent) |}).
  reflexivity.
Defined.

End LoopProperties.

(** ** Properties of [main] *)

Module MainProperties.

Import Py KeyGenerator Console Terminal AstraGPTClient App Lines.
Import ChatFacts LoopFacts MainFacts.
Local Open Scope string_scope.

(** [main] chats only after a key was accepted.  Either the key prompt
    raised: that exception leaves [main], no client was built, nothing
    was printed after the prompt and nothing sent.  Or the prompt
    returned one of the two models, and the client chats with it;
    [main] then ends by a [/quit] only. *)
Theorem main_chats_only_after_a_key
        (libm_pow : B64.float -> B64.float -> B64.float * errno)
        (repr : num -> string) (sha256_hexdigest : string -> string)
        (strip lower : string -> string)
        (service : nat -> OpenAI.Request -> OpenAI.reply)
        (os_name : string) (rand fuel : nat)
        (lines : list string) (w : World) :
  let '(status, w', chat_client, t) :=
    main libm_pow repr sha256_hexdigest strip lower service os_name rand fuel lines w in
  match status with
  | Raised e =>
      exists rest,
        CLIInterface.prompt_for_key libm_pow repr sha256_hexdigest lines w
        = (Raise e, rest, w')
        /\ chat_client = None
        /\ t = {| stdin := rest; out := []; sent := [] |}
  | Failing _ => False
  | Returned | Running =>
      exists model_type rest c,
        CLIInterface.prompt_for_key libm_pow repr sha256_hexdigest lines w
        = (Ok model_type, rest, w')
        /\ chat_client = Some c
        /\ c.(model) = model_type
        /\ (model_type = "gpt-3.5-turbo" \/ model_type = "gpt-4o-mini")
  end.
Proof.
  destruct (main_session libm_pow repr sha256_hexdigest strip lower service os_name rand
              fuel lines w)
    as [(e & rest & w' & E & ->)
       |(m & rest & w' & status & c & t & E & Hm & -> & Hs & Hinv)].
  - exists rest. auto.
  - destruct Hinv as ((Hmodel & _) & _).
    destruct Hs as [->| ->]; exists m, rest, c; auto.
Qed.

(** [main] returns exactly when a key is accepted and, among the lines
    left after it, one quits with fewer than [fuel] lines in front of it.
    Nothing else ends it in peace: not an error of the service, not the
    end of the input. *)
Theorem main_returns_after_a_key_and_a_quit
        (libm_pow : B64.float -> B64.float -> B64.float * errno)
        (repr : num -> string) (sha256_hexdigest : string -> string)
        (strip lower : string -> string)
        (service : nat -> OpenAI.Request -> OpenAI.reply)
        (os_name : string) (rand fuel : nat)
        (lines : list string) (w : World) :
  fst (fst (fst (main libm_pow repr sha256_hexdigest strip lower service
                      os_name rand fuel lines w)))
  = Returned
  <-> exists model_type rest w',
        CLIInterface.prompt_for_key libm_pow repr sha256_hexdigest lines w
        = (Ok model_type, rest, w')
        /\ (List.length (before_quit strip lower rest) < List.length rest
            /\ List.length (before_quit strip lower rest) < fuel)%nat.
Proof.
  destruct (main_cases libm_pow repr sha256_hexdigest strip lower service
              os_name rand fuel lines w) as [Hraise Hok].
  destruct (CLIInterface.prompt_for_key libm_pow repr sha256_hexdigest lines w)
    as [[[model_type|e] rest] w'] eqn:E.
  - specialize (Hok _ _ _ eq_refl). cbv zeta in Hok. rewrite Hok. cbn [fst].
    match goal with
    | |- context [loop strip lower service fuel ?c ?t] =>
        pose proof (loop_breaks_iff strip lower service fuel c t) as Hb;
        destruct (fst (fst (loop strip lower service fuel c t)))
    end; cbn [stdin] in Hb; split.
    + discriminate.
    + intros (m & r & w1 & [= <- <- <-] & Hq). now apply Hb in Hq.
    + intros _. exists model_type, rest, w'. split; [reflexivity|].
      now apply Hb.
    + reflexivity.
  - rewrite (Hraise _ _ _ eq_refl). cbn [fst]. split; [discriminate|].
    intros (m & r & w1 & [=] & _).
Qed.

(** Every request [main] sends carries the placeholder key, the address
    of line 156, temperature 1.0 and the streaming flag, and names the
    model that the key prompt returned: ["gpt-3.5-turbo"] or
    ["gpt-4o-mini"]. *)
Theorem main_requests_use_the_granted_model
        (libm_pow : B64.float -> B64.float -> B64.float * errno)
        (repr : num -> string) (sha256_hexdigest : string -> string)
        (strip lower : string -> string)
        (service : nat -> OpenAI.Request -> OpenAI.reply)
        (os_name : string) (rand fuel : nat)
        (lines : list string) (w : World) :
  Forall
    (fun r =>
       r.(OpenAI.api_key)
       = "sk-xxxxxxxxxxxxxxxxxxxxxxxxxxxxxxxxxxxxxxxxxxxxxxxxxxxx"
       /\ r.(OpenAI.base_url) = "https://free.v36.cm/v1/"
       /\ r.(OpenAI.temperature) = B64.one
       /\ r.(OpenAI.stream) = true
       /\ (r.(OpenAI.model) = "gpt-3.5-turbo"
           \/ r.(OpenAI.model) = "gpt-4o-mini")
       /\ exists rest w',
            CLIInterface.prompt_for_key libm_pow repr sha256_hexdigest lines w
            = (Ok r.(OpenAI.model), rest, w'))
    (snd (main libm_pow repr sha256_hexdigest strip lower service os_name rand
               fuel lines w)).(sent).
Proof.
  destruct (main_session libm_pow repr sha256_hexdigest strip lower service os_name rand
              fuel lines w)
    as [(e & rest & w' & E & ->)
       |(m & rest & w' & status & c & t & E & Hm & -> & Hs & Hinv)].
  - constructor.
  - cbn [snd].
    destruct Hinv as (_ & _ & _ & _ & news & Hsent & Hnews & _).
    cbn [sent app] in Hsent. rewrite Hsent.
    apply Forall_forall. intros r Hr. rewrite Forall_forall in Hnews.
    destruct (Hnews r Hr) as ((H1 & H2 & H3 & H4 & H5) & _).
    cbn [init model api_key base_url] in *.
    rewrite H1. repeat split; auto. eauto.
Qed.

(** Every request [main] sends holds a well-formed transcript: the
    system prompt first, then questions and answers, an answer only
    right after a question; its last message is the question just
    typed, which is not empty.  The transcript the client is left with
    is well formed too. *)
Theorem main_sends_well_formed_transcripts
        (libm_pow : B64.float -> B64.float -> B64.float * errno)
        (repr : num -> string) (sha256_hexdigest : string -> string)
        (strip lower : string -> string)
        (service : nat -> OpenAI.Request -> OpenAI.reply)
        (os_name : string) (rand fuel : nat)
        (lines : list string) (w : World) :
  let '(_, _, chat_client, t) :=
    main libm_pow repr sha256_hexdigest strip lower service os_name rand fuel lines w in
  Forall
    (fun r =>
       Transcript.well_formed system_prompt r.(OpenAI.messages) = true
       /\ exists h u,
            r.(OpenAI.messages) = (h ++ [OpenAI.Message "user" u])%list
            /\ u <> "")
    t.(sent)
  /\ match chat_client with
     | Some c => Transcript.well_formed system_prompt c.(history) = true
     | None => True
     end.
Proof.
  destruct (main_session libm_pow repr sha256_hexdigest strip lower service os_name rand
              fuel lines w)
    as [(e & rest & w' & E & ->)
       |(m & rest & w' & status & c & t & E & Hm & -> & Hs & Hinv)].
  - split; constructor.
  - destruct Hinv as ((_ & _ & _ & Hp) & Hw & _ & _ & news & Hsent & Hnews & _).
    cbn [sent app init prompt] in *. split.
    + rewrite Hsent. apply Forall_forall. intros r Hr.
      rewrite Forall_forall in Hnews.
      destruct (Hnews r Hr) as (_ & H2 & H3 & _). auto.
    + now rewrite <- Hp.
Qed.

(** The context only grows: of any two requests [main] sends, the later
    one holds all the messages of the earlier one, in the same order,
    and more after them.  Nothing is ever dropped from the transcript. *)
Theorem main_context_only_grows
        (libm_pow : B64.float -> B64.float -> B64.float * errno)
        (repr : num -> string) (sha256_hexdigest : string -> string)
        (strip lower : string -> string)
        (service : nat -> OpenAI.Request -> OpenAI.reply)
        (os_name : string) (rand fuel : nat)
        (lines : list string) (w : World) :
  ForallOrdPairs
    (fun r1 r2 => Transcript.extends r1.(OpenAI.messages) r2.(OpenAI.messages))
    (snd (main libm_pow repr sha256_hexdigest strip lower service os_name rand
               fuel lines w)).(sent).
Proof.
  destruct (main_session libm_pow repr sha256_hexdigest strip lower service os_name rand
              fuel lines w)
    as [(e & rest & w' & E & ->)
       |(m & rest & w' & status & c & t & E & Hm & -> & Hs & Hinv)].
  - constructor.
  - cbn [snd].
    destruct Hinv as (_ & _ & _ & _ & news & Hsent & _ & Hord).
    cbn [sent app] in Hsent. now rewrite Hsent.
Qed.

(** Once a key is accepted [main] prints its connecting line, sleeps two
    seconds and clears the screen, with [cls] on [nt] and [dos] and with
    [clear] elsewhere; after that it only prints and asks: it runs no
    other command and never sleeps again.  Before a key is accepted it
    does none of this. *)
Theorem main_clears_the_screen_once
        (libm_pow : B64.float -> B64.float -> B64.float * errno)
        (repr : num -> string) (sha256_hexdigest : string -> string)
        (strip lower : string -> string)
        (service : nat -> OpenAI.Request -> OpenAI.reply)
        (os_name : string) (rand fuel : nat)
        (lines : list string) (w : World) :
  let '(status, _, _, t) :=
    main libm_pow repr sha256_hexdigest strip lower service os_name rand fuel lines w in
  match status with
  | Returned | Running =>
      exists shown,
        t.(out)
        = ([Printed "Connecting to server..." newline; Slept 2;
            Ran (if (os_name =? "nt") || (os_name =? "dos")
                 then "cls" else "clear")] ++ shown)%list
        /\ Forall (fun e => on_terminal e = true) shown
  | _ => t.(out) = []
  end.
Proof.
  destruct (main_session libm_pow repr sha256_hexdigest strip lower service os_name rand
              fuel lines w)
    as [(e & rest & w' & E & ->)
       |(m & rest & w' & status & c & t & E & Hm & -> & Hs & Hinv)].
  - reflexivity.
  - destruct Hinv as (_ & _ & _ & (shown & Hout & Hshown) & _).
    cbn [out existsb] in Hout. rewrite orb_false_r in Hout.
    destruct Hs as [->| ->]; exists shown; auto.
Qed.

(** A session on the golden date: a normal key, a question that is
    answered, a blank line, a question that is refused, and [/quit]. *)
Example main_on_the_golden_day :
  let run :=
    main RefLibm.pow RefLibm.repr Sha256.hexdigest
         AsciiStr.strip AsciiStr.lower ChatExample.service "posix" 0 9
         [nth 0 Example.golden_normal ""; "hi"; "   "; " again "; "/Quit";
          "late"]
         (Example.world_on Example.golden 0 []) in
  fst (fst (fst run)) = Returned
  /\ snd (fst (fst run)) = Example.world_on Example.golden 2 ["Key: "]
  /\ option_map history (snd (fst run))
     = Some [OpenAI.Message "system" system_prompt;
             OpenAI.Message "user" "hi";
             OpenAI.Message "assistant" "Hello";
             OpenAI.Message "user" "again"]
  /\ map OpenAI.model (snd run).(sent) = ["gpt-3.5-turbo"; "gpt-3.5-turbo"]
  /\ (snd run).(stdin) = ["late"]
  /\ (snd run).(out)
     = [Printed "Connecting to server..." newline; Slept 2; Ran "clear";
        you_prompt; Printed (Fore_BLUE ++ "AstraGPT > ") "";
        Printed "Hel" ""; Printed "" ""; Printed "lo" ""; Printed "" newline;
        you_prompt;
        you_prompt; error_line (ServiceError "Connection error.");
        you_prompt; Printed "bye!" newline].
Proof.
  pose proof (golden_prompt ["hi"; "   "; " again "; "/Quit"; "late"]) as G.
  pose proof (proj2 (main_cases RefLibm.pow RefLibm.repr Sha256.hexdigest
                       AsciiStr.strip AsciiStr.lower ChatExample.service
                       "posix" 0 9 _ _)
                    _ _ _ G) as H.
  cbv zeta in H. cbv zeta. rewrite H. clear H G.
  repeat split; vm_compute; reflexivity.
Qed.

End MainProperties.
